(** * The WebRTC karaoke signaling relay (server-https.js)

    A shallow embedding of the [SignalingServer] class: its two tables
    ([rooms], [connections]), the per-frame message handlers, the
    disconnection handler and the periodic room sweep, with the calls made
    on sockets ([send], [close]) recorded as a trace.  The plain-HTTP server
    of the repository has the same handlers without the checks on [roomId],
    the room and viewer limits, the sweep and the [readyState] tests on
    relayed messages; [handleLeaveRoom] and [handleDisconnection] do the
    same in both on the room identifiers that the HTTPS server admits. *)

From stdpp Require Import gmap strings list.
From Stdlib Require Import ZArith.

Local Open Scope string_scope.
Local Open Scope list_scope.
Local Open Scope Z_scope.

(** ** JavaScript data *)

(** What [JSON.parse] returns.  A number only ever meets a truthiness test
    here, so an integer stands for it; a character of a string stands for
    one code unit, so that [String.length] is [.length]; the fields of an
    object are its own properties, in order, each key once. *)
#[local] Set Warnings "-register-all".
Inductive Json : Type :=
  | JNull
  | JBool (b : bool)
  | JNumber (n : Z)
  | JString (s : string)
  | JArray (items : list Json)
  | JObject (fields : list (string * Json)).
#[local] Set Warnings "register-all".

Fixpoint assoc (key : string) (fields : list (string * Json)) : option Json :=
  match fields with
  | [] => None
  | (k, v) :: rest => if decide (k = key) then Some v else assoc key rest
  end.

(** [message.key]: [None] is [undefined].  None of the keys the server reads
    ([type], [roomId], [offer], [answer], [candidate], [viewerId]) exists on
    the prototype of a string, a number, a boolean or an array. *)
Definition prop (key : string) (message : Json) : option Json :=
  match message with
  | JObject fields => assoc key fields
  | _ => None
  end.

(** Truthiness of a value, as [!v] and [if (v)] see it. *)
Definition truthy (v : option Json) : bool :=
  match v with
  | None => false
  | Some JNull => false
  | Some (JBool b) => b
  | Some (JNumber n) => negb (n =? 0)
  | Some (JString s) => negb (bool_decide (s = ""))
  | Some (JArray _) => true
  | Some (JObject _) => true
  end.

(** [a === b] where [a] is a string or [undefined] (a binding's [viewerId])
    and [b] is a field of a parsed message. *)
Definition strict_eq (a : option string) (b : option Json) : bool :=
  match a, b with
  | None, None => true
  | Some s, Some (JString s') => bool_decide (s = s')
  | _, _ => false
  end.

(** ** [Map] and [Set], in insertion order *)

Section ordered_map.
Context {K V : Type} `{EqDecision K}.

Fixpoint Map_get (k : K) (m : list (K * V)) : option V :=
  match m with
  | [] => None
  | (k', v) :: rest => if decide (k' = k) then Some v else Map_get k rest
  end.

Definition Map_has (k : K) (m : list (K * V)) : bool :=
  match Map_get k m with Some _ => true | None => false end.

(** [set] on a present key replaces the value where it stands, on a new
    key it appends. *)
Fixpoint Map_set (k : K) (v : V) (m : list (K * V)) : list (K * V) :=
  match m with
  | [] => [(k, v)]
  | (k', v') :: rest =>
      if decide (k' = k) then (k, v) :: rest else (k', v') :: Map_set k v rest
  end.

Fixpoint Map_delete (k : K) (m : list (K * V)) : list (K * V) :=
  match m with
  | [] => []
  | (k', v') :: rest =>
      if decide (k' = k) then Map_delete k rest else (k', v') :: Map_delete k rest
  end.

Definition Map_size (m : list (K * V)) : nat := length m.
End ordered_map.

Section ordered_set.
Context {A : Type} `{EqDecision A}.

Definition Set_has (x : A) (s : list A) : bool := bool_decide (x ∈ s).

Definition Set_add (x : A) (s : list A) : list A :=
  if Set_has x s then s else s ++ [x].

Fixpoint Set_delete (x : A) (s : list A) : list A :=
  match s with
  | [] => []
  | y :: rest => if decide (y = x) then Set_delete x rest else y :: Set_delete x rest
  end.

Definition Set_size (s : list A) : nat := length s.
End ordered_set.

(** ** Sockets, rooms, bindings *)

(** A socket object, by identity. *)
Definition conn := nat.

Inductive ReadyState := CONNECTING | OPEN | CLOSING | CLOSED.

Global Instance ReadyState_eq_dec : EqDecision ReadyState.
Proof. solve_decision. Defined.

Inductive Role := host_role | viewer_role.

Global Instance Role_eq_dec : EqDecision Role.
Proof. solve_decision. Defined.

(** A value of [this.rooms]. *)
Record Room := mkRoom {
  host : conn;
  viewers : list conn;
  createdAt : Z
}.

(** A value of [this.connections]: [{type, roomId}] for a host,
    [{type, roomId, viewerId}] for a viewer. *)
Record Binding := mkBinding {
  type : Role;
  roomId : string;
  viewerId : option string
}.

(** What the server sends; a field that is [undefined] is left out by
    [JSON.stringify]. *)
Inductive Outbound :=
  | error_msg (message : string)
  | room_created (roomId : string)
  | room_not_found
  | room_joined (roomId viewerId : string)
  | viewer_joined (viewerId : string)
  | viewer_left (viewerId : option string)
  | offer_msg (offer : option Json)
  | answer_msg (answer : option Json) (viewerId : option string)
  | ice_candidate_msg (candidate : option Json) (viewerId : option string)
  | host_disconnected.

(** A call made on a socket. *)
Inductive Event :=
  | Send (to : conn) (msg : Outbound)
  | Close (ws : conn) (code : Z) (reason : string).

Record SignalingServer := mkServer {
  rooms : list (string * Room);
  connections : gmap conn Binding;
  sockets : gmap conn ReadyState;
  maxRooms : Z
}.

Definition with_rooms (r : list (string * Room)) (st : SignalingServer) :=
  mkServer r (connections st) (sockets st) (maxRooms st).

Definition with_connections (c : gmap conn Binding) (st : SignalingServer) :=
  mkServer (rooms st) c (sockets st) (maxRooms st).

Definition with_sockets (s : gmap conn ReadyState) (st : SignalingServer) :=
  mkServer (rooms st) (connections st) s (maxRooms st).

(** [ws.readyState]; a socket the server no longer holds is closed. *)
Definition readyState (st : SignalingServer) (ws : conn) : ReadyState :=
  default CLOSED (sockets st !! ws).

Definition is_open (st : SignalingServer) (ws : conn) : bool :=
  bool_decide (readyState st ws = OPEN).

(** [ws.close(code, reason)]: the call is recorded, an open socket starts
    closing. *)
Definition ws_close (ws : conn) (code : Z) (reason : string)
    (st : SignalingServer) : SignalingServer * list Event :=
  (if is_open st ws then with_sockets (<[ws := CLOSING]> (sockets st)) st else st,
   [Close ws code reason]).

(** [ws.terminate()], which the heartbeat calls on a socket that missed a
    ping: the socket is torn down, its [close] listener runs later. *)
Definition ws_terminate (ws : conn) (st : SignalingServer) : SignalingServer :=
  match readyState st ws with
  | CLOSED => st
  | _ => with_sockets (<[ws := CLOSING]> (sockets st)) st
  end.

(** [new SignalingServer()] with [MAX_ROOMS] unset. *)
Definition new_server : SignalingServer := mkServer [] ∅ ∅ 100.

(** The [connection] event, below the connection cap. *)
Definition on_connection (ws : conn) (st : SignalingServer) : SignalingServer :=
  with_sockets (<[ws := OPEN]> (sockets st)) st.

(** ** The handlers *)

(** [generateViewerId()]; [rnd] is the text [Math.random().toString(36).substr(2, 8)]
    of this call. *)
Definition generateViewerId (rnd : string) : string := String.append "viewer_" rnd.

(** What a handler reads from outside the two tables: [Date.now()] and the
    random text of [generateViewerId]. *)
Record Env := mkEnv { now : Z; random : string }.

Definition handleCreateRoom (env : Env) (ws : conn) (message : Json)
    (st : SignalingServer) : SignalingServer * list Event :=
  match prop "roomId" message with
  | Some (JString roomId) =>
      if bool_decide (roomId = "") || (20 <? String.length roomId)%nat then
        (st, [Send ws (error_msg "Invalid room ID")])
      else if maxRooms st <=? Z.of_nat (Map_size (rooms st)) then
        (st, [Send ws (error_msg "Maximum rooms reached")])
      else if Map_has roomId (rooms st) then
        (st, [Send ws (error_msg "Room already exists")])
      else
        (with_connections (<[ws := mkBinding host_role roomId None]> (connections st))
           (with_rooms (Map_set roomId (mkRoom ws [] (now env)) (rooms st)) st),
         [Send ws (room_created roomId)])
  | _ => (st, [Send ws (error_msg "Invalid room ID")])
  end.

Definition handleJoinRoom (env : Env) (ws : conn) (message : Json)
    (st : SignalingServer) : SignalingServer * list Event :=
  match prop "roomId" message with
  | Some (JString roomId) =>
      if bool_decide (roomId = "") then (st, [Send ws room_not_found])
      else
        match Map_get roomId (rooms st) with
        | None => (st, [Send ws room_not_found])
        | Some room =>
            if (50 <=? Set_size (viewers room))%nat then
              (st, [Send ws (error_msg "Room is full")])
            else
              let viewerId := generateViewerId (random env) in
              let room' := mkRoom (host room) (Set_add ws (viewers room)) (createdAt room) in
              let st' :=
                with_connections
                  (<[ws := mkBinding viewer_role roomId (Some viewerId)]> (connections st))
                  (with_rooms (Map_set roomId room' (rooms st)) st) in
              (st',
               Send ws (room_joined roomId viewerId)
               :: (if is_open st' (host room)
                   then [Send (host room) (viewer_joined viewerId)] else []))
        end
  | _ => (st, [Send ws room_not_found])
  end.

Definition handleLeaveRoom (ws : conn) (message : Json)
    (st : SignalingServer) : SignalingServer * list Event :=
  match connections st !! ws with
  | None => (st, [])
  | Some connection =>
      match Map_get (roomId connection) (rooms st) with
      | None => (st, [])
      | Some room =>
          match type connection with
          | viewer_role =>
              let room' := mkRoom (host room) (Set_delete ws (viewers room)) (createdAt room) in
              let st1 := with_rooms (Map_set (roomId connection) room' (rooms st)) st in
              (with_connections (delete ws (connections st1)) st1,
               if is_open st1 (host room)
               then [Send (host room) (viewer_left (viewerId connection))] else [])
          | host_role =>
              (with_connections (delete ws (connections st)) st, [])
          end
      end
  end.

(** The [for (const viewer of room.viewers)] loop of [handleOffer] and
    [handleIceCandidate]: the first viewer whose binding carries the wanted
    [viewerId] ends the loop, and is written to if open. *)
Fixpoint forward_to_viewer (st : SignalingServer) (wanted : option Json)
    (msg : Outbound) (vs : list conn) : list Event :=
  match vs with
  | [] => []
  | viewer :: rest =>
      match connections st !! viewer with
      | Some viewerConnection =>
          if strict_eq (viewerId viewerConnection) wanted then
            if is_open st viewer then [Send viewer msg] else []
          else forward_to_viewer st wanted msg rest
      | None => forward_to_viewer st wanted msg rest
      end
  end.

Definition handleOffer (ws : conn) (message : Json)
    (st : SignalingServer) : SignalingServer * list Event :=
  match connections st !! ws with
  | None => (st, [])
  | Some connection =>
      match type connection with
      | viewer_role => (st, [])
      | host_role =>
          match Map_get (roomId connection) (rooms st) with
          | None => (st, [])
          | Some room =>
              (st, forward_to_viewer st (prop "viewerId" message)
                     (offer_msg (prop "offer" message)) (viewers room))
          end
      end
  end.

Definition handleAnswer (ws : conn) (message : Json)
    (st : SignalingServer) : SignalingServer * list Event :=
  match connections st !! ws with
  | None => (st, [])
  | Some connection =>
      match type connection with
      | host_role => (st, [])
      | viewer_role =>
          match Map_get (roomId connection) (rooms st) with
          | None => (st, [])
          | Some room =>
              (st, if is_open st (host room)
                   then [Send (host room)
                           (answer_msg (prop "answer" message) (viewerId connection))]
                   else [])
          end
      end
  end.

Definition handleIceCandidate (ws : conn) (message : Json)
    (st : SignalingServer) : SignalingServer * list Event :=
  match connections st !! ws with
  | None => (st, [])
  | Some connection =>
      match Map_get (roomId connection) (rooms st) with
      | None => (st, [])
      | Some room =>
          match type connection with
          | host_role =>
              (st, forward_to_viewer st (prop "viewerId" message)
                     (ice_candidate_msg (prop "candidate" message) None) (viewers room))
          | viewer_role =>
              (st, if is_open st (host room)
                   then [Send (host room)
                           (ice_candidate_msg (prop "candidate" message)
                              (viewerId connection))]
                   else [])
          end
      end
  end.

(** [handleMessage].  No handler throws on a parsed message whose [type] is
    truthy (such a message is an object, and [send] on a socket that is not
    open does not throw), so the [catch] that closes with 1011 is never
    entered. *)
Definition handleMessage (env : Env) (ws : conn) (message : Json)
    (st : SignalingServer) : SignalingServer * list Event :=
  if negb (truthy (prop "type" message)) then (st, [])
  else
    match prop "type" message with
    | Some (JString kind) =>
        if bool_decide (kind = "create-room") then handleCreateRoom env ws message st
        else if bool_decide (kind = "join-room") then handleJoinRoom env ws message st
        else if bool_decide (kind = "leave-room") then handleLeaveRoom ws message st
        else if bool_decide (kind = "offer") then handleOffer ws message st
        else if bool_decide (kind = "answer") then handleAnswer ws message st
        else if bool_decide (kind = "ice-candidate") then handleIceCandidate ws message st
        else (st, [])
    | _ => (st, [])
    end.

(** An inbound frame as the [message] listener sees it: [data.length], and
    what [JSON.parse(data)] returns ([None] when it throws). *)
Record Frame := mkFrame { data_length : N; JSON_parse : option Json }.

(** [ws.on('message', ...)].  Reading [message.type] of [null] throws inside
    [handleMessage] before its own [try], so the listener's [catch] closes
    with 1003 as it does for text that does not parse. *)
Definition on_message (env : Env) (ws : conn) (data : Frame)
    (st : SignalingServer) : SignalingServer * list Event :=
  if (16384 <? data_length data)%N then ws_close ws 1009 "Message too large" st
  else
    match JSON_parse data with
    | None => ws_close ws 1003 "Invalid message format" st
    | Some JNull => ws_close ws 1003 "Invalid message format" st
    | Some message => handleMessage env ws message st
    end.

(** The [room.viewers.forEach] of a host's disconnection. *)
Fixpoint notify_viewers (st : SignalingServer) (vs : list conn) : list Event :=
  match vs with
  | [] => []
  | viewer :: rest =>
      (if is_open st viewer then [Send viewer host_disconnected] else [])
      ++ notify_viewers st rest
  end.

Definition handleDisconnection (ws : conn)
    (st : SignalingServer) : SignalingServer * list Event :=
  match connections st !! ws with
  | None => (st, [])
  | Some connection =>
      match Map_get (roomId connection) (rooms st) with
      | None => (st, [])
      | Some room =>
          match type connection with
          | host_role =>
              let st1 := with_rooms (Map_delete (roomId connection) (rooms st)) st in
              (with_connections (delete ws (connections st1)) st1,
               notify_viewers st (viewers room))
          | viewer_role =>
              let room' := mkRoom (host room) (Set_delete ws (viewers room)) (createdAt room) in
              let st1 := with_rooms (Map_set (roomId connection) room' (rooms st)) st in
              (with_connections (delete ws (connections st1)) st1,
               if is_open st1 (host room)
               then [Send (host room) (viewer_left (viewerId connection))] else [])
          end
      end
  end.

(** [ws.on('close', ...)]: the socket is closed when the listener runs. *)
Definition on_close (ws : conn) (st : SignalingServer) : SignalingServer * list Event :=
  handleDisconnection ws (with_sockets (<[ws := CLOSED]> (sockets st)) st).

(** ** The room sweep *)

Definition staleThreshold : Z := 30 * 60 * 1000.

(** [room.createdAt && (now - room.createdAt) > staleThreshold]. *)
Definition is_stale (now : Z) (room : Room) : bool :=
  negb (createdAt room =? 0) && (staleThreshold <? now - createdAt room).

(** The body of [cleanupStaleRooms] over the entries still to visit.  A room
    always holds a socket as [host], so [room.host &&] is true. *)
Fixpoint sweep (now : Z) (entries : list (string * Room))
    (st : SignalingServer) : SignalingServer * list Event :=
  match entries with
  | [] => (st, [])
  | (roomId, room) :: rest =>
      if negb (is_open st (host room)) then
        sweep now rest (with_rooms (Map_delete roomId (rooms st)) st)
      else if is_stale now room then
        let '(st1, ev1) :=
          if is_open st (host room) then ws_close (host room) 1000 "Room expired" st
          else (st, []) in
        let '(st2, ev2) :=
          sweep now rest (with_rooms (Map_delete roomId (rooms st1)) st1) in
        (st2, ev1 ++ ev2)
      else sweep now rest st
  end.

Definition cleanupStaleRooms (now : Z) (st : SignalingServer) : SignalingServer * list Event :=
  sweep now (rooms st) st.

(** ** The server as a transition system *)

(** One turn of the event loop: a listener or a timer callback runs to its
    end before the next one starts. *)
Inductive step : SignalingServer → SignalingServer → Prop :=
  | step_connection ws st : step st (on_connection ws st)
  | step_message env ws data st : step st (on_message env ws data st).1
  | step_close ws st : step st (on_close ws st).1
  | step_error ws st : step st (handleDisconnection ws st).1
  | step_terminate ws st : step st (ws_terminate ws st)
  | step_sweep now st : step st (cleanupStaleRooms now st).1.

(** The servers that a run started with [MAX_ROOMS] at [limit] goes through. *)
Inductive reachable (limit : Z) : SignalingServer → Prop :=
  | reachable_new : reachable limit (mkServer [] ∅ ∅ limit)
  | reachable_step st st' : reachable limit st → step st st' → reachable limit st'.

(** ** Vocabulary of the properties *)

(** The two tables agree: every binding names a room of the Room Table, and
    a viewer's binding names a room that holds the viewer. *)
Definition consistent (st : SignalingServer) : Prop :=
  ∀ (c : conn) (b : Binding), connections st !! c = Some b →
    ∃ room, Map_get (roomId b) (rooms st) = Some room
            ∧ (type b = viewer_role → c ∈ viewers room).

(** The lists stand for a [Map] and for [Set]s: no key of the Room Table
    and no member of a viewer set occurs twice. *)
Definition well_formed (st : SignalingServer) : Prop :=
  NoDup (rooms st).*1
  ∧ ∀ r room, Map_get r (rooms st) = Some room → NoDup (viewers room).

(** The room a connection is bound to, and the room a message names. *)
Definition bound_room (st : SignalingServer) (ws : conn) : option string :=
  roomId <$> connections st !! ws.

Definition named_room (message : Json) : option string :=
  match prop "roomId" message with
  | Some (JString r) => Some r
  | _ => None
  end.

(** [message.type] of the frame, when the frame parses. *)
Definition frame_kind (data : Frame) : option Json :=
  JSON_parse data ≫= prop "type".

(** From [st] to [st'] no binding but that of [ws] and no room but [r0]
    has changed. *)
Definition only_touches (ws : conn) (r0 : option string)
    (st st' : SignalingServer) : Prop :=
  (∀ c : conn, c ≠ ws → connections st' !! c = connections st !! c)
  ∧ (∀ r : string, Some r ≠ r0 → Map_get r (rooms st') = Map_get r (rooms st)).

(** The same two tables. *)
Definition same_tables (st st' : SignalingServer) : Prop :=
  rooms st' = rooms st ∧ connections st' = connections st.

(** How many [host-disconnected] messages a trace sends to [v]. *)
Definition is_host_disconnected_to (v : conn) (e : Event) : bool :=
  match e with
  | Send to host_disconnected => bool_decide (to = v)
  | _ => false
  end.

Definition host_disconnected_count (v : conn) (evs : list Event) : nat :=
  length (List.filter (is_host_disconnected_to v) evs).

(** The message kinds of the [switch] in [handleMessage]. *)
Definition kinds : list string :=
  ["create-room"; "join-room"; "leave-room"; "offer"; "answer"; "ice-candidate"].

(** The close codes of the transport, room expiry apart. *)
Definition transport_codes : list Z := [1000; 1003; 1009; 1011; 1013].

(** The server once the sweep has closed the open host [ws] of the expired
    room [rid] and deleted the room. *)
Definition after_expiry (rid : string) (ws : conn) (st : SignalingServer) :=
  with_rooms (Map_delete rid (rooms st))
    (with_sockets (<[ws := CLOSING]> (sockets st)) st).

(** A room is past the staleness threshold at [now]. *)
Definition stale (now : Z) (room : Room) : Prop :=
  createdAt room ≠ 0 ∧ staleThreshold < now - createdAt room.

(** [consistent], as a check that runs on a given server. *)
Definition binding_ok (st : SignalingServer) (cb : conn * Binding) : bool :=
  match Map_get (roomId cb.2) (rooms st) with
  | None => false
  | Some room =>
      match type cb.2 with
      | host_role => true
      | viewer_role => bool_decide (cb.1 ∈ viewers room)
      end
  end.

Definition consistentb (st : SignalingServer) : bool :=
  forallb (binding_ok st) (map_to_list (connections st)).

(** ** Scenarios *)

Definition create_room (r : string) : Json :=
  JObject [("type", JString "create-room"); ("roomId", JString r)].

Definition join_room (r : string) : Json :=
  JObject [("type", JString "join-room"); ("roomId", JString r)].

Definition leave_room : Json := JObject [("type", JString "leave-room")].

Definition offer_for (vid : string) (sdp : Json) : Json :=
  JObject [("type", JString "offer"); ("offer", sdp); ("viewerId", JString vid)].

Definition env0 : Env := mkEnv 1700000000000 "k3x9a2bq".

(** Three sockets connected, nothing else. *)
Definition lobby : SignalingServer :=
  on_connection 3%nat (on_connection 2%nat (on_connection 1%nat new_server)).

(** Socket 1 hosts room ABCD1234. *)
Definition hosted : SignalingServer :=
  (handleMessage env0 1%nat (create_room "ABCD1234") lobby).1.

(** Socket 2 has joined it. *)
Definition joined : SignalingServer :=
  (handleMessage env0 2%nat (join_room "ABCD1234") hosted).1.

(** A server configured with [MAX_ROOMS=1], two sockets connected. *)
Definition single_room_server : SignalingServer :=
  on_connection 2%nat (on_connection 1%nat (mkServer [] ∅ ∅ 1)).

(** Socket 1 hosts room DUPLICATE there. *)
Definition single_room_taken : SignalingServer :=
  (handleMessage env0 1%nat (create_room "DUPLICATE") single_room_server).1.

(** Socket 2, a viewer of ABCD1234, has started to close (the heartbeat
    has terminated it) and its [close] listener has not run yet. *)
Definition viewer_closing : SignalingServer := ws_terminate 2%nat joined.

(** Host 1 has gone and socket 3 has created ABCD1234 anew; socket 2 still
    holds its binding as a viewer of ABCD1234. *)
Definition rehosted : SignalingServer :=
  (handleMessage env0 3%nat (create_room "ABCD1234") (on_close 1%nat joined).1).1.

(** [v] is where the loop over the viewers [vs] stops: the first of them
    whose binding carries the [viewerId] wanted. *)
Definition first_named (st : SignalingServer) (vs : list conn)
    (wanted : option Json) (v : conn) : Prop :=
  ∃ before after,
    vs = before ++ v :: after
    ∧ (∃ bv, connections st !! v = Some bv ∧ strict_eq (viewerId bv) wanted = true)
    ∧ ∀ w bw, w ∈ before → connections st !! w = Some bw →
              strict_eq (viewerId bw) wanted = false.

(** The one socket a message relayed for a host can go to: [ws] is bound
    as a host, the Room Table holds a room under the [roomId] of that
    binding, and [v] is the first viewer of that room named by [wanted],
    with its socket open. *)
Definition viewer_target (st : SignalingServer) (ws : conn)
    (wanted : option Json) (v : conn) : Prop :=
  ∃ b room,
    connections st !! ws = Some b ∧ type b = host_role
    ∧ Map_get (roomId b) (rooms st) = Some room
    ∧ first_named st (viewers room) wanted v
    ∧ is_open st v = true.

(** The one socket a message relayed for a viewer can go to: [ws] is bound
    as a viewer with identifier [vid], the Room Table holds a room under
    the [roomId] of that binding, and [h] is the host of that room, with
    its socket open. *)
Definition host_target (st : SignalingServer) (ws : conn)
    (h : conn) (vid : option string) : Prop :=
  ∃ b room,
    connections st !! ws = Some b ∧ type b = viewer_role
    ∧ Map_get (roomId b) (rooms st) = Some room
    ∧ h = host room ∧ vid = viewerId b
    ∧ is_open st h = true.

(** An answer, and an offer for a viewer nobody is. *)
Definition an_answer : Json :=
  JObject [("type", JString "answer");
           ("answer", JObject [("type", JString "answer"); ("sdp", JString "v=0")])].

Definition an_offer_for_nobody : Json :=
  JObject [("type", JString "offer");
           ("offer", JObject [("type", JString "offer"); ("sdp", JString "v=0")]);
           ("viewerId", JString "viewer_nobody")].

(** Half an hour and one millisecond after room ABCD1234 was created. *)
Definition expiry_time : Z := 1700000000000 + staleThreshold + 1.

(** Socket 1 has sent an offer for the viewer of its room. *)
Definition an_offer : Json :=
  offer_for "viewer_k3x9a2bq" (JObject [("type", JString "offer"); ("sdp", JString "v=0")]).

(** ** More vocabulary *)

(** The limits the handlers enforce: the Room Table holds no more rooms
    than [maxRooms] (none when that is negative), every room identifier is
    a string of 1 to 20, and no viewer set holds more than 50 sockets. *)
Definition within_limits (st : SignalingServer) : Prop :=
  Z.of_nat (Map_size (rooms st)) ≤ Z.max 0 (maxRooms st)
  ∧ ∀ r room, Map_get r (rooms st) = Some room →
      r ≠ "" ∧ (String.length r ≤ 20)%nat ∧ (Set_size (viewers room) ≤ 50)%nat.

(** [to] is the host or a viewer of room [r] of the Room Table. *)
Definition in_room (st : SignalingServer) (r : string) (to : conn) : Prop :=
  ∃ room, Map_get r (rooms st) = Some room ∧ (to = host room ∨ to ∈ viewers room).


(** Where an event of a handler run for [ws] may go: a message to [ws]
    itself or into room [r0], a close to [ws] only. *)
Definition reaches (st : SignalingServer) (ws : conn) (r0 : option string)
    (e : Event) : Prop :=
  match e with
  | Send to _ => to = ws ∨ ∃ r, r0 = Some r ∧ in_room st r to
  | Close c _ _ => c = ws
  end.


(** ** The connection registry *)

(** What the server keeps about sockets beside the two tables:
    [wss.clients], the sockets on which the [connection] listener has put
    its listeners and whose [close] has not been emitted yet, the [isAlive]
    flag of each socket (absent is [undefined]), [connectionCount] and
    [maxConnections]. *)
Record Registry := mkRegistry {
  signaling : SignalingServer;
  clients : list conn;
  listening : list conn;
  isAlive : gmap conn bool;
  connectionCount : Z;
  maxConnections : Z
}.

Definition with_signaling (srv : SignalingServer) (reg : Registry) : Registry :=
  mkRegistry srv (clients reg) (listening reg) (isAlive reg)
    (connectionCount reg) (maxConnections reg).

Definition with_isAlive (flags : gmap conn bool) (reg : Registry) : Registry :=
  mkRegistry (signaling reg) (clients reg) (listening reg) flags
    (connectionCount reg) (maxConnections reg).

(** A call the registry makes: one of a handler, a ping or a terminate. *)
Inductive Call :=
  | OnSocket (e : Event)
  | Ping (ws : conn)
  | Terminate (ws : conn).

(** [new SignalingServer()] with [MAX_CONNECTIONS] at [maxc] and
    [MAX_ROOMS] at [maxr]. *)
Definition new_registry (maxc maxr : Z) : Registry :=
  mkRegistry (mkServer [] ∅ ∅ maxr) [] [] ∅ 0 maxc.

(** [wss.on('connection', ...)]: the library has opened the socket and put
    it in [wss.clients]; at the connection limit the listener closes it with
    1013 and returns before any listener is attached. *)
Definition wss_connection (ws : conn) (reg : Registry) : Registry * list Call :=
  let opened := on_connection ws (signaling reg) in
  let known := Set_add ws (clients reg) in
  if maxConnections reg <=? connectionCount reg then
    (mkRegistry (ws_close ws 1013 "Server overloaded" opened).1 known
       (listening reg) (isAlive reg) (connectionCount reg) (maxConnections reg),
     OnSocket <$> (ws_close ws 1013 "Server overloaded" opened).2)
  else
    (mkRegistry opened known (Set_add ws (listening reg))
       (<[ws := true]> (isAlive reg)) (connectionCount reg + 1) (maxConnections reg),
     []).

(** [ws.on('pong', ...)]. *)
Definition ws_pong (ws : conn) (reg : Registry) : Registry :=
  if Set_has ws (listening reg)
  then with_isAlive (<[ws := true]> (isAlive reg)) reg else reg.

(** [ws.on('message', ...)], on a socket that has the listener. *)
Definition ws_message (env : Env) (ws : conn) (data : Frame)
    (reg : Registry) : Registry * list Call :=
  if Set_has ws (listening reg) then
    (with_signaling (on_message env ws data (signaling reg)).1 reg,
     OnSocket <$> (on_message env ws data (signaling reg)).2)
  else (reg, []).

(** [ws.on('error', ...)]. *)
Definition ws_error (ws : conn) (reg : Registry) : Registry * list Call :=
  if Set_has ws (listening reg) then
    (with_signaling (handleDisconnection ws (signaling reg)).1 reg,
     OnSocket <$> (handleDisconnection ws (signaling reg)).2)
  else (reg, []).

(** The [close] of a socket: the library marks it closed and takes it out
    of [wss.clients]; [ws.on('close', ...)], where attached, runs
    [handleDisconnection] and counts the connection down.  A socket emits
    [close] once, after which none of its listeners runs again. *)
Definition ws_closed (ws : conn) (reg : Registry) : Registry * list Call :=
  if Set_has ws (listening reg) then
    (mkRegistry (on_close ws (signaling reg)).1 (Set_delete ws (clients reg))
       (Set_delete ws (listening reg)) (isAlive reg)
       (connectionCount reg - 1) (maxConnections reg),
     OnSocket <$> (on_close ws (signaling reg)).2)
  else
    (mkRegistry (with_sockets (<[ws := CLOSED]> (sockets (signaling reg))) (signaling reg))
       (Set_delete ws (clients reg)) (listening reg) (isAlive reg)
       (connectionCount reg) (maxConnections reg),
     []).

(** The 30 s timer of [setupCleanupInterval], over [wss.clients]: a socket
    whose [isAlive] is not true is terminated, any other has the flag
    cleared and is pinged. *)
Fixpoint heartbeat_clients (cs : list conn) (reg : Registry) : Registry * list Call :=
  match cs with
  | [] => (reg, [])
  | ws :: rest =>
      if negb (default false (isAlive reg !! ws)) then
        let r := heartbeat_clients rest
                   (with_signaling (ws_terminate ws (signaling reg)) reg) in
        (r.1, Terminate ws :: r.2)
      else
        let r := heartbeat_clients rest
                   (with_isAlive (<[ws := false]> (isAlive reg)) reg) in
        (r.1, Ping ws :: r.2)
  end.

Definition heartbeat (reg : Registry) : Registry * list Call :=
  heartbeat_clients (clients reg) reg.

(** The 5 min timer of [setupCleanupInterval]. *)
Definition janitor (now : Z) (reg : Registry) : Registry * list Call :=
  (with_signaling (cleanupStaleRooms now (signaling reg)).1 reg,
   OnSocket <$> (cleanupStaleRooms now (signaling reg)).2).

(** One turn of the event loop of the whole server.  A socket that
    connects is a new one, and [close] comes from a socket still in
    [wss.clients]. *)
Inductive registry_step : Registry → Registry → Prop :=
  | rstep_connection ws reg :
      ws ∉ clients reg → registry_step reg (wss_connection ws reg).1
  | rstep_message env ws data reg : registry_step reg (ws_message env ws data reg).1
  | rstep_pong ws reg : registry_step reg (ws_pong ws reg)
  | rstep_error ws reg : registry_step reg (ws_error ws reg).1
  | rstep_closed ws reg : ws ∈ clients reg → registry_step reg (ws_closed ws reg).1
  | rstep_heartbeat reg : registry_step reg (heartbeat reg).1
  | rstep_janitor now reg : registry_step reg (janitor now reg).1.

Inductive registry_reachable (maxc maxr : Z) : Registry → Prop :=
  | registry_new : registry_reachable maxc maxr (new_registry maxc maxr)
  | registry_next reg reg' :
      registry_reachable maxc maxr reg → registry_step reg reg' →
      registry_reachable maxc maxr reg'.

(** The bookkeeping of the registry is sound: the listening sockets are
    clients, no socket is listed twice, and [connectionCount] counts the
    listening sockets. *)
Definition registry_ok (reg : Registry) : Prop :=
  NoDup (clients reg) ∧ NoDup (listening reg)
  ∧ (∀ ws, ws ∈ listening reg → ws ∈ clients reg)
  ∧ connectionCount reg = Z.of_nat (length (listening reg)).

(** Two sockets connected to a server that takes one connection. *)
Definition one_seat : Registry :=
  (wss_connection 1%nat (new_registry 1 100)).1.

Definition one_seat_taken : Registry := (wss_connection 2%nat one_seat).1.


(** [ws.isAlive], as the heartbeat tests it. *)
Definition alive (reg : Registry) (ws : conn) : bool :=
  default false (isAlive reg !! ws).

(** Socket 1 is connected to a server with room for it. *)
Definition seated : Registry := (wss_connection 1%nat (new_registry 1000 100)).1.


(** ** [log] *)

(** The four names that the calls of [log] in the file pass as [level]. *)
Inductive Level := error | warn | info | debug.

(** [levels[level]] for such a name. *)
Definition level_number (level : Level) : Z :=
  match level with error => 0 | warn => 1 | info => 2 | debug => 3 end.

(** The names the object literal [levels] inherits from [Object.prototype]:
    under each of them [levels[name]] is a function or an object. *)
Definition Object_prototype : list string :=
  ["constructor"; "__defineGetter__"; "__defineSetter__"; "hasOwnProperty";
   "__lookupGetter__"; "__lookupSetter__"; "isPrototypeOf";
   "propertyIsEnumerable"; "toString"; "valueOf"; "__proto__"; "toLocaleString"].

(** What [levels[this.logLevel]] can be. *)
Inductive LevelValue := LevelNumber (n : Z) | LevelObject | LevelUndefined.

Definition levels (name : string) : LevelValue :=
  if bool_decide (name = "error") then LevelNumber 0
  else if bool_decide (name = "warn") then LevelNumber 1
  else if bool_decide (name = "info") then LevelNumber 2
  else if bool_decide (name = "debug") then LevelNumber 3
  else if bool_decide (name ∈ Object_prototype) then LevelObject
  else LevelUndefined.

(** [levels[this.logLevel] || 2]: 0 and [undefined] are falsy. *)
Definition currentLevel (logLevel : string) : LevelValue :=
  match levels logLevel with
  | LevelNumber n => if n =? 0 then LevelNumber 2 else LevelNumber n
  | LevelObject => LevelObject
  | LevelUndefined => LevelNumber 2
  end.

(** [levels[level] <= currentLevel], the test under which [log] prints: a
    number against a function or an object compares as false. *)
Definition log_prints (logLevel : string) (level : Level) : bool :=
  match currentLevel logLevel with
  | LevelNumber n => level_number level <=? n
  | _ => false
  end.


(** * The plain-HTTP server

    The second [SignalingServer] of the repository, which serves the same
    protocol over HTTP.  It takes whatever [roomId] a message carries as a
    key of the Room Table, keeps no limits, never closes a socket and has
    no timers. *)

Module Plain.

(** Whether a template literal can write the value: [`${v}`] calls
    [toString] on an object and [join] on an array, which writes each item
    that is not [null] the same way.  An object that [JSON.parse] made with
    a field [toString] of its own has no function there, and none under
    [valueOf] that returns a primitive: the literal throws a [TypeError]. *)
Fixpoint has_string_form (v : Json) : bool :=
  match v with
  | JArray items => forallb has_string_form items
  | JObject fields =>
      match assoc "toString" fields with Some _ => false | None => true end
  | _ => true
  end.

(** The same of a field that may be missing: [undefined] is written. *)
Definition printable (v : option Json) : bool :=
  match v with
  | Some v => has_string_form v
  | None => true
  end.

(** The values that a [Map] compares by value. *)
Definition by_value (v : option Json) : bool :=
  match v with
  | Some (JArray _) | Some (JObject _) => false
  | _ => true
  end.

(** A key of [this.rooms], compared as a [Map] compares: [undefined],
    [null], booleans, numbers and strings by value, an object or an array
    by identity.  [ref] names the object that [JSON.parse] made, and
    [string_form] tells whether a template literal can write it. *)
Inductive Key :=
  | KUndefined
  | KNull
  | KBool (b : bool)
  | KNumber (n : Z)
  | KString (s : string)
  | KRef (ref : nat) (string_form : bool).

Global Instance Key_eq_dec : EqDecision Key.
Proof. solve_decision. Defined.

(** What a handler reads from outside the two tables: the identity of the
    object under [roomId], when the message carries an object or an array
    there, and the random text of [generateViewerId]. *)
Record Env := mkEnv { ref : nat; random : string }.

(** [message.roomId] as a key. *)
Definition key_of (env : Env) (v : option Json) : Key :=
  match v with
  | None => KUndefined
  | Some JNull => KNull
  | Some (JBool b) => KBool b
  | Some (JNumber n) => KNumber n
  | Some (JString s) => KString s
  | Some (JArray items) => KRef (ref env) (has_string_form (JArray items))
  | Some (JObject fields) => KRef (ref env) (has_string_form (JObject fields))
  end.

(** Whether [`${roomId}`] can be evaluated for the value kept as a key. *)
Definition key_printable (k : Key) : bool :=
  match k with
  | KRef _ string_form => string_form
  | _ => true
  end.

Record Room := mkRoom {
  host : conn;
  viewers : list conn
}.

Record Binding := mkBinding {
  type : Role;
  roomId : Key;
  viewerId : option string
}.

(** What the server sends; [roomId] goes back as it came. *)
Inductive Outbound :=
  | error_msg (message : string)
  | room_created (roomId : option Json)
  | room_not_found
  | room_joined (roomId : option Json) (viewerId : string)
  | viewer_joined (viewerId : string)
  | viewer_left (viewerId : option string)
  | offer_msg (offer : option Json)
  | answer_msg (answer : option Json) (viewerId : option string)
  | ice_candidate_msg (candidate : option Json) (viewerId : option string)
  | host_disconnected.

(** A call made on a socket: this server only ever sends. *)
Inductive Event :=
  | Send (to : conn) (msg : Outbound).

Record SignalingServer := mkServer {
  rooms : list (Key * Room);
  connections : gmap conn Binding;
  sockets : gmap conn ReadyState
}.

Definition with_rooms (r : list (Key * Room)) (st : SignalingServer) :=
  mkServer r (connections st) (sockets st).

Definition with_connections (c : gmap conn Binding) (st : SignalingServer) :=
  mkServer (rooms st) c (sockets st).

Definition readyState (st : SignalingServer) (ws : conn) : ReadyState :=
  default CLOSED (sockets st !! ws).

Definition is_open (st : SignalingServer) (ws : conn) : bool :=
  bool_decide (readyState st ws = OPEN).

(** [handleCreateRoom].  The log line [`Room created: ${roomId}`] stands
    between the two [set]s and the [send]: where it throws, the room and the
    binding are written, the [catch] of the message listener takes the
    [TypeError], and [room-created] is not sent. *)
Definition handleCreateRoom (env : Env) (ws : conn) (message : Json)
    (st : SignalingServer) : SignalingServer * list Event :=
  let roomId := key_of env (prop "roomId" message) in
  if Map_has roomId (rooms st) then
    (st, [Send ws (error_msg "Room already exists")])
  else
    (with_connections (<[ws := mkBinding host_role roomId None]> (connections st))
       (with_rooms (Map_set roomId (mkRoom ws []) (rooms st)) st),
     if key_printable roomId
     then [Send ws (room_created (prop "roomId" message))] else []).

(** [handleJoinRoom].  The log line
    [`Viewer ${viewerId} joined room: ${roomId}`] stands between the writes
    to the tables and the two [send]s: where it throws, the viewer is added
    and bound and neither [room-joined] nor [viewer-joined] is sent. *)
Definition handleJoinRoom (env : Env) (ws : conn) (message : Json)
    (st : SignalingServer) : SignalingServer * list Event :=
  let roomId := key_of env (prop "roomId" message) in
  match Map_get roomId (rooms st) with
  | None => (st, [Send ws room_not_found])
  | Some room =>
      let viewerId := generateViewerId (random env) in
      let room' := mkRoom (host room) (Set_add ws (viewers room)) in
      let st' :=
        with_connections
          (<[ws := mkBinding viewer_role roomId (Some viewerId)]> (connections st))
          (with_rooms (Map_set roomId room' (rooms st)) st) in
      (st',
       if key_printable roomId then
         Send ws (room_joined (prop "roomId" message) viewerId)
         :: (if is_open st' (host room)
             then [Send (host room) (viewer_joined viewerId)] else [])
       else [])
  end.

(** [handleLeaveRoom].  Its log line is its last statement: a [TypeError]
    there changes neither the tables nor what was sent. *)
Definition handleLeaveRoom (ws : conn) (message : Json)
    (st : SignalingServer) : SignalingServer * list Event :=
  match connections st !! ws with
  | None => (st, [])
  | Some connection =>
      match Map_get (roomId connection) (rooms st) with
      | None => (st, [])
      | Some room =>
          match type connection with
          | viewer_role =>
              let room' := mkRoom (host room) (Set_delete ws (viewers room)) in
              let st1 := with_rooms (Map_set (roomId connection) room' (rooms st)) st in
              (with_connections (delete ws (connections st1)) st1,
               if is_open st1 (host room)
               then [Send (host room) (viewer_left (viewerId connection))] else [])
          | host_role =>
              (with_connections (delete ws (connections st)) st, [])
          end
      end
  end.

(** The loop over [room.viewers] of [handleOffer] and [handleIceCandidate]:
    the first viewer whose binding carries the wanted [viewerId] is written
    to, whatever the state of its socket, and ends the loop. *)
Fixpoint forward_to_viewer (st : SignalingServer) (wanted : option Json)
    (msg : Outbound) (vs : list conn) : list Event :=
  match vs with
  | [] => []
  | viewer :: rest =>
      match connections st !! viewer with
      | Some viewerConnection =>
          if strict_eq (viewerId viewerConnection) wanted then [Send viewer msg]
          else forward_to_viewer st wanted msg rest
      | None => forward_to_viewer st wanted msg rest
      end
  end.

Definition handleOffer (ws : conn) (message : Json)
    (st : SignalingServer) : SignalingServer * list Event :=
  match connections st !! ws with
  | None => (st, [])
  | Some connection =>
      match type connection with
      | viewer_role => (st, [])
      | host_role =>
          match Map_get (roomId connection) (rooms st) with
          | None => (st, [])
          | Some room =>
              (st, forward_to_viewer st (prop "viewerId" message)
                     (offer_msg (prop "offer" message)) (viewers room))
          end
      end
  end.

Definition handleAnswer (ws : conn) (message : Json)
    (st : SignalingServer) : SignalingServer * list Event :=
  match connections st !! ws with
  | None => (st, [])
  | Some connection =>
      match type connection with
      | host_role => (st, [])
      | viewer_role =>
          match Map_get (roomId connection) (rooms st) with
          | None => (st, [])
          | Some room =>
              (st, [Send (host room)
                      (answer_msg (prop "answer" message) (viewerId connection))])
          end
      end
  end.

Definition handleIceCandidate (ws : conn) (message : Json)
    (st : SignalingServer) : SignalingServer * list Event :=
  match connections st !! ws with
  | None => (st, [])
  | Some connection =>
      match Map_get (roomId connection) (rooms st) with
      | None => (st, [])
      | Some room =>
          match type connection with
          | host_role =>
              (st, forward_to_viewer st (prop "viewerId" message)
                     (ice_candidate_msg (prop "candidate" message) None) (viewers room))
          | viewer_role =>
              (st, if is_open st (host room)
                   then [Send (host room)
                           (ice_candidate_msg (prop "candidate" message)
                              (viewerId connection))]
                   else [])
          end
      end
  end.

(** [handleMessage], on a parsed message that is not [null]. *)
Definition handleMessage (env : Env) (ws : conn) (message : Json)
    (st : SignalingServer) : SignalingServer * list Event :=
  match prop "type" message with
  | Some (JString kind) =>
      if bool_decide (kind = "create-room") then handleCreateRoom env ws message st
      else if bool_decide (kind = "join-room") then handleJoinRoom env ws message st
      else if bool_decide (kind = "leave-room") then handleLeaveRoom ws message st
      else if bool_decide (kind = "offer") then handleOffer ws message st
      else if bool_decide (kind = "answer") then handleAnswer ws message st
      else if bool_decide (kind = "ice-candidate") then handleIceCandidate ws message st
      else (st, [])
  | _ => (st, [])
  end.

(** [ws.on('message', ...)], on what [JSON.parse] makes of the frame: a
    frame that does not parse, and [null], whose [type] cannot be read,
    end in the [catch], which only writes to the console. *)
Definition on_message (env : Env) (ws : conn) (parsed : option Json)
    (st : SignalingServer) : SignalingServer * list Event :=
  match parsed with
  | None => (st, [])
  | Some JNull => (st, [])
  | Some message => handleMessage env ws message st
  end.

Fixpoint notify_viewers (st : SignalingServer) (vs : list conn) : list Event :=
  match vs with
  | [] => []
  | viewer :: rest =>
      (if is_open st viewer then [Send viewer host_disconnected] else [])
      ++ notify_viewers st rest
  end.

(** [handleDisconnection].  Both log lines write [connection.roomId] and
    stand before [this.connections.delete(ws)]: where they throw, the room
    is deleted, or the viewer taken out and the host told, and the binding
    stays. *)
Definition handleDisconnection (ws : conn)
    (st : SignalingServer) : SignalingServer * list Event :=
  match connections st !! ws with
  | None => (st, [])
  | Some connection =>
      match Map_get (roomId connection) (rooms st) with
      | None => (st, [])
      | Some room =>
          match type connection with
          | host_role =>
              let st1 := with_rooms (Map_delete (roomId connection) (rooms st)) st in
              (if key_printable (roomId connection)
               then with_connections (delete ws (connections st1)) st1 else st1,
               notify_viewers st (viewers room))
          | viewer_role =>
              let room' := mkRoom (host room) (Set_delete ws (viewers room)) in
              let st1 := with_rooms (Map_set (roomId connection) room' (rooms st)) st in
              (if key_printable (roomId connection)
               then with_connections (delete ws (connections st1)) st1 else st1,
               if is_open st1 (host room)
               then [Send (host room) (viewer_left (viewerId connection))] else [])
          end
      end
  end.

(** The [close] and [error] listeners call [handleDisconnection] outside any
    [try]: the [TypeError] of its log line leaves the listener. *)
Definition handleDisconnection_throws (ws : conn) (st : SignalingServer) : bool :=
  match connections st !! ws with
  | None => false
  | Some connection =>
      match Map_get (roomId connection) (rooms st) with
      | None => false
      | Some _ => negb (key_printable (roomId connection))
      end
  end.

End Plain.

(** ** The HTTPS server seen as a plain server *)

(** A room, a binding, a message and a server of the HTTPS server, with
    what the plain server does not keep left out. *)
Definition plain_room (room : Room) : Plain.Room :=
  Plain.mkRoom (host room) (viewers room).

Definition plain_binding (b : Binding) : Plain.Binding :=
  Plain.mkBinding (type b) (Plain.KString (roomId b)) (viewerId b).

Definition plain_entry (entry : string * Room) : Plain.Key * Plain.Room :=
  (Plain.KString entry.1, plain_room entry.2).

Definition plain_server (st : SignalingServer) : Plain.SignalingServer :=
  Plain.mkServer (plain_entry <$> rooms st) (plain_binding <$> connections st)
    (sockets st).

Definition plain_outbound (msg : Outbound) : Plain.Outbound :=
  match msg with
  | error_msg m => Plain.error_msg m
  | room_created r => Plain.room_created (Some (JString r))
  | room_not_found => Plain.room_not_found
  | room_joined r v => Plain.room_joined (Some (JString r)) v
  | viewer_joined v => Plain.viewer_joined v
  | viewer_left v => Plain.viewer_left v
  | offer_msg o => Plain.offer_msg o
  | answer_msg a v => Plain.answer_msg a v
  | ice_candidate_msg c v => Plain.ice_candidate_msg c v
  | host_disconnected => Plain.host_disconnected
  end.

(** The sends of a trace; the plain server has no close. *)
Definition plain_event (e : Event) : option Plain.Event :=
  match e with
  | Send to msg => Some (Plain.Send to (plain_outbound msg))
  | Close _ _ _ => None
  end.

Definition plain_trace (evs : list Event) : list Plain.Event :=
  omap plain_event evs.

(** Every socket of the room is open. *)
Definition room_open (st : SignalingServer) (room : Room) : Prop :=
  is_open st (host room) = true ∧ ∀ v, v ∈ viewers room → is_open st v = true.

(** A message within what the HTTPS server accepts, on a server with room
    for it: no room is kept under the empty string (none is, on a run), a
    create-room names a string of 1 to 20 while the table is below
    [maxRooms], a join-room does not go to a room of 50 viewers, and the
    sockets of the sender's room are open. *)
Definition within_checks (st : SignalingServer) (ws : conn) (message : Json) : Prop :=
  Map_get "" (rooms st) = None
  ∧ (prop "type" message = Some (JString "create-room") →
     Z.of_nat (Map_size (rooms st)) < maxRooms st
     ∧ ∃ rid, prop "roomId" message = Some (JString rid)
              ∧ rid ≠ "" ∧ (String.length rid ≤ 20)%nat)
  ∧ (prop "type" message = Some (JString "join-room") →
     ∀ rid room, prop "roomId" message = Some (JString rid) →
                 Map_get rid (rooms st) = Some room →
                 (Set_size (viewers room) < 50)%nat)
  ∧ (∀ b room, connections st !! ws = Some b →
               Map_get (roomId b) (rooms st) = Some room → room_open st room).

(** A create-room and a join-room that carry no [roomId], and a
    create-room whose [roomId] is an object with a [toString] field. *)
Definition create_nameless : Json := JObject [("type", JString "create-room")].

Definition join_nameless : Json := JObject [("type", JString "join-room")].

Definition create_unprintable : Json :=
  JObject [("type", JString "create-room");
           ("roomId", JObject [("toString", JNull)])].

(** A plain server with nothing in it. *)
Definition plain_new : Plain.SignalingServer := Plain.mkServer [] ∅ ∅.

(** ** A host that stops answering *)

(** When the [close] of a socket comes in a run of two heartbeats and a
    sweep: between the heartbeats, between the second heartbeat and the
    sweep, or not before the sweep. *)
Inductive Closing := between_heartbeats | before_sweep | not_yet.

(** Two heartbeats with no pong in between or before, with the [close] of
    [ws] at [closing]. *)
Definition unanswered (closing : Closing) (ws : conn) (reg : Registry) : Registry :=
  let reg1 := (heartbeat reg).1 in
  let reg2 :=
    (heartbeat match closing with
               | between_heartbeats => (ws_closed ws reg1).1
               | _ => reg1
               end).1 in
  match closing with
  | before_sweep => (ws_closed ws reg2).1
  | _ => reg2
  end.

(** No room is kept under [rid] but one whose host is [h]. *)
Definition hosted_by_or_gone (st : SignalingServer) (rid : string) (h : conn) : Prop :=
  ∀ room, Map_get rid (rooms st) = Some room → host room = h.

(** * Properties *)

(** ** The ordered [Map] and [Set] *)

Section ordered_map_facts.
Context {K V : Type} `{EqDecision K}.
Implicit Types (k : K) (v : V) (m : list (K * V)).

Lemma Map_get_set_eq k v m : Map_get k (Map_set k v m) = Some v.
Proof.
  induction m as [|[k' v'] m IH]; simpl.
  - by rewrite decide_True.
  - destruct (decide (k' = k)) as [->|Hne]; simpl.
    + by rewrite decide_True.
    + by rewrite decide_False.
Qed.

Lemma Map_get_set_ne k k' v m : k ≠ k' → Map_get k' (Map_set k v m) = Map_get k' m.
Proof.
  intros Hne. induction m as [|[k1 v1] m IH]; simpl.
  - by rewrite decide_False.
  - destruct (decide (k1 = k)) as [->|Hk1]; simpl.
    + by rewrite !decide_False.
    + destruct (decide (k1 = k')); [done | apply IH].
Qed.

Lemma Map_get_delete_eq k m : Map_get k (Map_delete k m) = None.
Proof.
  induction m as [|[k1 v1] m IH]; simpl; [done|].
  destruct (decide (k1 = k)); simpl; [done|]. by rewrite decide_False.
Qed.

Lemma Map_get_delete_ne k k' m : k ≠ k' → Map_get k' (Map_delete k m) = Map_get k' m.
Proof.
  intros Hne. induction m as [|[k1 v1] m IH]; simpl; [done|].
  destruct (decide (k1 = k)) as [->|Hk1]; simpl.
  - by rewrite decide_False.
  - by rewrite IH.
Qed.

Lemma Map_get_delete k k' m :
  Map_get k' (Map_delete k m) = None ∨ Map_get k' (Map_delete k m) = Map_get k' m.
Proof.
  destruct (decide (k = k')) as [->|Hne].
  - left. apply Map_get_delete_eq.
  - right. by apply Map_get_delete_ne.
Qed.

Lemma Map_get_elem k v m : Map_get k m = Some v → (k, v) ∈ m.
Proof.
  induction m as [|[k1 v1] m IH]; simpl; [done|].
  destruct (decide (k1 = k)) as [->|Hk1].
  - intros [= ->]. apply list_elem_of_here.
  - intros Hget. apply list_elem_of_further. by apply IH.
Qed.

Lemma elem_of_Map_set_keys k k' v m : k' ∈ (Map_set k v m).*1 ↔ k' = k ∨ k' ∈ m.*1.
Proof.
  induction m as [|[k1 v1] m IH]; simpl.
  - rewrite list_elem_of_singleton, elem_of_nil. tauto.
  - destruct (decide (k1 = k)) as [->|Hk1]; simpl.
    + rewrite !elem_of_cons. tauto.
    + rewrite !elem_of_cons, IH. tauto.
Qed.

Lemma NoDup_Map_set k v m : NoDup m.*1 → NoDup (Map_set k v m).*1.
Proof.
  induction m as [|[k1 v1] m IH]; simpl.
  - intros _. apply NoDup_singleton.
  - intros [Hk1 Hm]%NoDup_cons.
    destruct (decide (k1 = k)) as [->|Hne]; simpl.
    + by apply NoDup_cons.
    + apply NoDup_cons. split; [|by apply IH].
      rewrite elem_of_Map_set_keys. intros [?|?]; done.
Qed.

Lemma elem_of_Map_delete_keys k k' m : k' ∈ (Map_delete k m).*1 → k' ∈ m.*1.
Proof.
  induction m as [|[k1 v1] m IH]; simpl; [done|].
  destruct (decide (k1 = k)) as [->|Hne]; simpl; rewrite !elem_of_cons; auto.
  intros [?|?]; auto.
Qed.

Lemma NoDup_Map_delete k m : NoDup m.*1 → NoDup (Map_delete k m).*1.
Proof.
  induction m as [|[k1 v1] m IH]; simpl; [done|].
  intros [Hk1 Hm]%NoDup_cons.
  destruct (decide (k1 = k)) as [->|Hne]; simpl; [by apply IH|].
  apply NoDup_cons. split; [|by apply IH].
  intros Hin%elem_of_Map_delete_keys. done.
Qed.

Lemma Map_has_true k m : Map_has k m = true ↔ is_Some (Map_get k m).
Proof.
  unfold Map_has. destruct (Map_get k m); split; done.
Qed.

Lemma Map_has_false k m : Map_has k m = false ↔ Map_get k m = None.
Proof. unfold Map_has. by destruct (Map_get k m). Qed.
End ordered_map_facts.

Section ordered_set_facts.
Context {A : Type} `{EqDecision A}.
Implicit Types (x y : A) (s : list A).

Lemma elem_of_Set_add x y s : y ∈ Set_add x s ↔ y = x ∨ y ∈ s.
Proof.
  unfold Set_add, Set_has. case_bool_decide as Hin.
  - split; [by right | by intros [->|?]].
  - rewrite elem_of_app, list_elem_of_singleton. tauto.
Qed.

Lemma elem_of_Set_delete x y s : y ∈ Set_delete x s ↔ y ≠ x ∧ y ∈ s.
Proof.
  induction s as [|z s IH]; simpl.
  - split; [by intros ?%elem_of_nil | by intros [_ ?%elem_of_nil]].
  - destruct (decide (z = x)) as [->|Hz].
    + rewrite IH, elem_of_cons. tauto.
    + rewrite !elem_of_cons, IH. intuition congruence.
Qed.

Lemma NoDup_Set_add x s : NoDup s → NoDup (Set_add x s).
Proof.
  intros Hs. unfold Set_add, Set_has. case_bool_decide as Hin; [done|].
  apply NoDup_app. split_and!; [done | | apply NoDup_singleton].
  intros y Hy ->%list_elem_of_singleton. done.
Qed.

Lemma NoDup_Set_delete x s : NoDup s → NoDup (Set_delete x s).
Proof.
  induction 1 as [|z s Hz Hs IH]; simpl; [constructor|].
  destruct (decide (z = x)); [done|].
  constructor; [|done]. rewrite elem_of_Set_delete. tauto.
Qed.
End ordered_set_facts.

(** ** The tables under each handler *)

Lemma only_touches_refl ws r0 st : only_touches ws r0 st st.
Proof. by split. Qed.

Lemma same_tables_only_touches ws r0 st st' :
  same_tables st st' → only_touches ws r0 st st'.
Proof. intros [Hr Hc]. split; intros; by rewrite ?Hr, ?Hc. Qed.

Lemma same_tables_consistent st st' :
  same_tables st st' → consistent st → consistent st'.
Proof. intros [Hr Hc] Hst c b. rewrite Hr, Hc. apply Hst. Qed.

Lemma ws_close_same_tables ws code reason st :
  same_tables st (ws_close ws code reason st).1.
Proof. unfold ws_close, same_tables. simpl. by destruct (is_open st ws). Qed.

Lemma handleCreateRoom_touches env ws message st :
  only_touches ws (named_room message) st (handleCreateRoom env ws message st).1.
Proof.
  unfold handleCreateRoom, named_room.
  repeat case_match; simpl; try apply only_touches_refl.
  split; simpl.
  - intros c' Hc'. by rewrite lookup_insert_ne.
  - intros r' Hr'. apply Map_get_set_ne. congruence.
Qed.

Lemma handleJoinRoom_touches env ws message st :
  only_touches ws (named_room message) st (handleJoinRoom env ws message st).1.
Proof.
  unfold handleJoinRoom, named_room.
  repeat case_match; simpl; try apply only_touches_refl.
  all: split; simpl;
    [ intros c' Hc'; by rewrite lookup_insert_ne
    | intros r' Hr'; apply Map_get_set_ne; congruence ].
Qed.

Lemma handleLeaveRoom_touches ws message st :
  only_touches ws (bound_room st ws) st (handleLeaveRoom ws message st).1.
Proof.
  unfold handleLeaveRoom, bound_room.
  destruct (connections st !! ws) as [connection|] eqn:Hb; simpl;
    [|apply only_touches_refl].
  repeat case_match; simpl; try apply only_touches_refl.
  all: split; simpl; [intros c' Hc'; by rewrite lookup_delete_ne|]; try done.
  all: intros r' Hr'; apply Map_get_set_ne; congruence.
Qed.

Lemma handleOffer_state ws message st : (handleOffer ws message st).1 = st.
Proof. unfold handleOffer. by repeat case_match. Qed.

Lemma handleAnswer_state ws message st : (handleAnswer ws message st).1 = st.
Proof. unfold handleAnswer. by repeat case_match. Qed.

Lemma handleIceCandidate_state ws message st :
  (handleIceCandidate ws message st).1 = st.
Proof. unfold handleIceCandidate. by repeat case_match. Qed.

Lemma handleMessage_touches env ws message st :
  ∃ r0 : option string,
    only_touches ws r0 st (handleMessage env ws message st).1
    ∧ (r0 = None ∨ r0 = bound_room st ws ∨ r0 = named_room message).
Proof.
  unfold handleMessage.
  destruct (negb (truthy (prop "type" message)));
    [exists None; split; [apply only_touches_refl | by left]|].
  destruct (prop "type" message) as [[| | |kind| |]|];
    try (exists None; split; [apply only_touches_refl | by left]).
  repeat case_bool_decide.
  - exists (named_room message). split; [apply handleCreateRoom_touches | auto].
  - exists (named_room message). split; [apply handleJoinRoom_touches | auto].
  - exists (bound_room st ws). split; [apply handleLeaveRoom_touches | auto].
  - exists None. rewrite handleOffer_state. split; [apply only_touches_refl | auto].
  - exists None. rewrite handleAnswer_state. split; [apply only_touches_refl | auto].
  - exists None. rewrite handleIceCandidate_state.
    split; [apply only_touches_refl | auto].
  - exists None. split; [apply only_touches_refl | auto].
Qed.

(** ** Agreement of the two tables, handler by handler *)

Lemma handleCreateRoom_consistent env ws message st :
  consistent st → consistent (handleCreateRoom env ws message st).1.
Proof.
  intros Hst. unfold handleCreateRoom.
  repeat case_match; simpl; try done.
  match goal with H : Map_has _ _ = false |- _ => apply Map_has_false in H; rename H into Hfree end.
  intros c b. simpl. destruct (decide (c = ws)) as [->|Hc].
  - rewrite lookup_insert_eq. intros [= <-]. simpl.
    eexists. by rewrite Map_get_set_eq.
  - rewrite lookup_insert_ne by done. intros Hb.
    destruct (Hst c b Hb) as (room & Hroom & Hin).
    exists room. split; [|done].
    rewrite Map_get_set_ne; [done|]. intros Heq. rewrite Heq in Hfree. congruence.
Qed.

Lemma handleJoinRoom_consistent env ws message st :
  consistent st → consistent (handleJoinRoom env ws message st).1.
Proof.
  intros Hst. unfold handleJoinRoom.
  destruct (prop "roomId" message) as [[| | |rid| |]|]; simpl; try done.
  case_bool_decide; simpl; [done|].
  destruct (Map_get rid (rooms st)) as [room|] eqn:Hroom; simpl; [|done].
  case_match; simpl; [done|].
  intros c b. simpl. destruct (decide (c = ws)) as [->|Hc].
  - rewrite lookup_insert_eq. intros [= <-]. simpl.
    eexists. rewrite Map_get_set_eq. split; [done|].
    intros _. simpl. apply elem_of_Set_add. by left.
  - rewrite lookup_insert_ne by done. intros Hb.
    destruct (Hst c b Hb) as (room0 & Hroom0 & Hin).
    destruct (decide (rid = roomId b)) as [->|Hne].
    + eexists. rewrite Map_get_set_eq. split; [done|].
      intros Hv. simpl. apply elem_of_Set_add. right.
      rewrite Hroom in Hroom0. injection Hroom0 as <-. by apply Hin.
    + exists room0. by rewrite Map_get_set_ne.
Qed.

(** Removing a viewer from its room together with its binding: the step
    shared by a viewer's [leave-room] and a viewer's disconnection. *)
Lemma remove_viewer_consistent ws connection room st :
  consistent st →
  Map_get (roomId connection) (rooms st) = Some room →
  consistent
    (with_connections (delete ws (connections st))
       (with_rooms
          (Map_set (roomId connection)
             (mkRoom (host room) (Set_delete ws (viewers room)) (createdAt room))
             (rooms st)) st)).
Proof.
  intros Hst Hroom c b. simpl.
  destruct (decide (c = ws)) as [->|Hc]; [by rewrite lookup_delete_eq|].
  rewrite lookup_delete_ne by done. intros Hb.
  destruct (Hst c b Hb) as (room0 & Hroom0 & Hin).
  destruct (decide (roomId connection = roomId b)) as [Heq|Hne].
  - eexists. rewrite Heq, Map_get_set_eq. split; [done|].
    intros Hv. simpl. apply elem_of_Set_delete. split; [done|].
    rewrite Heq, Hroom0 in Hroom. injection Hroom as <-. by apply Hin.
  - exists room0. by rewrite Map_get_set_ne.
Qed.

Lemma delete_binding_consistent ws st :
  consistent st → consistent (with_connections (delete ws (connections st)) st).
Proof.
  intros Hst c b. simpl.
  destruct (decide (c = ws)) as [->|Hc]; [by rewrite lookup_delete_eq|].
  rewrite lookup_delete_ne by done. apply Hst.
Qed.

Lemma handleLeaveRoom_consistent ws message st :
  consistent st → consistent (handleLeaveRoom ws message st).1.
Proof.
  intros Hst. unfold handleLeaveRoom.
  destruct (connections st !! ws) as [connection|] eqn:Hb; simpl; [|done].
  destruct (Map_get (roomId connection) (rooms st)) as [room|] eqn:Hroom;
    simpl; [|done].
  destruct (type connection); simpl.
  - by apply delete_binding_consistent.
  - by apply remove_viewer_consistent.
Qed.

Lemma handleMessage_consistent env ws message st :
  consistent st → consistent (handleMessage env ws message st).1.
Proof.
  intros Hst. unfold handleMessage.
  destruct (negb (truthy (prop "type" message))); [done|].
  destruct (prop "type" message) as [[| | |kind| |]|]; try done.
  repeat case_bool_decide.
  - by apply handleCreateRoom_consistent.
  - by apply handleJoinRoom_consistent.
  - by apply handleLeaveRoom_consistent.
  - by rewrite handleOffer_state.
  - by rewrite handleAnswer_state.
  - by rewrite handleIceCandidate_state.
  - done.
Qed.

Lemma on_message_consistent env ws data st :
  consistent st → consistent (on_message env ws data st).1.
Proof.
  intros Hst. unfold on_message.
  destruct (16384 <? data_length data)%N;
    [by eapply same_tables_consistent; [apply ws_close_same_tables|]|].
  destruct (JSON_parse data) as [message|];
    [|by eapply same_tables_consistent; [apply ws_close_same_tables|]].
  destruct message;
    first [ by apply handleMessage_consistent
          | by eapply same_tables_consistent; [apply ws_close_same_tables|] ].
Qed.

Lemma handleDisconnection_not_host ws st :
  consistent st →
  (∀ b, connections st !! ws = Some b → type b = viewer_role) →
  consistent (handleDisconnection ws st).1.
Proof.
  intros Hst Hrole. unfold handleDisconnection.
  destruct (connections st !! ws) as [connection|] eqn:Hb; simpl; [|done].
  destruct (Map_get (roomId connection) (rooms st)) as [room|] eqn:Hroom;
    simpl; [|done].
  rewrite (Hrole connection eq_refl). simpl.
  by apply remove_viewer_consistent.
Qed.

(** A host's disconnection takes its room and its own binding away, and
    nothing else. *)
Lemma handleDisconnection_host ws b room st :
  connections st !! ws = Some b → type b = host_role →
  Map_get (roomId b) (rooms st) = Some room →
  handleDisconnection ws st =
    (with_connections (delete ws (connections st))
       (with_rooms (Map_delete (roomId b) (rooms st)) st),
     notify_viewers st (viewers room)).
Proof.
  intros Hb Hrole Hroom. unfold handleDisconnection.
  by rewrite Hb, Hroom, Hrole.
Qed.

Lemma consistent_new_server : consistent new_server.
Proof. intros c b. simpl. by rewrite lookup_empty. Qed.

Lemma consistent_on_connection ws st : consistent st → consistent (on_connection ws st).
Proof. intros Hst c b. simpl. apply Hst. Qed.

(** ** The room sweep *)

Lemma stale_is_stale now room : stale now room ↔ is_stale now room = true.
Proof.
  unfold stale, is_stale.
  rewrite andb_true_iff, negb_true_iff, Z.eqb_neq, Z.ltb_lt. done.
Qed.

Lemma is_open_after_expiry_mono rid ws st c :
  is_open (after_expiry rid ws st) c = true → is_open st c = true.
Proof.
  unfold after_expiry, is_open, readyState. simpl.
  destruct (decide (c = ws)) as [->|Hne].
  - rewrite lookup_insert_eq. simpl. by rewrite bool_decide_eq_true.
  - by rewrite lookup_insert_ne.
Qed.

Lemma is_open_after_expiry_other rid ws st c :
  c ≠ ws → is_open (after_expiry rid ws st) c = is_open st c.
Proof.
  intros Hne. unfold after_expiry, is_open, readyState. simpl.
  by rewrite lookup_insert_ne.
Qed.

(** One step of the sweep, by cases. *)
Lemma sweep_dead_host now rid room rest st :
  is_open st (host room) = false →
  sweep now ((rid, room) :: rest) st =
    sweep now rest (with_rooms (Map_delete rid (rooms st)) st).
Proof. intros Hopen. simpl. by rewrite Hopen. Qed.

Lemma sweep_expired now rid room rest st :
  is_open st (host room) = true → is_stale now room = true →
  sweep now ((rid, room) :: rest) st =
    ((sweep now rest (after_expiry rid (host room) st)).1,
     Close (host room) 1000 "Room expired"
     :: (sweep now rest (after_expiry rid (host room) st)).2).
Proof.
  intros Hopen Hstale. simpl. rewrite Hopen, Hstale. unfold ws_close.
  rewrite Hopen. simpl. fold (after_expiry rid (host room) st).
  by destruct (sweep now rest _).
Qed.

Lemma sweep_kept now rid room rest st :
  is_open st (host room) = true → is_stale now room = false →
  sweep now ((rid, room) :: rest) st = sweep now rest st.
Proof. intros Hopen Hstale. simpl. by rewrite Hopen, Hstale. Qed.

(** Case analysis on the head of the sweep, with the matching equation
    rewritten in the goal. *)
Ltac sweep_step now rid room rest st :=
  let Hopen := fresh "Hopen" in
  let Hstale := fresh "Hstale" in
  destruct (is_open st (host room)) eqn:Hopen;
    [ destruct (is_stale now room) eqn:Hstale;
      [ rewrite (sweep_expired now rid room rest st Hopen Hstale)
      | rewrite (sweep_kept now rid room rest st Hopen Hstale) ]
    | rewrite (sweep_dead_host now rid room rest st Hopen) ];
    cbn [fst snd].

Lemma sweep_connections now entries st :
  connections (sweep now entries st).1 = connections st.
Proof.
  revert st. induction entries as [|[rid room] rest IH]; intros st; [done|].
  sweep_step now rid room rest st; by rewrite IH.
Qed.

Lemma sweep_rooms_shrink now entries st r :
  Map_get r (rooms (sweep now entries st).1) = None
  ∨ Map_get r (rooms (sweep now entries st).1) = Map_get r (rooms st).
Proof.
  revert st. induction entries as [|[rid room] rest IH]; intros st; [by right|].
  sweep_step now rid room rest st.
  - destruct (IH (after_expiry rid (host room) st)) as [Hnone|Heq]; [by left|].
    rewrite Heq. apply (Map_get_delete rid r (rooms st)).
  - apply IH.
  - destruct (IH (with_rooms (Map_delete rid (rooms st)) st)) as [Hnone|Heq];
      [by left|].
    rewrite Heq. apply (Map_get_delete rid r (rooms st)).
Qed.

Lemma sweep_open_mono now entries st c :
  is_open (sweep now entries st).1 c = true → is_open st c = true.
Proof.
  revert st. induction entries as [|[rid room] rest IH]; intros st; [done|].
  sweep_step now rid room rest st; intros H%IH; try done.
  by eapply is_open_after_expiry_mono.
Qed.

Lemma sweep_gone now entries st r :
  Map_get r (rooms st) = None → Map_get r (rooms (sweep now entries st).1) = None.
Proof.
  intros Hnone. destruct (sweep_rooms_shrink now entries st r) as [H|H]; [done|].
  by rewrite H.
Qed.

(** A room whose host is not open when the sweep starts is gone after it. *)
Lemma sweep_dead now entries st rid room :
  (rid, room) ∈ entries → is_open st (host room) = false →
  Map_get rid (rooms (sweep now entries st).1) = None.
Proof.
  revert st. induction entries as [|[rid0 room0] rest IH]; intros st Hin Hdead;
    [by apply elem_of_nil in Hin|].
  apply elem_of_cons in Hin as [[= <- <-]|Hin].
  - rewrite (sweep_dead_host now rid room rest st Hdead).
    apply sweep_gone. apply (Map_get_delete_eq rid (rooms st)).
  - sweep_step now rid0 room0 rest st; apply IH; try done.
    destruct (is_open (after_expiry rid0 (host room0) st) (host room)) eqn:Ho;
      [|done].
    apply is_open_after_expiry_mono in Ho. congruence.
Qed.

(** A stale room is gone after the sweep, and its host, if open when the
    sweep starts, has been closed with 1000 [Room expired]. *)
Lemma sweep_stale now entries st rid room :
  (rid, room) ∈ entries → is_stale now room = true →
  Map_get rid (rooms (sweep now entries st).1) = None
  ∧ (is_open st (host room) = true →
     Close (host room) 1000 "Room expired" ∈ (sweep now entries st).2).
Proof.
  revert st. induction entries as [|[rid0 room0] rest IH]; intros st Hin Hst;
    [by apply elem_of_nil in Hin|].
  apply elem_of_cons in Hin as [[= <- <-]|Hin].
  - sweep_step now rid room rest st; try congruence.
    + split; [|intros _; apply list_elem_of_here].
      apply sweep_gone. apply (Map_get_delete_eq rid (rooms st)).
    + split; [|done].
      apply sweep_gone. apply (Map_get_delete_eq rid (rooms st)).
  - sweep_step now rid0 room0 rest st.
    + destruct (IH (after_expiry rid0 (host room0) st) Hin Hst) as [Hgone Hclose].
      split; [done|]. intros Ho.
      destruct (decide (host room = host room0)) as [->|Hne];
        [apply list_elem_of_here|].
      apply list_elem_of_further, Hclose.
      by rewrite is_open_after_expiry_other.
    + by apply IH.
    + destruct (IH (with_rooms (Map_delete rid0 (rooms st)) st) Hin Hst)
        as [Hgone Hclose].
      split; done.
Qed.

(** ** The lists stay a [Map] and [Set]s *)

Lemma well_formed_set st r room :
  well_formed st → NoDup (viewers room) →
  well_formed (with_rooms (Map_set r room (rooms st)) st).
Proof.
  intros [Hkeys Hsets] Hroom. split; simpl; [by apply NoDup_Map_set|].
  intros r' room'. destruct (decide (r = r')) as [->|Hne].
  - rewrite Map_get_set_eq. by intros [= <-].
  - rewrite Map_get_set_ne by done. apply Hsets.
Qed.

Lemma well_formed_delete st r :
  well_formed st → well_formed (with_rooms (Map_delete r (rooms st)) st).
Proof.
  intros [Hkeys Hsets]. split; simpl; [by apply NoDup_Map_delete|].
  intros r' room'. destruct (Map_get_delete r r' (rooms st)) as [H|H];
    rewrite H; [done | apply Hsets].
Qed.

Lemma well_formed_with_connections c st :
  well_formed st → well_formed (with_connections c st).
Proof. done. Qed.

Lemma well_formed_new_server : well_formed new_server.
Proof. split; [constructor | done]. Qed.

Lemma handleMessage_well_formed env ws message st :
  well_formed st → well_formed (handleMessage env ws message st).1.
Proof.
  intros Hwf. unfold handleMessage.
  destruct (negb (truthy (prop "type" message))); [done|].
  destruct (prop "type" message) as [[| | |kind| |]|]; try done.
  repeat case_bool_decide;
    rewrite ?handleOffer_state, ?handleAnswer_state, ?handleIceCandidate_state;
    try done.
  - unfold handleCreateRoom. repeat case_match; simpl; try done.
    apply well_formed_with_connections.
    apply well_formed_set; [done | constructor].
  - unfold handleJoinRoom.
    destruct (prop "roomId" message) as [[| | |rid| |]|]; simpl; try done.
    case_bool_decide; simpl; [done|].
    destruct (Map_get rid (rooms st)) as [room|] eqn:Hroom; simpl; [|done].
    case_match; simpl; [done|].
    apply well_formed_with_connections.
    apply well_formed_set; [done|]. simpl.
    apply NoDup_Set_add. by apply (proj2 Hwf rid).
  - unfold handleLeaveRoom.
    destruct (connections st !! ws) as [b|]; simpl; [|done].
    destruct (Map_get (roomId b) (rooms st)) as [room|] eqn:Hroom; simpl; [|done].
    destruct (type b); simpl; [by apply well_formed_with_connections|].
    apply well_formed_with_connections.
    apply well_formed_set; [done|]. simpl.
    apply NoDup_Set_delete. by apply (proj2 Hwf (roomId b)).
Qed.

Lemma handleDisconnection_well_formed ws st :
  well_formed st → well_formed (handleDisconnection ws st).1.
Proof.
  intros Hwf. unfold handleDisconnection.
  destruct (connections st !! ws) as [b|]; simpl; [|done].
  destruct (Map_get (roomId b) (rooms st)) as [room|] eqn:Hroom; simpl; [|done].
  destruct (type b); simpl.
  - apply well_formed_with_connections.
    by apply well_formed_delete.
  - apply well_formed_with_connections.
    apply well_formed_set; [done|]. simpl.
    apply NoDup_Set_delete. by apply (proj2 Hwf (roomId b)).
Qed.

Lemma well_formed_with_sockets sk st :
  well_formed st → well_formed (with_sockets sk st).
Proof. done. Qed.

Lemma ws_close_well_formed ws code reason st :
  well_formed st → well_formed (ws_close ws code reason st).1.
Proof. intros Hwf. unfold ws_close. simpl. by destruct (is_open st ws). Qed.

Lemma on_message_well_formed env ws data st :
  well_formed st → well_formed (on_message env ws data st).1.
Proof.
  intros Hwf. unfold on_message.
  destruct (16384 <? data_length data)%N; [by apply ws_close_well_formed|].
  destruct (JSON_parse data) as [[| | | | |]|];
    first [by apply handleMessage_well_formed | by apply ws_close_well_formed].
Qed.

(** ** Dispatch and the outcome of create-room and join-room *)

Lemma handleMessage_create env ws message st :
  prop "type" message = Some (JString "create-room") →
  handleMessage env ws message st = handleCreateRoom env ws message st.
Proof. intros Hk. unfold handleMessage. by rewrite Hk. Qed.

Lemma handleMessage_join env ws message st :
  prop "type" message = Some (JString "join-room") →
  handleMessage env ws message st = handleJoinRoom env ws message st.
Proof. intros Hk. unfold handleMessage. by rewrite Hk. Qed.

Lemma handleMessage_leave env ws message st :
  prop "type" message = Some (JString "leave-room") →
  handleMessage env ws message st = handleLeaveRoom ws message st.
Proof. intros Hk. unfold handleMessage. by rewrite Hk. Qed.

Lemma handleCreateRoom_invalid env ws message st :
  (∀ rid, prop "roomId" message = Some (JString rid) →
          rid = "" ∨ (20 < String.length rid)%nat) →
  handleCreateRoom env ws message st = (st, [Send ws (error_msg "Invalid room ID")]).
Proof.
  intros Hbad. unfold handleCreateRoom.
  destruct (prop "roomId" message) as [[| | |rid| |]|]; try done.
  destruct (Hbad rid eq_refl) as [->|Hlong]; [done|].
  apply Nat.ltb_lt in Hlong. rewrite Hlong. by rewrite orb_true_r.
Qed.

Lemma valid_roomId (rid : string) :
  rid ≠ "" → (String.length rid ≤ 20)%nat →
  bool_decide (rid = "") || (20 <? String.length rid)%nat = false.
Proof.
  intros Hne Hlen. rewrite bool_decide_eq_false_2 by done. simpl.
  apply Nat.ltb_ge. lia.
Qed.

Lemma handleCreateRoom_success env ws message st rid :
  prop "roomId" message = Some (JString rid) →
  rid ≠ "" → (String.length rid ≤ 20)%nat →
  Z.of_nat (Map_size (rooms st)) < maxRooms st →
  Map_get rid (rooms st) = None →
  handleCreateRoom env ws message st =
    (with_connections (<[ws := mkBinding host_role rid None]> (connections st))
       (with_rooms (Map_set rid (mkRoom ws [] (now env)) (rooms st)) st),
     [Send ws (room_created rid)]).
Proof.
  intros Hrid Hne Hlen Hcap Hfree. unfold handleCreateRoom.
  rewrite Hrid, valid_roomId by done.
  apply Map_has_false in Hfree. rewrite Hfree.
  by rewrite (proj2 (Z.leb_gt _ _)) by lia.
Qed.

Lemma handleCreateRoom_taken env ws message st rid room :
  prop "roomId" message = Some (JString rid) →
  rid ≠ "" → (String.length rid ≤ 20)%nat →
  Map_get rid (rooms st) = Some room →
  handleCreateRoom env ws message st =
    (st, [Send ws (error_msg
            (if maxRooms st <=? Z.of_nat (Map_size (rooms st))
             then "Maximum rooms reached" else "Room already exists"))]).
Proof.
  intros Hrid Hne Hlen Hroom. unfold handleCreateRoom.
  rewrite Hrid, valid_roomId by done.
  destruct (maxRooms st <=? Z.of_nat (Map_size (rooms st))); [done|].
  unfold Map_has. by rewrite Hroom.
Qed.

Lemma handleJoinRoom_success env ws message st rid room :
  prop "roomId" message = Some (JString rid) →
  rid ≠ "" → Map_get rid (rooms st) = Some room →
  (Set_size (viewers room) < 50)%nat →
  (handleJoinRoom env ws message st).1 =
    with_connections
      (<[ws := mkBinding viewer_role rid (Some (generateViewerId (random env)))]>
         (connections st))
      (with_rooms
         (Map_set rid (mkRoom (host room) (Set_add ws (viewers room)) (createdAt room))
            (rooms st)) st).
Proof.
  intros Hrid Hne Hroom Hcap. unfold handleJoinRoom.
  rewrite Hrid, bool_decide_eq_false_2, Hroom by done.
  by rewrite (proj2 (Nat.leb_gt _ _)) by lia.
Qed.

Lemma handleLeaveRoom_host ws message st b room :
  connections st !! ws = Some b → type b = host_role →
  Map_get (roomId b) (rooms st) = Some room →
  handleLeaveRoom ws message st = (with_connections (delete ws (connections st)) st, []).
Proof.
  intros Hb Hrole Hroom. unfold handleLeaveRoom. by rewrite Hb, Hroom, Hrole.
Qed.

(** ** The scenarios are servers of a run *)

Lemma reachable_lobby : reachable 100 lobby.
Proof.
  unfold lobby.
  do 3 (eapply reachable_step; [|apply step_connection]).
  apply reachable_new.
Qed.

Lemma reachable_hosted : reachable 100 hosted.
Proof.
  change hosted
    with (on_message env0 1%nat (mkFrame 45 (Some (create_room "ABCD1234"))) lobby).1.
  eapply reachable_step; [apply reachable_lobby | apply step_message].
Qed.

Lemma reachable_joined : reachable 100 joined.
Proof.
  change joined
    with (on_message env0 2%nat (mkFrame 43 (Some (join_room "ABCD1234"))) hosted).1.
  eapply reachable_step; [apply reachable_hosted | apply step_message].
Qed.

Lemma reachable_viewer_closing : reachable 100 viewer_closing.
Proof. eapply reachable_step; [apply reachable_joined | apply step_terminate]. Qed.

Lemma reachable_rehosted : reachable 100 rehosted.
Proof.
  change rehosted
    with (on_message env0 3%nat (mkFrame 45 (Some (create_room "ABCD1234")))
            (on_close 1%nat joined).1).1.
  eapply reachable_step; [|apply step_message].
  eapply reachable_step; [apply reachable_joined | apply step_close].
Qed.

Lemma reachable_single_room_taken : reachable 1 single_room_taken.
Proof.
  change single_room_taken
    with (on_message env0 1%nat (mkFrame 46 (Some (create_room "DUPLICATE")))
            single_room_server).1.
  eapply reachable_step; [|apply step_message].
  unfold single_room_server.
  do 2 (eapply reachable_step; [|apply step_connection]).
  apply reachable_new.
Qed.

(** ** Claims *)

Lemma consistentb_sound st : consistentb st = true → consistent st.
Proof.
  unfold consistentb, consistent. rewrite forallb_forall.
  intros Hall c b Hb.
  assert (Hin : In (c, b) (map_to_list (connections st))).
  { apply list_elem_of_In. by apply elem_of_map_to_list. }
  specialize (Hall _ Hin). unfold binding_ok in Hall. simpl in Hall.
  destruct (Map_get (roomId b) (rooms st)) as [room|]; [|done].
  exists room. split; [done|]. intros Hv. rewrite Hv in Hall.
  by apply bool_decide_eq_true in Hall.
Qed.

(** C1, as the code has it.  Starting from tables that agree, every inbound
    frame (create-room, join-room, leave-room and the relayed kinds) and the
    disconnection of a connection that is not bound as a host leave them in
    agreement.  The disconnection of a host deletes its room and its own
    binding and nothing else, and the room sweep deletes rooms and no
    binding: the bindings of the viewers of a deleted room stay behind. *)
Theorem C1_tables_agreement (st : SignalingServer) (Hst : consistent st) :
  (∀ env ws data, consistent (on_message env ws data st).1)
  ∧ (∀ ws, (∀ b, connections st !! ws = Some b → type b = viewer_role) →
       consistent (handleDisconnection ws st).1)
  ∧ (∀ ws b room,
       connections st !! ws = Some b → type b = host_role →
       Map_get (roomId b) (rooms st) = Some room →
       Map_get (roomId b) (rooms (handleDisconnection ws st).1) = None
       ∧ connections (handleDisconnection ws st).1 = delete ws (connections st)
       ∧ (∀ r, r ≠ roomId b →
            Map_get r (rooms (handleDisconnection ws st).1) = Map_get r (rooms st)))
  ∧ (∀ now,
       connections (cleanupStaleRooms now st).1 = connections st
       ∧ (∀ r, Map_get r (rooms (cleanupStaleRooms now st).1) = None
               ∨ Map_get r (rooms (cleanupStaleRooms now st).1) = Map_get r (rooms st))).
Proof.
  split_and!.
  - intros env ws data. by apply on_message_consistent.
  - intros ws Hrole. by apply handleDisconnection_not_host.
  - intros ws b room Hb Hrole Hroom.
    rewrite (handleDisconnection_host ws b room st Hb Hrole Hroom). simpl.
    split_and!; [apply Map_get_delete_eq | done |].
    intros r Hr. by apply Map_get_delete_ne.
  - intros now. split; [apply sweep_connections|].
    intros r. apply sweep_rooms_shrink.
Qed.

Lemma C1_tables_agreement_witness :
  consistent joined
  ∧ consistent (on_message env0 3%nat (mkFrame 40 (Some (join_room "ABCD1234"))) joined).1.
Proof.
  assert (H : consistent joined) by (apply consistentb_sound; vm_compute; reflexivity).
  split; [exact H|].
  apply (C1_tables_agreement joined H).
Defined.

(** C1 as stated fails: once the host of ABCD1234 has disconnected the room
    is gone, and its viewer still holds a binding that names it. *)
Lemma C1_counterexample :
  reachable 100 joined
  ∧ consistent joined
  ∧ Map_get "ABCD1234" (rooms (handleDisconnection 1%nat joined).1) = None
  ∧ connections (handleDisconnection 1%nat joined).1 !! 2%nat
    = Some (mkBinding viewer_role "ABCD1234" (Some "viewer_k3x9a2bq"))
  ∧ ¬ consistent (handleDisconnection 1%nat joined).1.
Proof.
  split_and!.
  - apply reachable_joined.
  - apply consistentb_sound. vm_compute. reflexivity.
  - vm_compute. reflexivity.
  - vm_compute. reflexivity.
  - intros H.
    destruct (H 2%nat (mkBinding viewer_role "ABCD1234" (Some "viewer_k3x9a2bq")))
      as (room & Hroom & _); [vm_compute; reflexivity|].
    vm_compute in Hroom. discriminate.
Qed.

(** C2 fails on the code.  Socket 1 hosts ABCD1234 with viewer 2 in it.  On
    its [leave-room] the server only forgets the host's binding: the room
    stays in the Room Table with socket 1 as host and nobody is told, where
    the disconnection of the same host deletes the room and tells the
    viewer. *)
Theorem C2_host_leave_keeps_room :
  connections joined !! 1%nat = Some (mkBinding host_role "ABCD1234" None)
  ∧ Map_get "ABCD1234" (rooms (handleMessage env0 1%nat leave_room joined).1)
    = Some (mkRoom 1%nat [2%nat] 1700000000000)
  ∧ connections (handleMessage env0 1%nat leave_room joined).1 !! 1%nat = None
  ∧ (handleMessage env0 1%nat leave_room joined).2 = []
  ∧ Map_get "ABCD1234" (rooms (handleDisconnection 1%nat joined).1) = None
  ∧ (handleDisconnection 1%nat joined).2 = [Send 2%nat host_disconnected].
Proof. split_and!; vm_compute; reflexivity. Qed.

(** C3, as the code has it.  The Binding Table holds one binding per
    connection, and a create-room or join-room that succeeds installs the
    sender's binding whatever the sender was bound to before: the new binding
    replaces the old one, and every room other than the one created or joined
    is left as it was, the sender's earlier room included. *)
Theorem C3_binding_replaced (env : Env) (ws : conn) (message : Json)
    (st : SignalingServer) (rid : string)
    (Hrid : prop "roomId" message = Some (JString rid)) (Hne : rid ≠ "") :
  (prop "type" message = Some (JString "create-room") →
   (String.length rid ≤ 20)%nat →
   Z.of_nat (Map_size (rooms st)) < maxRooms st →
   Map_get rid (rooms st) = None →
   connections (handleMessage env ws message st).1 !! ws
     = Some (mkBinding host_role rid None)
   ∧ Map_get rid (rooms (handleMessage env ws message st).1)
     = Some (mkRoom ws [] (now env))
   ∧ (∀ r, r ≠ rid →
        Map_get r (rooms (handleMessage env ws message st).1) = Map_get r (rooms st)))
  ∧ (∀ room,
       prop "type" message = Some (JString "join-room") →
       Map_get rid (rooms st) = Some room →
       (Set_size (viewers room) < 50)%nat →
       connections (handleMessage env ws message st).1 !! ws
         = Some (mkBinding viewer_role rid (Some (generateViewerId (random env))))
       ∧ Map_get rid (rooms (handleMessage env ws message st).1)
         = Some (mkRoom (host room) (Set_add ws (viewers room)) (createdAt room))
       ∧ (∀ r, r ≠ rid →
            Map_get r (rooms (handleMessage env ws message st).1)
            = Map_get r (rooms st))).
Proof.
  split.
  - intros Hkind Hlen Hcap Hfree.
    rewrite (handleMessage_create _ _ _ _ Hkind).
    rewrite (handleCreateRoom_success _ _ _ _ rid) by done. simpl.
    split_and!; [apply lookup_insert_eq | apply Map_get_set_eq |].
    intros r Hr. by apply Map_get_set_ne.
  - intros room Hkind Hroom Hcap.
    rewrite (handleMessage_join _ _ _ _ Hkind).
    rewrite (handleJoinRoom_success _ _ _ _ rid room) by done. simpl.
    split_and!; [apply lookup_insert_eq | apply Map_get_set_eq |].
    intros r Hr. by apply Map_get_set_ne.
Qed.

Lemma C3_binding_replaced_witness :
  connections hosted !! 1%nat = Some (mkBinding host_role "ABCD1234" None)
  ∧ connections (handleMessage env0 1%nat (join_room "ABCD1234") hosted).1 !! 1%nat
    = Some (mkBinding viewer_role "ABCD1234" (Some "viewer_k3x9a2bq")).
Proof.
  split; [vm_compute; reflexivity|].
  refine (proj1 (proj2 (C3_binding_replaced env0 1%nat (join_room "ABCD1234") hosted
                   "ABCD1234" _ _) (mkRoom 1%nat [] 1700000000000) _ _ _)).
  - reflexivity.
  - discriminate.
  - reflexivity.
  - vm_compute. reflexivity.
  - simpl. lia.
Defined.

(** C3 as stated fails: socket 1, bound as the host of ABCD1234, sends
    create-room SECOND.  It gets a new binding as the host of SECOND and is
    the host of that room, while ABCD1234 still has it as host. *)
Lemma C3_counterexample :
  connections hosted !! 1%nat = Some (mkBinding host_role "ABCD1234" None)
  ∧ connections (handleMessage env0 1%nat (create_room "SECOND") hosted).1 !! 1%nat
    = Some (mkBinding host_role "SECOND" None)
  ∧ host <$> Map_get "SECOND" (rooms (handleMessage env0 1%nat (create_room "SECOND") hosted).1)
    = Some 1%nat
  ∧ host <$> Map_get "ABCD1234" (rooms (handleMessage env0 1%nat (create_room "SECOND") hosted).1)
    = Some 1%nat.
Proof. split_and!; vm_compute; reflexivity. Qed.

(** C5, as the code has it.  While a room is in the Room Table, create-room
    with its identifier fails and changes nothing; the reply is
    [Room already exists] when the table holds fewer rooms than the
    configured maximum and [Maximum rooms reached] when it is full, the
    capacity test coming first. *)
Theorem C5_duplicate_rejected (env : Env) (ws : conn) (message : Json)
    (st : SignalingServer) (rid : string) (room : Room)
    (Hkind : prop "type" message = Some (JString "create-room"))
    (Hrid : prop "roomId" message = Some (JString rid))
    (Hne : rid ≠ "") (Hlen : (String.length rid ≤ 20)%nat)
    (Hroom : Map_get rid (rooms st) = Some room) :
  handleMessage env ws message st =
    (st, [Send ws (error_msg
            (if maxRooms st <=? Z.of_nat (Map_size (rooms st))
             then "Maximum rooms reached" else "Room already exists"))]).
Proof.
  rewrite (handleMessage_create _ _ _ _ Hkind).
  by apply (handleCreateRoom_taken env ws message st rid room).
Qed.

Lemma C5_duplicate_rejected_witness :
  Map_get "ABCD1234" (rooms hosted) = Some (mkRoom 1%nat [] 1700000000000)
  ∧ handleMessage env0 2%nat (create_room "ABCD1234") hosted
    = (hosted, [Send 2%nat (error_msg "Room already exists")]).
Proof.
  split; [vm_compute; reflexivity|].
  refine (C5_duplicate_rejected env0 2%nat (create_room "ABCD1234") hosted
            "ABCD1234" (mkRoom 1%nat [] 1700000000000) _ _ _ _ _).
  - reflexivity.
  - reflexivity.
  - discriminate.
  - simpl. lia.
  - vm_compute. reflexivity.
Defined.

(** C5 as stated fails: with room DUPLICATE created and still present on a
    server whose maximum is one room, a second create-room DUPLICATE is
    answered [Maximum rooms reached], not [Room already exists]. *)
Lemma C5_counterexample :
  reachable 1 single_room_taken
  ∧ (handleMessage env0 1%nat (create_room "DUPLICATE") single_room_server).2
    = [Send 1%nat (room_created "DUPLICATE")]
  ∧ Map_has "DUPLICATE" (rooms single_room_taken) = true
  ∧ (handleMessage env0 2%nat (create_room "DUPLICATE") single_room_taken).2
    = [Send 2%nat (error_msg "Maximum rooms reached")]
  ∧ (handleMessage env0 2%nat (create_room "DUPLICATE") single_room_taken).2
    ≠ [Send 2%nat (error_msg "Room already exists")].
Proof.
  split; [apply reachable_single_room_taken|].
  split_and!; try (vm_compute; reflexivity). vm_compute. discriminate.
Qed.

(** C9, as the code has it.  create-room is answered [Invalid room ID],
    with nothing changed, when [roomId] is missing, is not a string, is
    empty or is longer than 20; every other string is taken as it is, with
    no alphabet and no change of case: below the room limit and when free,
    the room is stored under exactly that string and no other key of the
    Room Table changes. *)
Theorem C9_room_id_check (env : Env) (ws : conn) (message : Json)
    (st : SignalingServer)
    (Hkind : prop "type" message = Some (JString "create-room")) :
  ((∀ rid, prop "roomId" message = Some (JString rid) →
           rid = "" ∨ (20 < String.length rid)%nat) →
   handleMessage env ws message st = (st, [Send ws (error_msg "Invalid room ID")]))
  ∧ (∀ rid,
       prop "roomId" message = Some (JString rid) →
       rid ≠ "" → (String.length rid ≤ 20)%nat →
       Z.of_nat (Map_size (rooms st)) < maxRooms st →
       Map_get rid (rooms st) = None →
       (handleMessage env ws message st).2 = [Send ws (room_created rid)]
       ∧ Map_get rid (rooms (handleMessage env ws message st).1)
         = Some (mkRoom ws [] (now env))
       ∧ (∀ r, r ≠ rid →
            Map_get r (rooms (handleMessage env ws message st).1)
            = Map_get r (rooms st))).
Proof.
  rewrite (handleMessage_create _ _ _ _ Hkind). split.
  - apply handleCreateRoom_invalid.
  - intros rid Hrid Hne Hlen Hcap Hfree.
    rewrite (handleCreateRoom_success _ _ _ _ rid) by done. simpl.
    split_and!; [done | apply Map_get_set_eq |].
    intros r Hr. by apply Map_get_set_ne.
Qed.

Lemma C9_room_id_check_witness :
  prop "type" (create_room "abcd1234") = Some (JString "create-room")
  ∧ (handleMessage env0 2%nat (create_room "abcd1234") hosted).2
    = [Send 2%nat (room_created "abcd1234")].
Proof.
  split; [reflexivity|].
  refine (proj1 (proj2 (C9_room_id_check env0 2%nat (create_room "abcd1234") hosted _)
                   "abcd1234" _ _ _ _ _)).
  - reflexivity.
  - reflexivity.
  - discriminate.
  - simpl. lia.
  - vm_compute. reflexivity.
  - vm_compute. reflexivity.
Defined.

(** C9 as stated fails: an identifier with characters outside any alphabet
    of letters and digits is accepted, and abcd1234 is created next to
    ABCD1234 as a second room with its own host. *)
Lemma C9_counterexample :
  (handleMessage env0 1%nat (create_room "Room #1!") lobby).2
    = [Send 1%nat (room_created "Room #1!")]
  ∧ (handleMessage env0 2%nat (create_room "abcd1234") hosted).2
    = [Send 2%nat (room_created "abcd1234")]
  ∧ host <$> Map_get "ABCD1234"
               (rooms (handleMessage env0 2%nat (create_room "abcd1234") hosted).1)
    = Some 1%nat
  ∧ host <$> Map_get "abcd1234"
               (rooms (handleMessage env0 2%nat (create_room "abcd1234") hosted).1)
    = Some 2%nat
  ∧ Map_size (rooms (handleMessage env0 2%nat (create_room "abcd1234") hosted).1) = 2%nat.
Proof. split_and!; vm_compute; reflexivity. Qed.

Lemma handleMessage_touches_kind env ws message st :
  (∃ r0 : option string,
     (r0 = None
      ∨ (prop "type" message = Some (JString "leave-room") ∧ r0 = bound_room st ws)
      ∨ ((prop "type" message = Some (JString "create-room")
          ∨ prop "type" message = Some (JString "join-room"))
         ∧ r0 = named_room message))
     ∧ only_touches ws r0 st (handleMessage env ws message st).1)
  ∧ (prop "type" message ≠ Some (JString "create-room") →
     prop "type" message ≠ Some (JString "join-room") →
     prop "type" message ≠ Some (JString "leave-room") →
     (handleMessage env ws message st).1 = st).
Proof.
  unfold handleMessage.
  destruct (negb (truthy (prop "type" message)));
    [split; [exists None; split; [by left | apply only_touches_refl] | done]|].
  destruct (prop "type" message) as [[| | |kind| |]|];
    try (split; [exists None; split; [by left | apply only_touches_refl] | done]).
  repeat case_bool_decide; subst.
  - split; [|done]. exists (named_room message).
    split; [by right; right; split; [left|] | apply handleCreateRoom_touches].
  - split; [|done]. exists (named_room message).
    split; [by right; right; split; [right|] | apply handleJoinRoom_touches].
  - split; [|done]. exists (bound_room st ws).
    split; [by right; left | apply handleLeaveRoom_touches].
  - rewrite handleOffer_state.
    split; [exists None; split; [by left | apply only_touches_refl] | done].
  - rewrite handleAnswer_state.
    split; [exists None; split; [by left | apply only_touches_refl] | done].
  - rewrite handleIceCandidate_state.
    split; [exists None; split; [by left | apply only_touches_refl] | done].
  - split; [exists None; split; [by left | apply only_touches_refl] | done].
Qed.

(** C10.  Handling one inbound frame from [ws] leaves every binding but
    that of [ws] as it was, and every room but at most one, [r0]: the room
    [ws] is bound to when the frame is a leave-room, the room the message
    names when it is a create-room or a join-room.  A frame of any other
    kind, and a frame that gets the socket closed, leaves both tables as
    they were. *)
Theorem C10_frame_of_a_message (env : Env) (ws : conn) (data : Frame)
    (st : SignalingServer) :
  (∃ r0 : option string,
     (r0 = None
      ∨ (frame_kind data = Some (JString "leave-room") ∧ r0 = bound_room st ws)
      ∨ ((frame_kind data = Some (JString "create-room")
          ∨ frame_kind data = Some (JString "join-room"))
         ∧ r0 = JSON_parse data ≫= named_room))
     ∧ (∀ c : conn, c ≠ ws →
          connections (on_message env ws data st).1 !! c = connections st !! c)
     ∧ (∀ r : string, Some r ≠ r0 →
          Map_get r (rooms (on_message env ws data st).1) = Map_get r (rooms st)))
  ∧ (frame_kind data ≠ Some (JString "create-room") →
     frame_kind data ≠ Some (JString "join-room") →
     frame_kind data ≠ Some (JString "leave-room") →
     same_tables st (on_message env ws data st).1).
Proof.
  assert (Hclose : ∀ code reason,
    (∃ r0 : option string,
       (r0 = None
        ∨ (frame_kind data = Some (JString "leave-room") ∧ r0 = bound_room st ws)
        ∨ ((frame_kind data = Some (JString "create-room")
            ∨ frame_kind data = Some (JString "join-room"))
           ∧ r0 = JSON_parse data ≫= named_room))
       ∧ (∀ c : conn, c ≠ ws →
            connections (ws_close ws code reason st).1 !! c = connections st !! c)
       ∧ (∀ r : string, Some r ≠ r0 →
            Map_get r (rooms (ws_close ws code reason st).1) = Map_get r (rooms st)))
    ∧ (frame_kind data ≠ Some (JString "create-room") →
       frame_kind data ≠ Some (JString "join-room") →
       frame_kind data ≠ Some (JString "leave-room") →
       same_tables st (ws_close ws code reason st).1)).
  { intros code reason. split; [|intros _ _ _; apply ws_close_same_tables].
    exists None. split; [by left|].
    apply (same_tables_only_touches ws None), ws_close_same_tables. }
  unfold on_message, frame_kind in *.
  destruct (16384 <? data_length data)%N; [apply Hclose|].
  destruct (JSON_parse data) as [message|] eqn:Hparse; [|apply Hclose].
  destruct (handleMessage_touches_kind env ws message st)
    as [(r0 & Hr0 & Htouch) Hsame].
  destruct message; try apply Hclose;
    (split; [by exists r0 | intros H1 H2 H3; by rewrite Hsame]).
Qed.

(** C8, as the code has it.  A frame longer than 16384 gets the socket
    closed with 1009.  A frame within the limit that does not parse, or
    parses to [null], gets it closed with 1003.  A frame that parses to any
    other value and carries none of the six known kinds in [type] (the field
    is missing, is not a string, or is another string) is dropped: no reply,
    no close, the server as it was.  In all these cases the rooms and the
    bindings are the same afterwards. *)
Theorem C8_frames (env : Env) (ws : conn) (data : Frame) (st : SignalingServer) :
  ((16384 < data_length data)%N →
   (on_message env ws data st).2 = [Close ws 1009 "Message too large"]
   ∧ same_tables st (on_message env ws data st).1)
  ∧ ((data_length data ≤ 16384)%N →
     JSON_parse data = None ∨ JSON_parse data = Some JNull →
     (on_message env ws data st).2 = [Close ws 1003 "Invalid message format"]
     ∧ same_tables st (on_message env ws data st).1)
  ∧ ((data_length data ≤ 16384)%N →
     ∀ message, JSON_parse data = Some message → message ≠ JNull →
       (∀ kind, kind ∈ kinds → prop "type" message ≠ Some (JString kind)) →
       on_message env ws data st = (st, [])).
Proof.
  unfold on_message. split_and!.
  - intros Hbig. rewrite (proj2 (N.ltb_lt _ _) Hbig).
    split; [done | apply ws_close_same_tables].
  - intros Hsmall Hbad. rewrite (proj2 (N.ltb_ge _ _) Hsmall).
    destruct Hbad as [-> | ->]; (split; [done | apply ws_close_same_tables]).
  - intros Hsmall message Hparse Hnull Hkind.
    rewrite (proj2 (N.ltb_ge _ _) Hsmall), Hparse.
    assert (Hdrop : handleMessage env ws message st = (st, [])).
    { unfold handleMessage.
      destruct (negb (truthy (prop "type" message))); [done|].
      destruct (prop "type" message) as [[| | |kind| |]|] eqn:Hty; try done.
      repeat case_bool_decide; try done; subst kind;
        exfalso; (eapply Hkind; [|reflexivity]); unfold kinds;
        repeat first [apply list_elem_of_here | apply list_elem_of_further]. }
    by destruct message.
Qed.

Lemma C8_frames_witness :
  (16384 < data_length (mkFrame 20000 None))%N
  ∧ (on_message env0 2%nat (mkFrame 20000 None) joined).2
    = [Close 2%nat 1009 "Message too large"].
Proof.
  split; [reflexivity|].
  refine (proj1 (proj1 (C8_frames env0 2%nat (mkFrame 20000 None) joined) _)).
  reflexivity.
Defined.

(** C8 as stated fails: a one-byte frame that does not parse is not dropped,
    the sender's socket is closed with 1003. *)
Lemma C8_counterexample :
  (data_length (mkFrame 1 None) ≤ 16384)%N
  ∧ JSON_parse (mkFrame 1 None) = None
  ∧ (on_message env0 2%nat (mkFrame 1 None) joined).2
    = [Close 2%nat 1003 "Invalid message format"]
  ∧ readyState joined 2%nat = OPEN
  ∧ readyState (on_message env0 2%nat (mkFrame 1 None) joined).1 2%nat = CLOSING.
Proof. split_and!; vm_compute; try reflexivity. discriminate. Qed.

(** ** Notifications and relayed messages *)

Lemma host_disconnected_count_app v evs1 evs2 :
  host_disconnected_count v (evs1 ++ evs2)
  = (host_disconnected_count v evs1 + host_disconnected_count v evs2)%nat.
Proof. unfold host_disconnected_count. by rewrite List.filter_app, length_app. Qed.

Lemma notify_viewers_absent st v vs :
  v ∉ vs → host_disconnected_count v (notify_viewers st vs) = 0%nat.
Proof.
  induction vs as [|w vs IH]; [done|].
  intros Hnotin. apply not_elem_of_cons in Hnotin as [Hne Hnotin].
  simpl. rewrite host_disconnected_count_app, IH by done.
  destruct (is_open st w); [|done].
  unfold host_disconnected_count. simpl. by rewrite bool_decide_eq_false_2.
Qed.

Lemma notify_viewers_count st v vs :
  NoDup vs →
  host_disconnected_count v (notify_viewers st vs)
  = if bool_decide (v ∈ vs) && is_open st v then 1%nat else 0%nat.
Proof.
  induction 1 as [|w vs Hw Hnd IH].
  - done.
  - simpl. rewrite host_disconnected_count_app.
    destruct (decide (v = w)) as [->|Hne].
    + rewrite notify_viewers_absent by done.
      rewrite bool_decide_eq_true_2 by apply list_elem_of_here. simpl.
      destruct (is_open st w); [|done].
      unfold host_disconnected_count. simpl. by rewrite bool_decide_eq_true_2.
    + rewrite IH.
      assert (Hhead : host_disconnected_count v
                (if is_open st w then [Send w host_disconnected] else []) = 0%nat).
      { destruct (is_open st w); [|done].
        unfold host_disconnected_count. simpl.
        by rewrite bool_decide_eq_false_2 by congruence. }
      rewrite Hhead. simpl.
      destruct (decide (v ∈ vs)) as [Hin|Hnotin].
      * rewrite (bool_decide_eq_true_2 (v ∈ vs)) by done.
        by rewrite (bool_decide_eq_true_2 (v ∈ w :: vs))
          by (by apply list_elem_of_further).
      * rewrite (bool_decide_eq_false_2 (v ∈ vs)) by done.
        rewrite (bool_decide_eq_false_2 (v ∈ w :: vs)); [done|].
        rewrite elem_of_cons. tauto.
Qed.

Lemma forward_to_viewer_spec st wanted msg vs :
  forward_to_viewer st wanted msg vs = []
  ∨ ∃ v bv, v ∈ vs ∧ connections st !! v = Some bv
            ∧ strict_eq (viewerId bv) wanted = true
            ∧ is_open st v = true
            ∧ forward_to_viewer st wanted msg vs = [Send v msg].
Proof.
  induction vs as [|w vs IH]; [by left|]. simpl.
  assert (Hrest : forward_to_viewer st wanted msg vs = []
    ∨ ∃ v bv, v ∈ w :: vs ∧ connections st !! v = Some bv
              ∧ strict_eq (viewerId bv) wanted = true
              ∧ is_open st v = true
              ∧ forward_to_viewer st wanted msg vs = [Send v msg]).
  { destruct IH as [Hnil | (v & bv & Hin & Hrest)]; [by left|].
    right. exists v, bv. split; [by apply list_elem_of_further | done]. }
  destruct (connections st !! w) as [bw|] eqn:Hbw; [|done].
  destruct (strict_eq (viewerId bw) wanted) eqn:Heq; [|done].
  destruct (is_open st w) eqn:Hopen; [|by left].
  right. exists w, bw. split_and!; try done. apply list_elem_of_here.
Qed.

(** The open viewer that alone carries the wanted [viewerId] is written to. *)
Lemma forward_to_viewer_delivers st wanted msg vs v bv :
  v ∈ vs → connections st !! v = Some bv →
  strict_eq (viewerId bv) wanted = true → is_open st v = true →
  (∀ w bw, w ∈ vs → connections st !! w = Some bw →
           strict_eq (viewerId bw) wanted = true → w = v) →
  forward_to_viewer st wanted msg vs = [Send v msg].
Proof.
  intros Hin Hbv Heq Hopen Huniq.
  induction vs as [|w vs IH]; [by apply elem_of_nil in Hin|]. simpl.
  destruct (connections st !! w) as [bw|] eqn:Hbw.
  - destruct (strict_eq (viewerId bw) wanted) eqn:Hw.
    + assert (w = v) as -> by (eapply Huniq; [apply list_elem_of_here | done..]).
      by rewrite Hopen.
    + apply elem_of_cons in Hin as [->|Hin]; [congruence|].
      apply IH; [done|]. intros w' bw' Hw'. apply Huniq. by apply list_elem_of_further.
  - apply elem_of_cons in Hin as [->|Hin]; [congruence|].
    apply IH; [done|]. intros w' bw' Hw'. apply Huniq. by apply list_elem_of_further.
Qed.

(** C4, as the code has it.  When a connection bound as the host of a room
    of the Room Table disconnects, the room is removed from the table, every
    member of the room's viewer set whose socket is open is sent exactly one
    host-disconnected message, and nobody else is sent one, a viewer whose
    socket is no longer open included. *)
Theorem C4_host_disconnection (ws : conn) (b : Binding) (room : Room)
    (st : SignalingServer)
    (Hb : connections st !! ws = Some b) (Hrole : type b = host_role)
    (Hroom : Map_get (roomId b) (rooms st) = Some room)
    (Hset : NoDup (viewers room)) :
  Map_get (roomId b) (rooms (handleDisconnection ws st).1) = None
  ∧ connections (handleDisconnection ws st).1 !! ws = None
  ∧ (∀ v : conn,
       host_disconnected_count v (handleDisconnection ws st).2
       = if bool_decide (v ∈ viewers room) && is_open st v then 1%nat else 0%nat).
Proof.
  rewrite (handleDisconnection_host ws b room st Hb Hrole Hroom). simpl.
  split_and!.
  - apply Map_get_delete_eq.
  - apply lookup_delete_eq.
  - intros v. by apply notify_viewers_count.
Qed.

Lemma C4_host_disconnection_witness :
  connections joined !! 1%nat = Some (mkBinding host_role "ABCD1234" None)
  ∧ host_disconnected_count 2%nat (handleDisconnection 1%nat joined).2 = 1%nat.
Proof.
  split; [vm_compute; reflexivity|].
  refine (proj2 (proj2 (C4_host_disconnection 1%nat
            (mkBinding host_role "ABCD1234" None)
            (mkRoom 1%nat [2%nat] 1700000000000) joined _ _ _ _)) 2%nat).
  - vm_compute. reflexivity.
  - reflexivity.
  - vm_compute. reflexivity.
  - simpl. apply NoDup_singleton.
Defined.

(** C4 as stated fails, twice.  Socket 2 is bound as a viewer of ABCD1234
    and is in its viewer set, but is closing when host 1 disconnects: it is
    sent no host-disconnected message.  And once host 1 has gone and socket
    3 hosts ABCD1234 anew, socket 2, open and still bound as a viewer of
    ABCD1234, is sent none when host 3 disconnects. *)
Lemma C4_counterexample :
  (reachable 100 viewer_closing
   ∧ connections viewer_closing !! 1%nat = Some (mkBinding host_role "ABCD1234" None)
   ∧ connections viewer_closing !! 2%nat
     = Some (mkBinding viewer_role "ABCD1234" (Some "viewer_k3x9a2bq"))
   ∧ viewers <$> Map_get "ABCD1234" (rooms viewer_closing) = Some [2%nat]
   ∧ (handleDisconnection 1%nat viewer_closing).2 = []
   ∧ host_disconnected_count 2%nat (handleDisconnection 1%nat viewer_closing).2 ≠ 1%nat)
  ∧ (reachable 100 rehosted
     ∧ connections rehosted !! 3%nat = Some (mkBinding host_role "ABCD1234" None)
     ∧ connections rehosted !! 2%nat
       = Some (mkBinding viewer_role "ABCD1234" (Some "viewer_k3x9a2bq"))
     ∧ is_open rehosted 2%nat = true
     ∧ (handleDisconnection 3%nat rehosted).2 = []
     ∧ host_disconnected_count 2%nat (handleDisconnection 3%nat rehosted).2 ≠ 1%nat).
Proof.
  split.
  - split; [apply reachable_viewer_closing|].
    split_and!; vm_compute; try reflexivity. discriminate.
  - split; [apply reachable_rehosted|].
    split_and!; vm_compute; try reflexivity. discriminate.
Qed.

Lemma first_named_here st v vs wanted bv :
  connections st !! v = Some bv → strict_eq (viewerId bv) wanted = true →
  first_named st (v :: vs) wanted v.
Proof.
  intros Hbv Heq. exists [], vs. split_and!; [done | by exists bv |].
  by intros w bw ?%elem_of_nil.
Qed.

Lemma first_named_cons st u vs wanted v :
  (∀ bu, connections st !! u = Some bu → strict_eq (viewerId bu) wanted = false) →
  first_named st (u :: vs) wanted v ↔ first_named st vs wanted v.
Proof.
  intros Hu. split.
  - intros (before & after & Hvs & (bv & Hbv & Heq) & Hbefore).
    destruct before as [|u' before]; simpl in Hvs; injection Hvs as <- Hvs.
    + rewrite (Hu bv Hbv) in Heq. done.
    + exists before, after. split_and!; [done | by exists bv |].
      intros w bw Hw. apply Hbefore. by apply list_elem_of_further.
  - intros (before & after & -> & Hnamed & Hbefore).
    exists (u :: before), after. split_and!; [done | done |].
    intros w bw [->|Hw]%elem_of_cons; [apply Hu | by apply Hbefore].
Qed.

Lemma first_named_skip st u vs wanted v :
  (∀ bu, connections st !! u = Some bu → strict_eq (viewerId bu) wanted = false) →
  first_named st vs wanted v → first_named st (u :: vs) wanted v.
Proof. intros Hu. apply first_named_cons, Hu. Qed.

Lemma first_named_skipped st u vs wanted v :
  (∀ bu, connections st !! u = Some bu → strict_eq (viewerId bu) wanted = false) →
  first_named st (u :: vs) wanted v → first_named st vs wanted v.
Proof. intros Hu. apply first_named_cons, Hu. Qed.

Lemma forward_to_viewer_first st wanted msg vs v :
  first_named st vs wanted v →
  forward_to_viewer st wanted msg vs = if is_open st v then [Send v msg] else [].
Proof.
  induction vs as [|u vs IH]; intros Hfirst.
  - destruct Hfirst as ([|? ?] & ? & ? & _); done.
  - simpl. destruct (connections st !! u) as [bu|] eqn:Hbu.
    + destruct (strict_eq (viewerId bu) wanted) eqn:Hu.
      * destruct Hfirst as (before & after & Hvs & _ & Hbefore).
        destruct before as [|u' before]; simpl in Hvs; injection Hvs as <- Hvs;
          [done|].
        rewrite (Hbefore u bu) in Hu; [done | apply list_elem_of_here | done].
      * apply IH, (first_named_skipped st u); [|done].
        intros bu' Hbu'. congruence.
    + apply IH, (first_named_skipped st u); [|done].
      intros bu' Hbu'. congruence.
Qed.

Lemma forward_to_viewer_none st wanted msg vs :
  (∀ v, ¬ first_named st vs wanted v) → forward_to_viewer st wanted msg vs = [].
Proof.
  induction vs as [|u vs IH]; intros Hnone; [done|]. simpl.
  destruct (connections st !! u) as [bu|] eqn:Hbu.
  - destruct (strict_eq (viewerId bu) wanted) eqn:Hu.
    + destruct (Hnone u). by eapply first_named_here.
    + apply IH. intros v Hv. apply (Hnone v), first_named_skip; [|done].
      intros bu' Hbu'. congruence.
  - apply IH. intros v Hv. apply (Hnone v), first_named_skip; [|done].
    intros bu' Hbu'. congruence.
Qed.

Lemma first_named_or_none st vs wanted :
  (∃ v, first_named st vs wanted v) ∨ (∀ v, ¬ first_named st vs wanted v).
Proof.
  induction vs as [|u vs IH].
  - right. intros v ([|? ?] & ? & ? & _); done.
  - destruct (connections st !! u) as [bu|] eqn:Hbu;
      [destruct (strict_eq (viewerId bu) wanted) eqn:Hu;
       [left; exists u; by eapply first_named_here|]|].
    all: assert (Hskip : ∀ bu', connections st !! u = Some bu' →
                                strict_eq (viewerId bu') wanted = false)
           by (intros bu' Hbu'; congruence).
    all: destruct IH as [(v & Hv)|Hnone];
      [left; exists v; by apply first_named_skip
      |right; intros v Hv; apply (Hnone v); by eapply first_named_skipped].
Qed.

(** The loop, for a sender bound as the host of [room]. *)
Lemma forward_to_viewer_exact st ws b room wanted msg :
  connections st !! ws = Some b → type b = host_role →
  Map_get (roomId b) (rooms st) = Some room →
  (∀ v, viewer_target st ws wanted v →
        forward_to_viewer st wanted msg (viewers room) = [Send v msg])
  ∧ ((∀ v, ¬ viewer_target st ws wanted v) →
     forward_to_viewer st wanted msg (viewers room) = []).
Proof.
  intros Hb Hrole Hroom. split.
  - intros v (b' & room' & Hb' & _ & Hroom' & Hfirst & Hopen).
    rewrite Hb in Hb'. injection Hb' as <-.
    rewrite Hroom in Hroom'. injection Hroom' as <-.
    by rewrite (forward_to_viewer_first st wanted msg (viewers room) v), Hopen.
  - intros Hnone.
    destruct (first_named_or_none st (viewers room) wanted) as [(u & Hu)|Hno];
      [|by apply forward_to_viewer_none].
    rewrite (forward_to_viewer_first st wanted msg (viewers room) u Hu).
    destruct (is_open st u) eqn:Ho; [|done].
    destruct (Hnone u). by exists b, room.
Qed.

Lemma handleMessage_relayed env ws message st :
  (prop "type" message = Some (JString "offer") →
   handleMessage env ws message st = handleOffer ws message st)
  ∧ (prop "type" message = Some (JString "answer") →
     handleMessage env ws message st = handleAnswer ws message st)
  ∧ (prop "type" message = Some (JString "ice-candidate") →
     handleMessage env ws message st = handleIceCandidate ws message st).
Proof. unfold handleMessage. split_and!; by intros ->. Qed.

(** C6, as the code has it.  Through [handleMessage], an offer, an answer
    and an ice-candidate change nothing in the server and go to one socket
    or to none, with the [offer], [answer] or [candidate] field as it was
    received.  An offer, and the ice-candidate of a sender bound as a host,
    goes to the first viewer named by [viewerId] in the room that the Room
    Table holds under the [roomId] of the sender's binding, if that viewer's
    socket is open; an answer, and the ice-candidate of a sender bound as a
    viewer, goes to the host of that room, if open, tagged with the sender's
    [viewerId].  With such a target the message is sent once, to it; without
    one nothing is sent.  The room is found by the identifier in the
    binding, whether or not the sender is in it. *)
Theorem C6_relay_exact (env : Env) (ws : conn) (message : Json)
    (st : SignalingServer) :
  (prop "type" message = Some (JString "offer") →
   (handleMessage env ws message st).1 = st
   ∧ (∀ v, viewer_target st ws (prop "viewerId" message) v →
           (handleMessage env ws message st).2
           = [Send v (offer_msg (prop "offer" message))])
   ∧ ((∀ v, ¬ viewer_target st ws (prop "viewerId" message) v) →
      (handleMessage env ws message st).2 = []))
  ∧ (prop "type" message = Some (JString "answer") →
     (handleMessage env ws message st).1 = st
     ∧ (∀ h vid, host_target st ws h vid →
                 (handleMessage env ws message st).2
                 = [Send h (answer_msg (prop "answer" message) vid)])
     ∧ ((∀ h vid, ¬ host_target st ws h vid) →
        (handleMessage env ws message st).2 = []))
  ∧ (prop "type" message = Some (JString "ice-candidate") →
     (handleMessage env ws message st).1 = st
     ∧ (∀ v, viewer_target st ws (prop "viewerId" message) v →
             (handleMessage env ws message st).2
             = [Send v (ice_candidate_msg (prop "candidate" message) None)])
     ∧ (∀ h vid, host_target st ws h vid →
                 (handleMessage env ws message st).2
                 = [Send h (ice_candidate_msg (prop "candidate" message) vid)])
     ∧ ((∀ v, ¬ viewer_target st ws (prop "viewerId" message) v) →
        (∀ h vid, ¬ host_target st ws h vid) →
        (handleMessage env ws message st).2 = [])).
Proof.
  destruct (handleMessage_relayed env ws message st) as (Hoffer & Hanswer & Hice).
  assert (Hno_viewer : ∀ wanted,
            (∀ b room, connections st !! ws = Some b → type b = host_role →
                       Map_get (roomId b) (rooms st) = Some room → False) →
            ∀ v, ¬ viewer_target st ws wanted v).
  { intros wanted Hno v (b' & room' & Hb' & Hrole' & Hroom' & _). eauto. }
  assert (Hno_host :
            (∀ b room, connections st !! ws = Some b → type b = viewer_role →
                       Map_get (roomId b) (rooms st) = Some room → False) →
            ∀ h vid, ¬ host_target st ws h vid).
  { intros Hno h vid (b' & room' & Hb' & Hrole' & Hroom' & _). eauto. }
  split_and!.
  - intros Hkind. rewrite (Hoffer Hkind). split; [apply handleOffer_state|].
    unfold handleOffer.
    destruct (connections st !! ws) as [b|] eqn:Hb; cycle 1.
    { split; [|done]. intros v Hv. destruct (Hno_viewer _ ltac:(congruence) v Hv). }
    destruct (type b) eqn:Hrole; cycle 1.
    { split; [|done]. intros v Hv. destruct (Hno_viewer _ ltac:(congruence) v Hv). }
    destruct (Map_get (roomId b) (rooms st)) as [room|] eqn:Hroom; cycle 1.
    { split; [|done]. intros v Hv. destruct (Hno_viewer _ ltac:(congruence) v Hv). }
    by apply (forward_to_viewer_exact st ws b room).
  - intros Hkind. rewrite (Hanswer Hkind). split; [apply handleAnswer_state|].
    unfold handleAnswer.
    destruct (connections st !! ws) as [b|] eqn:Hb; cycle 1.
    { split; [|done]. intros h vid Hh. destruct (Hno_host ltac:(congruence) h vid Hh). }
    destruct (type b) eqn:Hrole.
    { split; [|done]. intros h vid Hh. destruct (Hno_host ltac:(congruence) h vid Hh). }
    destruct (Map_get (roomId b) (rooms st)) as [room|] eqn:Hroom; cycle 1.
    { split; [|done]. intros h vid Hh. destruct (Hno_host ltac:(congruence) h vid Hh). }
    cbn [snd]. split.
    + intros h vid (b' & room' & Hb' & _ & Hroom' & -> & -> & Hopen).
      assert (b' = b) as -> by congruence.
      assert (room' = room) as -> by congruence. by rewrite Hopen.
    + intros Hnone. destruct (is_open st (host room)) eqn:Hopen; [|done].
      destruct (Hnone (host room) (viewerId b)). by exists b, room.
  - intros Hkind. rewrite (Hice Hkind). split; [apply handleIceCandidate_state|].
    unfold handleIceCandidate.
    destruct (connections st !! ws) as [b|] eqn:Hb; cycle 1.
    { split_and!; [| |done].
      - intros v Hv. destruct (Hno_viewer _ ltac:(congruence) v Hv).
      - intros h vid Hh. destruct (Hno_host ltac:(congruence) h vid Hh). }
    destruct (Map_get (roomId b) (rooms st)) as [room|] eqn:Hroom; cycle 1.
    { split_and!; [| |done].
      - intros v Hv. destruct (Hno_viewer _ ltac:(congruence) v Hv).
      - intros h vid Hh. destruct (Hno_host ltac:(congruence) h vid Hh). }
    destruct (type b) eqn:Hrole; cbn [snd].
    + destruct (forward_to_viewer_exact st ws b room (prop "viewerId" message)
                  (ice_candidate_msg (prop "candidate" message) None) Hb Hrole Hroom)
        as [Hsend Hnone].
      split_and!; [done | | intros Hv _; by apply Hnone].
      intros h vid Hh. destruct (Hno_host ltac:(congruence) h vid Hh).
    + split_and!.
      * intros v Hv. destruct (Hno_viewer _ ltac:(congruence) v Hv).
      * intros h vid (b' & room' & Hb' & _ & Hroom' & -> & -> & Hopen).
        assert (b' = b) as -> by congruence.
        assert (room' = room) as -> by congruence. by rewrite Hopen.
      * intros _ Hnone. destruct (is_open st (host room)) eqn:Hopen; [|done].
        destruct (Hnone (host room) (viewerId b)). by exists b, room.
Qed.

Lemma C6_relay_exact_witness :
  viewer_target joined 1%nat (prop "viewerId" an_offer) 2%nat
  ∧ (handleMessage env0 1%nat an_offer joined).2
    = [Send 2%nat (offer_msg (prop "offer" an_offer))].
Proof.
  assert (H : viewer_target joined 1%nat (prop "viewerId" an_offer) 2%nat).
  { exists (mkBinding host_role "ABCD1234" None), (mkRoom 1%nat [2%nat] 1700000000000).
    split_and!; try (vm_compute; reflexivity).
    exists [], []. split_and!; [done | | by intros w bw ?%elem_of_nil].
    exists (mkBinding viewer_role "ABCD1234" (Some "viewer_k3x9a2bq")).
    split; vm_compute; reflexivity. }
  split; [exact H|].
  refine (proj1 (proj2 (proj1 (C6_relay_exact env0 1%nat an_offer joined) _)) 2%nat H).
  reflexivity.
Defined.

(** C6 as stated fails, twice.  Host 1's offer for a viewer nobody is goes
    to no recipient at all.  And once host 1 has gone and socket 3 hosts
    ABCD1234 anew, socket 2, still bound as a viewer of ABCD1234 and not in
    the viewer set of the new room, has its answer delivered to host 3: a
    socket of a room that is not the sender's. *)
Lemma C6_counterexample :
  (connections joined !! 1%nat = Some (mkBinding host_role "ABCD1234" None)
   ∧ (on_message env0 1%nat (mkFrame 120 (Some an_offer_for_nobody)) joined).2 = [])
  ∧ (reachable 100 rehosted
     ∧ connections rehosted !! 2%nat
       = Some (mkBinding viewer_role "ABCD1234" (Some "viewer_k3x9a2bq"))
     ∧ Map_get "ABCD1234" (rooms rehosted) = Some (mkRoom 3%nat [] 1700000000000)
     ∧ (on_message env0 2%nat (mkFrame 90 (Some an_answer)) rehosted).2
       = [Send 3%nat (answer_msg (prop "answer" an_answer) (Some "viewer_k3x9a2bq"))]).
Proof.
  split.
  - split; vm_compute; reflexivity.
  - split; [apply reachable_rehosted|]. split_and!; vm_compute; reflexivity.
Qed.

Lemma sweep_events now entries st e :
  e ∈ (sweep now entries st).2 → ∃ c, e = Close c 1000 "Room expired".
Proof.
  revert st. induction entries as [|[rid room] rest IH]; intros st;
    [by intros ?%elem_of_nil|].
  sweep_step now rid room rest st; try apply IH.
  intros [->|Hin]%elem_of_cons; [by eexists | by eapply IH].
Qed.

Lemma sweep_well_formed now entries st :
  well_formed st → well_formed (sweep now entries st).1.
Proof.
  revert st. induction entries as [|[rid room] rest IH]; intros st Hwf; [done|].
  sweep_step now rid room rest st; apply IH; try done.
  - by apply (well_formed_delete (with_sockets _ st)).
  - by apply well_formed_delete.
Qed.

Lemma step_well_formed st st' : step st st' → well_formed st → well_formed st'.
Proof.
  intros Hstep Hwf. destruct Hstep.
  - done.
  - by apply on_message_well_formed.
  - by apply handleDisconnection_well_formed.
  - by apply handleDisconnection_well_formed.
  - unfold ws_terminate. by destruct (readyState st ws).
  - by apply sweep_well_formed.
Qed.

(** On every server of a run the Room Table is a [Map] and each viewer set
    a [Set]. *)
Lemma reachable_well_formed limit st : reachable limit st → well_formed st.
Proof.
  induction 1 as [|st st' _ IH Hstep].
  - split; [constructor | done].
  - by eapply step_well_formed.
Qed.

(** C7, as the code has it.  At a sweep, a room whose host socket is not
    open is deleted; a room older than 30 minutes is deleted, and its host
    socket, if open, is closed with code 1000 and reason [Room expired]: the
    sweep closes sockets with no other code. *)
Theorem C7_room_sweep (now : Z) (st : SignalingServer) (rid : string) (room : Room)
    (Hroom : Map_get rid (rooms st) = Some room) :
  (is_open st (host room) = false →
   Map_get rid (rooms (cleanupStaleRooms now st).1) = None)
  ∧ (stale now room →
     Map_get rid (rooms (cleanupStaleRooms now st).1) = None
     ∧ (is_open st (host room) = true →
        Close (host room) 1000 "Room expired" ∈ (cleanupStaleRooms now st).2))
  ∧ (∀ e, e ∈ (cleanupStaleRooms now st).2 → ∃ c, e = Close c 1000 "Room expired").
Proof.
  apply Map_get_elem in Hroom. unfold cleanupStaleRooms. split_and!.
  - intros Hdead. by eapply sweep_dead.
  - intros Hstale%stale_is_stale. by apply sweep_stale.
  - intros e. apply sweep_events.
Qed.

Lemma C7_room_sweep_witness :
  Map_get "ABCD1234" (rooms hosted) = Some (mkRoom 1%nat [] 1700000000000)
  ∧ Map_get "ABCD1234" (rooms (cleanupStaleRooms expiry_time hosted).1) = None.
Proof.
  split; [vm_compute; reflexivity|].
  refine (proj1 (proj1 (proj2 (C7_room_sweep expiry_time hosted "ABCD1234"
            (mkRoom 1%nat [] 1700000000000) _)) _)).
  - vm_compute. reflexivity.
  - split; [discriminate | reflexivity].
Defined.

(** C7 as stated fails: room ABCD1234 is past the threshold and its host is
    open; the sweep closes the host with 1000, one of the transport's own
    codes, and with no other code. *)
Lemma C7_counterexample :
  stale expiry_time (mkRoom 1%nat [] 1700000000000)
  ∧ is_open hosted 1%nat = true
  ∧ (cleanupStaleRooms expiry_time hosted).2 = [Close 1%nat 1000 "Room expired"]
  ∧ 1000 ∈ transport_codes
  ∧ ¬ (∃ code reason,
         Close 1%nat code reason ∈ (cleanupStaleRooms expiry_time hosted).2
         ∧ code ∉ transport_codes).
Proof.
  split_and!.
  - split; [discriminate | reflexivity].
  - vm_compute. reflexivity.
  - vm_compute. reflexivity.
  - apply list_elem_of_here.
  - intros (code & reason & Hin & Hcode).
    apply (sweep_events expiry_time (rooms hosted) hosted) in Hin as [c [= _ -> _]].
    apply Hcode, list_elem_of_here.
Qed.

(** ** The scenarios, run *)

Example viewer_joins :
  (handleMessage env0 2%nat (join_room "ABCD1234") hosted).2
  = [Send 2%nat (room_joined "ABCD1234" "viewer_k3x9a2bq");
     Send 1%nat (viewer_joined "viewer_k3x9a2bq")].
Proof. vm_compute. reflexivity. Qed.

Example offer_reaches_the_viewer :
  (on_message env0 1%nat (mkFrame 90 (Some an_offer)) joined).2
  = [Send 2%nat (offer_msg (prop "offer" an_offer))].
Proof. vm_compute. reflexivity. Qed.

Example offer_from_a_viewer_is_dropped :
  on_message env0 2%nat (mkFrame 90 (Some an_offer)) joined = (joined, []).
Proof. vm_compute. reflexivity. Qed.

Example join_after_sweep_finds_nothing :
  (handleMessage env0 2%nat (join_room "ABCD1234")
     (cleanupStaleRooms expiry_time hosted).1).2
  = [Send 2%nat room_not_found].
Proof. vm_compute. reflexivity. Qed.

Example unknown_kind_is_dropped :
  on_message env0 2%nat
    (mkFrame 20 (Some (JObject [("type", JString "ping")]))) joined
  = (joined, []).
Proof. vm_compute. reflexivity. Qed.

(** * Further properties of the handlers *)

(** ** More on the ordered [Map] and [Set] *)

Section ordered_map_sizes.
Context {K V : Type} `{EqDecision K}.
Implicit Types (k : K) (v : V) (m : list (K * V)).

Lemma Map_size_set_absent k v m :
  Map_get k m = None → Map_size (Map_set k v m) = S (Map_size m).
Proof.
  unfold Map_size. induction m as [|[k1 v1] m IH]; simpl; [done|].
  destruct (decide (k1 = k)); [done|]. intros Hget. simpl. by rewrite IH.
Qed.

Lemma Map_size_set_present k v m :
  is_Some (Map_get k m) → Map_size (Map_set k v m) = Map_size m.
Proof.
  unfold Map_size. induction m as [|[k1 v1] m IH]; simpl; [by intros [? ?]|].
  destruct (decide (k1 = k)); [done|]. intros Hget. simpl. by rewrite IH.
Qed.

Lemma Map_size_delete_le k m : (Map_size (Map_delete k m) ≤ Map_size m)%nat.
Proof.
  unfold Map_size. induction m as [|[k1 v1] m IH]; simpl; [done|].
  destruct (decide (k1 = k)); simpl; lia.
Qed.

Lemma Map_delete_absent k m : Map_get k m = None → Map_delete k m = m.
Proof.
  induction m as [|[k1 v1] m IH]; simpl; [done|].
  destruct (decide (k1 = k)); [done|]. intros Hget. by rewrite IH.
Qed.

Lemma Map_delete_set_absent k v m :
  Map_get k m = None → Map_delete k (Map_set k v m) = m.
Proof.
  induction m as [|[k1 v1] m IH]; simpl.
  - by rewrite decide_True.
  - destruct (decide (k1 = k)) as [->|Hne]; [done|]. intros Hget. simpl.
    rewrite decide_False by done. by rewrite IH.
Qed.

Lemma Map_set_id k v m : Map_get k m = Some v → Map_set k v m = m.
Proof.
  induction m as [|[k1 v1] m IH]; simpl; [done|].
  destruct (decide (k1 = k)) as [->|Hne]; [by intros [= ->]|].
  intros Hget. by rewrite IH.
Qed.

Lemma Map_set_set k v v' m : Map_set k v (Map_set k v' m) = Map_set k v m.
Proof.
  induction m as [|[k1 v1] m IH]; simpl.
  - by rewrite decide_True.
  - destruct (decide (k1 = k)) as [->|Hne]; simpl.
    + by rewrite decide_True.
    + rewrite decide_False by done. by rewrite IH.
Qed.

Lemma Map_get_unique k v m : NoDup m.*1 → (k, v) ∈ m → Map_get k m = Some v.
Proof.
  induction m as [|[k1 v1] m IH]; simpl; [by intros _ ?%elem_of_nil|].
  intros [Hk1 Hm]%NoDup_cons [[= -> ->]|Hin]%elem_of_cons.
  - by rewrite decide_True.
  - destruct (decide (k1 = k)) as [->|Hne]; [|by apply IH].
    exfalso. apply Hk1. apply list_elem_of_fmap. by exists (k, v).
Qed.
End ordered_map_sizes.

Section ordered_set_sizes.
Context {A : Type} `{EqDecision A}.
Implicit Types (x y : A) (s : list A).

Lemma Set_size_add_le x s : (Set_size (Set_add x s) ≤ S (Set_size s))%nat.
Proof.
  unfold Set_size, Set_add. destruct (Set_has x s); [lia|].
  rewrite length_app. simpl. lia.
Qed.

Lemma Set_size_delete_le x s : (Set_size (Set_delete x s) ≤ Set_size s)%nat.
Proof.
  unfold Set_size. induction s as [|y s IH]; simpl; [done|].
  destruct (decide (y = x)); simpl; lia.
Qed.

Lemma Set_delete_absent x s : x ∉ s → Set_delete x s = s.
Proof.
  induction s as [|y s IH]; simpl; [done|].
  intros [Hne Hnotin]%not_elem_of_cons.
  rewrite decide_False by done. by rewrite IH.
Qed.

Lemma Set_delete_add x s : x ∉ s → Set_delete x (Set_add x s) = s.
Proof.
  intros Hnotin. unfold Set_add, Set_has.
  rewrite bool_decide_eq_false_2 by done.
  induction s as [|y s IH]; simpl.
  - by rewrite decide_True.
  - apply not_elem_of_cons in Hnotin as [Hne Hnotin].
    rewrite decide_False by done. by rewrite IH.
Qed.
End ordered_set_sizes.

(** ** Disconnection and leave-room *)

(** X1.  [handleDisconnection] runs from both the [error] and the [close]
    listener of a socket.  Run a second time for the same socket it sends
    nothing and changes nothing: the side effects of a disconnection happen
    once. *)
Theorem X1_disconnection_once (ws : conn) (st : SignalingServer) :
  handleDisconnection ws (handleDisconnection ws st).1
  = ((handleDisconnection ws st).1, []).
Proof.
  unfold handleDisconnection at 2 3.
  destruct (connections st !! ws) as [b|] eqn:Hb; simpl.
  - destruct (Map_get (roomId b) (rooms st)) as [room|] eqn:Hroom; simpl.
    + destruct (type b); simpl; unfold handleDisconnection; simpl;
        by rewrite lookup_delete_eq.
    + unfold handleDisconnection. by rewrite Hb, Hroom.
  - unfold handleDisconnection. by rewrite Hb.
Qed.

(** X2.  [handleLeaveRoom] and [handleDisconnection] do the same, send the
    same and leave the same server, except in one case: the socket is bound
    as the host of a room that is in the Room Table. *)
Theorem X2_leave_or_disconnect (ws : conn) (message : Json) (st : SignalingServer) :
  handleLeaveRoom ws message st = handleDisconnection ws st
  ↔ ¬ ∃ b room, connections st !! ws = Some b ∧ type b = host_role
                ∧ Map_get (roomId b) (rooms st) = Some room.
Proof.
  unfold handleLeaveRoom, handleDisconnection.
  destruct (connections st !! ws) as [b|] eqn:Hb;
    [|split; [by intros _ (? & ? & ? & _) | done]].
  destruct (Map_get (roomId b) (rooms st)) as [room|] eqn:Hroom;
    [|split; [intros _ (b' & ? & [= <-] & _ & ?); congruence | done]].
  destruct (type b) eqn:Hrole.
  - split.
    + intros [= Hrooms _]. exfalso.
      assert (Hgone : Map_get (roomId b) (rooms st) = None)
        by (rewrite Hrooms; apply Map_get_delete_eq).
      congruence.
    + intros Hnot. exfalso. apply Hnot. by exists b, room.
  - split; [|done]. intros _ (b' & ? & [= <-] & ? & _). congruence.
Qed.

(** X3.  When a socket bound as a viewer of a room of the Room Table
    disconnects, its binding is removed, it is no longer in the viewer set
    of the room while every other viewer is, the host of the room is sent
    one viewer-left with the viewer's identifier if its socket is open and
    nothing otherwise, and no other room changes. *)
Theorem X3_viewer_departure (ws : conn) (b : Binding) (room : Room)
    (st : SignalingServer)
    (Hb : connections st !! ws = Some b) (Hrole : type b = viewer_role)
    (Hroom : Map_get (roomId b) (rooms st) = Some room) :
  (handleDisconnection ws st).2
    = (if is_open st (host room)
       then [Send (host room) (viewer_left (viewerId b))] else [])
  ∧ connections (handleDisconnection ws st).1 = delete ws (connections st)
  ∧ (∃ room', Map_get (roomId b) (rooms (handleDisconnection ws st).1) = Some room'
              ∧ host room' = host room ∧ createdAt room' = createdAt room
              ∧ ∀ v, v ∈ viewers room' ↔ v ≠ ws ∧ v ∈ viewers room)
  ∧ (∀ r, r ≠ roomId b →
       Map_get r (rooms (handleDisconnection ws st).1) = Map_get r (rooms st)).
Proof.
  unfold handleDisconnection. rewrite Hb, Hroom, Hrole. simpl.
  split_and!; try done.
  - eexists. rewrite Map_get_set_eq. split_and!; try done.
    intros v. simpl. apply elem_of_Set_delete.
  - intros r Hr. by apply Map_get_set_ne.
Qed.

Lemma X3_viewer_departure_witness :
  connections joined !! 2%nat
    = Some (mkBinding viewer_role "ABCD1234" (Some "viewer_k3x9a2bq"))
  ∧ (handleDisconnection 2%nat joined).2
    = [Send 1%nat (viewer_left (Some "viewer_k3x9a2bq"))].
Proof.
  split; [vm_compute; reflexivity|].
  refine (proj1 (X3_viewer_departure 2%nat
            (mkBinding viewer_role "ABCD1234" (Some "viewer_k3x9a2bq"))
            (mkRoom 1%nat [2%nat] 1700000000000) joined _ _ _)).
  - vm_compute. reflexivity.
  - reflexivity.
  - vm_compute. reflexivity.
Defined.

(** ** join-room *)

(** X4.  join-room for a [roomId] that is missing, is not a string, is
    empty or names no room of the Room Table is answered room-not-found and
    changes nothing: no room is created by joining. *)
Theorem X4_join_unknown_room (env : Env) (ws : conn) (message : Json)
    (st : SignalingServer)
    (Hkind : prop "type" message = Some (JString "join-room"))
    (Hnone : ∀ rid, prop "roomId" message = Some (JString rid) →
                    rid = "" ∨ Map_get rid (rooms st) = None) :
  handleMessage env ws message st = (st, [Send ws room_not_found]).
Proof.
  rewrite (handleMessage_join _ _ _ _ Hkind). unfold handleJoinRoom.
  destruct (prop "roomId" message) as [[| | |rid| |]|]; try done.
  case_bool_decide; [done|].
  destruct (Hnone rid eq_refl) as [?|Hfree]; [done|]. by rewrite Hfree.
Qed.

Lemma X4_join_unknown_room_witness :
  Map_get "NOWHERE" (rooms joined) = None
  ∧ handleMessage env0 3%nat (join_room "NOWHERE") joined
    = (joined, [Send 3%nat room_not_found]).
Proof.
  split; [vm_compute; reflexivity|].
  refine (X4_join_unknown_room env0 3%nat (join_room "NOWHERE") joined _ _).
  - reflexivity.
  - intros rid [= <-]. right. vm_compute. reflexivity.
Defined.

(** ** What a frame can reach *)

Lemma reaches_self_send st ws r0 msg : reaches st ws r0 (Send ws msg).
Proof. by left. Qed.

Lemma forward_to_viewer_in vs st wanted msg e :
  e ∈ forward_to_viewer st wanted msg vs → ∃ v, v ∈ vs ∧ e = Send v msg.
Proof.
  destruct (forward_to_viewer_spec st wanted msg vs)
    as [-> | (v & bv & Hin & _ & _ & _ & ->)]; [by intros ?%elem_of_nil|].
  intros ->%list_elem_of_singleton. by exists v.
Qed.

Lemma handleMessage_reaches env ws message st :
  ∃ r0 : option string,
    (r0 = None ∨ r0 = bound_room st ws ∨ r0 = named_room message)
    ∧ ∀ e, e ∈ (handleMessage env ws message st).2 → reaches st ws r0 e.
Proof.
  unfold handleMessage.
  destruct (negb (truthy (prop "type" message)));
    [exists None; split; [by left | by intros e ?%elem_of_nil]|].
  destruct (prop "type" message) as [[| | |kind| |]|];
    try (exists None; split; [by left | by intros e ?%elem_of_nil]).
  repeat case_bool_decide.
  - exists None. split; [by left|]. unfold handleCreateRoom.
    repeat case_match; simpl; intros e ->%list_elem_of_singleton;
      apply reaches_self_send.
  - exists (named_room message). split; [auto|]. unfold handleJoinRoom, named_room.
    destruct (prop "roomId" message) as [[| | |rid| |]|]; simpl;
      try (intros e ->%list_elem_of_singleton; apply reaches_self_send).
    case_bool_decide; simpl;
      [intros e ->%list_elem_of_singleton; apply reaches_self_send|].
    destruct (Map_get rid (rooms st)) as [room|] eqn:Hroom; simpl;
      [|intros e ->%list_elem_of_singleton; apply reaches_self_send].
    case_match; simpl;
      [intros e ->%list_elem_of_singleton; apply reaches_self_send|].
    intros e [->|He]%elem_of_cons; [apply reaches_self_send|].
    case_match; [|by apply elem_of_nil in He].
    apply list_elem_of_singleton in He as ->. right. exists rid.
    split; [done|]. exists room. auto.
  - exists (bound_room st ws). split; [auto|]. unfold handleLeaveRoom, bound_room.
    destruct (connections st !! ws) as [b|] eqn:Hb; simpl;
      [|by intros e ?%elem_of_nil].
    destruct (Map_get (roomId b) (rooms st)) as [room|] eqn:Hroom; simpl;
      [|by intros e ?%elem_of_nil].
    destruct (type b); simpl; [by intros e ?%elem_of_nil|].
    intros e He. case_match; [|by apply elem_of_nil in He].
    apply list_elem_of_singleton in He as ->. right. exists (roomId b).
    split; [done|]. exists room. auto.
  - exists (bound_room st ws). split; [auto|]. unfold handleOffer, bound_room.
    destruct (connections st !! ws) as [b|] eqn:Hb; simpl;
      [|by intros e ?%elem_of_nil].
    destruct (type b); simpl; [|by intros e ?%elem_of_nil].
    destruct (Map_get (roomId b) (rooms st)) as [room|] eqn:Hroom; simpl;
      [|by intros e ?%elem_of_nil].
    intros e (v & Hv & ->)%forward_to_viewer_in. right. exists (roomId b).
    split; [done|]. exists room. auto.
  - exists (bound_room st ws). split; [auto|]. unfold handleAnswer, bound_room.
    destruct (connections st !! ws) as [b|] eqn:Hb; simpl;
      [|by intros e ?%elem_of_nil].
    destruct (type b); simpl; [by intros e ?%elem_of_nil|].
    destruct (Map_get (roomId b) (rooms st)) as [room|] eqn:Hroom; simpl;
      [|by intros e ?%elem_of_nil].
    intros e He. case_match; [|by apply elem_of_nil in He].
    apply list_elem_of_singleton in He as ->. right. exists (roomId b).
    split; [done|]. exists room. auto.
  - exists (bound_room st ws). split; [auto|]. unfold handleIceCandidate, bound_room.
    destruct (connections st !! ws) as [b|] eqn:Hb; simpl;
      [|by intros e ?%elem_of_nil].
    destruct (Map_get (roomId b) (rooms st)) as [room|] eqn:Hroom; simpl;
      [|by intros e ?%elem_of_nil].
    destruct (type b); simpl.
    + intros e (v & Hv & ->)%forward_to_viewer_in. right. exists (roomId b).
      split; [done|]. exists room. auto.
    + intros e He. case_match; [|by apply elem_of_nil in He].
      apply list_elem_of_singleton in He as ->. right. exists (roomId b).
      split; [done|]. exists room. auto.
  - exists None. split; [by left | by intros e ?%elem_of_nil].
Qed.

(** X5.  Whatever one inbound frame from [ws] makes the server do on
    sockets, a close is a close of [ws], and a message goes to [ws] or to
    the host or a viewer of one room: the room [ws] is bound to or the room
    the message names.  No frame reaches a socket of any other room. *)
Theorem X5_frame_reach (env : Env) (ws : conn) (data : Frame) (st : SignalingServer) :
  ∃ r0 : option string,
    (r0 = None ∨ r0 = bound_room st ws ∨ r0 = JSON_parse data ≫= named_room)
    ∧ ∀ e, e ∈ (on_message env ws data st).2 → reaches st ws r0 e.
Proof.
  assert (Hclose : ∀ code reason, ∃ r0 : option string,
    (r0 = None ∨ r0 = bound_room st ws ∨ r0 = JSON_parse data ≫= named_room)
    ∧ ∀ e, e ∈ (ws_close ws code reason st).2 → reaches st ws r0 e).
  { intros code reason. exists None. split; [by left|].
    by intros e ->%list_elem_of_singleton. }
  unfold on_message.
  destruct (16384 <? data_length data)%N; [apply Hclose|].
  destruct (JSON_parse data) as [message|] eqn:Hparse; [|apply Hclose].
  destruct (handleMessage_reaches env ws message st) as (r0 & Hr0 & Hreach).
  destruct message; try apply Hclose; by exists r0.
Qed.

(** X6.  A socket with no binding can create a room or join one and
    nothing else: its leave-room, offer, answer and ice-candidate messages
    are dropped with no reply and no change. *)
Theorem X6_unbound_sender (env : Env) (ws : conn) (message : Json)
    (st : SignalingServer)
    (Hunbound : connections st !! ws = None)
    (Hcreate : prop "type" message ≠ Some (JString "create-room"))
    (Hjoin : prop "type" message ≠ Some (JString "join-room")) :
  handleMessage env ws message st = (st, []).
Proof.
  unfold handleMessage.
  destruct (negb (truthy (prop "type" message))); [done|].
  destruct (prop "type" message) as [[| | |kind| |]|]; try done.
  repeat case_bool_decide; try done; try congruence.
  - unfold handleLeaveRoom. by rewrite Hunbound.
  - unfold handleOffer. by rewrite Hunbound.
  - unfold handleAnswer. by rewrite Hunbound.
  - unfold handleIceCandidate. by rewrite Hunbound.
Qed.

Lemma X6_unbound_sender_witness :
  connections joined !! 3%nat = None
  ∧ handleMessage env0 3%nat an_offer joined = (joined, []).
Proof.
  split; [vm_compute; reflexivity|].
  refine (X6_unbound_sender env0 3%nat an_offer joined _ _ _).
  - vm_compute. reflexivity.
  - discriminate.
  - discriminate.
Defined.

(** ** The limits on rooms and viewers *)

Lemma within_limits_set_present st r room' :
  within_limits st → is_Some (Map_get r (rooms st)) →
  (Set_size (viewers room') ≤ 50)%nat →
  within_limits (with_rooms (Map_set r room' (rooms st)) st).
Proof.
  intros [Hrooms Hviewers] [old Hold] Hroom'. split; simpl.
  - rewrite Map_size_set_present; [done | by rewrite Hold].
  - intros r1 room1. destruct (decide (r = r1)) as [->|Hne].
    + rewrite Map_get_set_eq. intros [= <-].
      destruct (Hviewers _ _ Hold) as (? & ? & _). done.
    + rewrite Map_get_set_ne by done. apply Hviewers.
Qed.

Lemma within_limits_delete st r :
  within_limits st → within_limits (with_rooms (Map_delete r (rooms st)) st).
Proof.
  intros [Hrooms Hviewers]. split; simpl.
  - pose proof (Map_size_delete_le r (rooms st)). lia.
  - intros r1 room1. destruct (Map_get_delete r r1 (rooms st)) as [H|H];
      rewrite H; [done | apply Hviewers].
Qed.

Lemma handleCreateRoom_within_limits env ws message st :
  within_limits st → within_limits (handleCreateRoom env ws message st).1.
Proof.
  intros [Hrooms Hviewers]. unfold handleCreateRoom.
  destruct (prop "roomId" message) as [[| | |rid| |]|]; simpl; try done.
  destruct (bool_decide (rid = "") || (20 <? String.length rid)%nat) eqn:Hvalid;
    simpl; [done|].
  destruct (maxRooms st <=? Z.of_nat (Map_size (rooms st))) eqn:Hcap; simpl; [done|].
  destruct (Map_has rid (rooms st)) eqn:Hfree; simpl; [done|].
  apply Map_has_false in Hfree. apply Z.leb_gt in Hcap.
  apply orb_false_iff in Hvalid as [Hne Hlen].
  apply bool_decide_eq_false in Hne. apply Nat.ltb_ge in Hlen.
  split; simpl.
  - rewrite Map_size_set_absent by done. lia.
  - intros r1 room1. destruct (decide (rid = r1)) as [->|Hne1].
    + rewrite Map_get_set_eq. intros [= <-]. simpl. split_and!; [done | done | lia].
    + rewrite Map_get_set_ne by done. apply Hviewers.
Qed.

Lemma handleJoinRoom_within_limits env ws message st :
  within_limits st → within_limits (handleJoinRoom env ws message st).1.
Proof.
  intros Hlim. unfold handleJoinRoom.
  destruct (prop "roomId" message) as [[| | |rid| |]|]; try done.
  case_bool_decide; [done|].
  destruct (Map_get rid (rooms st)) as [room|] eqn:Hroom; [|done].
  destruct (50 <=? Set_size (viewers room))%nat eqn:Hfull; [done|].
  apply Nat.leb_gt in Hfull. cbn [fst].
  apply (within_limits_set_present st rid); [done | by rewrite Hroom |]. simpl.
  pose proof (Set_size_add_le ws (viewers room)). lia.
Qed.

Lemma remove_viewer_within_limits ws b room st :
  within_limits st → Map_get (roomId b) (rooms st) = Some room →
  within_limits
    (with_connections (delete ws (connections st))
       (with_rooms
          (Map_set (roomId b)
             (mkRoom (host room) (Set_delete ws (viewers room)) (createdAt room))
             (rooms st)) st)).
Proof.
  intros Hlim Hroom.
  apply (within_limits_set_present st (roomId b)); [done | by rewrite Hroom |].
  simpl. pose proof (Set_size_delete_le ws (viewers room)).
  destruct (proj2 Hlim _ _ Hroom) as (_ & _ & ?). lia.
Qed.

Lemma handleLeaveRoom_within_limits ws message st :
  within_limits st → within_limits (handleLeaveRoom ws message st).1.
Proof.
  intros Hlim. unfold handleLeaveRoom.
  destruct (connections st !! ws) as [b|]; simpl; [|done].
  destruct (Map_get (roomId b) (rooms st)) as [room|] eqn:Hroom; simpl; [|done].
  destruct (type b); simpl; [done|]. by apply remove_viewer_within_limits.
Qed.

Lemma handleDisconnection_within_limits ws st :
  within_limits st → within_limits (handleDisconnection ws st).1.
Proof.
  intros Hlim. unfold handleDisconnection.
  destruct (connections st !! ws) as [b|]; simpl; [|done].
  destruct (Map_get (roomId b) (rooms st)) as [room|] eqn:Hroom; simpl; [|done].
  destruct (type b); simpl.
  - by apply (within_limits_delete st).
  - by apply remove_viewer_within_limits.
Qed.

Lemma handleMessage_within_limits env ws message st :
  within_limits st → within_limits (handleMessage env ws message st).1.
Proof.
  intros Hlim. unfold handleMessage.
  destruct (negb (truthy (prop "type" message))); [done|].
  destruct (prop "type" message) as [[| | |kind| |]|]; try done.
  repeat case_bool_decide;
    rewrite ?handleOffer_state, ?handleAnswer_state, ?handleIceCandidate_state;
    try done.
  - by apply handleCreateRoom_within_limits.
  - by apply handleJoinRoom_within_limits.
  - by apply handleLeaveRoom_within_limits.
Qed.

Lemma on_message_within_limits env ws data st :
  within_limits st → within_limits (on_message env ws data st).1.
Proof.
  intros Hlim.
  assert (Hclose : ∀ code reason, within_limits (ws_close ws code reason st).1).
  { intros code reason. unfold ws_close. simpl. by destruct (is_open st ws). }
  unfold on_message.
  destruct (16384 <? data_length data)%N; [apply Hclose|].
  destruct (JSON_parse data) as [[| | | | |]|];
    first [by apply handleMessage_within_limits | apply Hclose].
Qed.

Lemma sweep_within_limits now entries st :
  within_limits st → within_limits (sweep now entries st).1.
Proof.
  revert st. induction entries as [|[rid room] rest IH]; intros st Hlim; [done|].
  sweep_step now rid room rest st; apply IH; try done.
  - by apply (within_limits_delete (with_sockets _ st)).
  - by apply within_limits_delete.
Qed.

Lemma sweep_maxRooms now entries st : maxRooms (sweep now entries st).1 = maxRooms st.
Proof.
  revert st. induction entries as [|[rid room] rest IH]; intros st; [done|].
  sweep_step now rid room rest st; by rewrite IH.
Qed.

Lemma handleMessage_maxRooms env ws message st :
  maxRooms (handleMessage env ws message st).1 = maxRooms st.
Proof.
  unfold handleMessage, handleCreateRoom, handleJoinRoom, handleLeaveRoom,
    handleOffer, handleAnswer, handleIceCandidate.
  by repeat case_match.
Qed.

Lemma on_message_maxRooms env ws data st :
  maxRooms (on_message env ws data st).1 = maxRooms st.
Proof.
  unfold on_message, ws_close.
  repeat case_match; simpl; try done; apply handleMessage_maxRooms.
Qed.

Lemma handleDisconnection_maxRooms ws st :
  maxRooms (handleDisconnection ws st).1 = maxRooms st.
Proof. unfold handleDisconnection. by repeat case_match. Qed.

Lemma step_limits st st' :
  step st st' → within_limits st → within_limits st' ∧ maxRooms st' = maxRooms st.
Proof.
  intros Hstep Hlim. destruct Hstep.
  - done.
  - split; [by apply on_message_within_limits | apply on_message_maxRooms].
  - split; [by apply handleDisconnection_within_limits|].
    unfold on_close. by rewrite handleDisconnection_maxRooms.
  - split; [by apply handleDisconnection_within_limits
           | apply handleDisconnection_maxRooms].
  - unfold ws_terminate. by destruct (readyState st ws).
  - split; [by apply sweep_within_limits | apply sweep_maxRooms].
Qed.

Lemma reachable_limits limit st :
  reachable limit st → within_limits st ∧ maxRooms st = limit.
Proof.
  induction 1 as [|st st' _ [IHlim IHmax] Hstep].
  - split; [|done]. split; simpl; [lia | done].
  - destruct (step_limits st st' Hstep IHlim) as [Hlim Hmax].
    split; [done | congruence].
Qed.

(** X7.  On every server of a run the Room Table holds no more rooms than
    the configured maximum (none when the maximum is negative); and with the
    table at that number, a create-room with an acceptable identifier is
    answered [Maximum rooms reached] and changes nothing. *)
Theorem X7_room_limit (limit : Z) (st : SignalingServer)
    (Hrun : reachable limit st) :
  Z.of_nat (Map_size (rooms st)) ≤ Z.max 0 limit
  ∧ (∀ env ws message rid,
       prop "type" message = Some (JString "create-room") →
       prop "roomId" message = Some (JString rid) →
       rid ≠ "" → (String.length rid ≤ 20)%nat →
       Z.of_nat (Map_size (rooms st)) = Z.max 0 limit →
       handleMessage env ws message st
       = (st, [Send ws (error_msg "Maximum rooms reached")])).
Proof.
  destruct (reachable_limits limit st Hrun) as [[Hrooms _] Hmax].
  split; [by rewrite <- Hmax|].
  intros env ws message rid Hkind Hrid Hne Hlen Hfull.
  rewrite (handleMessage_create _ _ _ _ Hkind). unfold handleCreateRoom.
  rewrite Hrid, valid_roomId by done.
  by rewrite (proj2 (Z.leb_le _ _)) by lia.
Qed.

Lemma X7_room_limit_witness :
  reachable 1 single_room_taken
  ∧ handleMessage env0 2%nat (create_room "OTHER") single_room_taken
    = (single_room_taken, [Send 2%nat (error_msg "Maximum rooms reached")]).
Proof.
  split; [apply reachable_single_room_taken|].
  refine (proj2 (X7_room_limit 1 single_room_taken reachable_single_room_taken)
            env0 2%nat (create_room "OTHER") "OTHER" _ _ _ _ _).
  - reflexivity.
  - reflexivity.
  - discriminate.
  - simpl. lia.
  - vm_compute. reflexivity.
Defined.

(** X8.  On every server of a run no room has more than 50 viewers; and a
    join-room for a room that has 50 is answered [Room is full] and changes
    nothing. *)
Theorem X8_viewer_limit (limit : Z) (st : SignalingServer) (rid : string)
    (room : Room)
    (Hrun : reachable limit st) (Hroom : Map_get rid (rooms st) = Some room) :
  (Set_size (viewers room) ≤ 50)%nat
  ∧ (∀ env ws message,
       prop "type" message = Some (JString "join-room") →
       prop "roomId" message = Some (JString rid) →
       Set_size (viewers room) = 50%nat →
       handleMessage env ws message st = (st, [Send ws (error_msg "Room is full")])).
Proof.
  destruct (reachable_limits limit st Hrun) as [[_ Hviewers] _].
  destruct (Hviewers _ _ Hroom) as (Hne & _ & Hcap).
  split; [done|].
  intros env ws message Hkind Hrid Hfull.
  rewrite (handleMessage_join _ _ _ _ Hkind). unfold handleJoinRoom.
  rewrite Hrid, bool_decide_eq_false_2, Hroom by done. by rewrite Hfull.
Qed.

Lemma X8_viewer_limit_witness :
  reachable 100 joined
  ∧ (Set_size (viewers (mkRoom 1%nat [2%nat] 1700000000000)) ≤ 50)%nat.
Proof.
  split; [apply reachable_joined|].
  refine (proj1 (X8_viewer_limit 100 joined "ABCD1234"
                   (mkRoom 1%nat [2%nat] 1700000000000) reachable_joined _)).
  vm_compute. reflexivity.
Defined.

(** X9.  On every server of a run every key of the Room Table is a string
    of 1 to 20: what create-room refuses never gets into the table. *)
Theorem X9_room_ids_valid (limit : Z) (st : SignalingServer) (rid : string)
    (room : Room)
    (Hrun : reachable limit st) (Hroom : Map_get rid (rooms st) = Some room) :
  rid ≠ "" ∧ (String.length rid ≤ 20)%nat.
Proof.
  destruct (reachable_limits limit st Hrun) as [[_ Hkeys] _].
  destruct (Hkeys _ _ Hroom) as (? & ? & _). done.
Qed.

Lemma X9_room_ids_valid_witness :
  reachable 100 joined ∧ "ABCD1234" ≠ "" ∧ (String.length "ABCD1234" ≤ 20)%nat.
Proof.
  split; [apply reachable_joined|].
  refine (X9_room_ids_valid 100 joined "ABCD1234"
            (mkRoom 1%nat [2%nat] 1700000000000) reachable_joined _).
  vm_compute. reflexivity.
Defined.

(** ** Round trips *)

Lemma server_eta st :
  mkServer (rooms st) (connections st) (sockets st) (maxRooms st) = st.
Proof. by destruct st. Qed.

Lemma room_eta room : mkRoom (host room) (viewers room) (createdAt room) = room.
Proof. by destruct room. Qed.

(** X10.  A socket with no binding that creates a room and then
    disconnects leaves the server exactly as it found it, Room Table and
    Binding Table alike, and its disconnection sends nothing. *)
Theorem X10_create_then_disconnect (env : Env) (ws : conn) (message : Json)
    (st : SignalingServer) (rid : string)
    (Hkind : prop "type" message = Some (JString "create-room"))
    (Hrid : prop "roomId" message = Some (JString rid))
    (Hne : rid ≠ "") (Hlen : (String.length rid ≤ 20)%nat)
    (Hcap : Z.of_nat (Map_size (rooms st)) < maxRooms st)
    (Hfree : Map_get rid (rooms st) = None)
    (Hunbound : connections st !! ws = None) :
  handleDisconnection ws (handleMessage env ws message st).1 = (st, []).
Proof.
  rewrite (handleMessage_create _ _ _ _ Hkind).
  rewrite (handleCreateRoom_success _ _ _ _ rid) by done. cbn [fst].
  rewrite (handleDisconnection_host ws (mkBinding host_role rid None)
             (mkRoom ws [] (now env))); simpl;
    [| apply lookup_insert_eq | done | apply Map_get_set_eq].
  unfold with_connections, with_rooms. simpl.
  rewrite delete_insert_id, Map_delete_set_absent by done.
  by rewrite server_eta.
Qed.

Lemma X10_create_then_disconnect_witness :
  connections joined !! 3%nat = None
  ∧ handleDisconnection 3%nat (handleMessage env0 3%nat (create_room "MINE") joined).1
    = (joined, []).
Proof.
  split; [vm_compute; reflexivity|].
  refine (X10_create_then_disconnect env0 3%nat (create_room "MINE") joined "MINE"
            _ _ _ _ _ _ _).
  - reflexivity.
  - reflexivity.
  - discriminate.
  - simpl. lia.
  - vm_compute. reflexivity.
  - vm_compute. reflexivity.
  - vm_compute. reflexivity.
Defined.

(** X11.  A socket with no binding that joins a room it is not in and then
    leaves it leaves the server exactly as it found it; on the leave the
    host, if open, is sent viewer-left with the identifier the join gave. *)
Theorem X11_join_then_leave (env : Env) (ws : conn) (message leave : Json)
    (st : SignalingServer) (rid : string) (room : Room)
    (Hkind : prop "type" message = Some (JString "join-room"))
    (Hrid : prop "roomId" message = Some (JString rid))
    (Hne : rid ≠ "")
    (Hroom : Map_get rid (rooms st) = Some room)
    (Hcap : (Set_size (viewers room) < 50)%nat)
    (Hnew : ws ∉ viewers room)
    (Hunbound : connections st !! ws = None) :
  handleLeaveRoom ws leave (handleMessage env ws message st).1
  = (st, if is_open st (host room)
         then [Send (host room) (viewer_left (Some (generateViewerId (random env))))]
         else []).
Proof.
  rewrite (handleMessage_join _ _ _ _ Hkind).
  rewrite (handleJoinRoom_success _ _ _ _ rid room) by done.
  unfold handleLeaveRoom. simpl.
  rewrite lookup_insert_eq. simpl. rewrite Map_get_set_eq. simpl.
  unfold with_connections, with_rooms. simpl.
  rewrite delete_insert_id, Map_set_set, Set_delete_add by done.
  by rewrite room_eta, Map_set_id, server_eta by done.
Qed.

Lemma X11_join_then_leave_witness :
  connections joined !! 3%nat = None
  ∧ handleLeaveRoom 3%nat leave_room
      (handleMessage env0 3%nat (join_room "ABCD1234") joined).1
    = (joined, [Send 1%nat (viewer_left (Some "viewer_k3x9a2bq"))]).
Proof.
  split; [vm_compute; reflexivity|].
  refine (X11_join_then_leave env0 3%nat (join_room "ABCD1234") leave_room joined
            "ABCD1234" (mkRoom 1%nat [2%nat] 1700000000000) _ _ _ _ _ _ _).
  - reflexivity.
  - reflexivity.
  - discriminate.
  - vm_compute. reflexivity.
  - simpl. lia.
  - intros [[=]|[]%elem_of_nil]%elem_of_cons.
  - vm_compute. reflexivity.
Defined.

(** ** A viewer joins, the host offers *)

Lemma handleMessage_offer env ws message st :
  prop "type" message = Some (JString "offer") →
  handleMessage env ws message st = handleOffer ws message st.
Proof. intros Hk. unfold handleMessage. by rewrite Hk. Qed.

Lemma strict_eq_string (a : option string) (s : string) :
  strict_eq a (Some (JString s)) = true ↔ a = Some s.
Proof.
  destruct a as [s'|]; simpl; [|done].
  rewrite bool_decide_eq_true. split; congruence.
Qed.

(** X12.  After a socket has joined the room of a host, an offer from that
    host carrying the [viewerId] the join gave is delivered to that socket
    and to nobody else, as it was received, provided the socket is open and
    no other viewer of the room carries the same identifier. *)
Theorem X12_offer_after_join (env env' : Env) (h ws : conn) (join offer : Json)
    (st : SignalingServer) (rid : string) (room : Room) (bh : Binding)
    (Hjoin : prop "type" join = Some (JString "join-room"))
    (Hrid : prop "roomId" join = Some (JString rid))
    (Hne : rid ≠ "")
    (Hroom : Map_get rid (rooms st) = Some room)
    (Hcap : (Set_size (viewers room) < 50)%nat)
    (Hhost : connections st !! h = Some bh)
    (Hrole : type bh = host_role) (Hbound : roomId bh = rid)
    (Hother : h ≠ ws)
    (Hopen : is_open st ws = true)
    (Hoffer : prop "type" offer = Some (JString "offer"))
    (Hvid : prop "viewerId" offer = Some (JString (generateViewerId (random env))))
    (Huniq : ∀ w bw, w ∈ viewers room → w ≠ ws → connections st !! w = Some bw →
                     viewerId bw ≠ Some (generateViewerId (random env))) :
  (handleMessage env' h offer (handleMessage env ws join st).1).2
  = [Send ws (offer_msg (prop "offer" offer))].
Proof.
  rewrite (handleMessage_offer _ _ _ _ Hoffer).
  rewrite (handleMessage_join _ _ _ _ Hjoin).
  rewrite (handleJoinRoom_success _ _ _ _ rid room) by done.
  unfold handleOffer. simpl.
  rewrite lookup_insert_ne, Hhost, Hrole, Hbound, Map_get_set_eq by done. simpl.
  rewrite Hvid.
  eapply forward_to_viewer_delivers.
  - apply elem_of_Set_add. by left.
  - simpl. apply lookup_insert_eq.
  - by apply (proj2 (strict_eq_string _ _)).
  - done.
  - intros w bw Hw. simpl. destruct (decide (w = ws)) as [->|Hneq]; [done|].
    rewrite lookup_insert_ne by done. intros Hbw Heq.
    apply (proj1 (strict_eq_string _ _)) in Heq.
    apply elem_of_Set_add in Hw as [?|Hw]; [done|].
    by destruct (Huniq w bw).
Qed.

Lemma X12_offer_after_join_witness :
  connections hosted !! 1%nat = Some (mkBinding host_role "ABCD1234" None)
  ∧ (handleMessage env0 1%nat an_offer
       (handleMessage env0 2%nat (join_room "ABCD1234") hosted).1).2
    = [Send 2%nat (offer_msg (prop "offer" an_offer))].
Proof.
  split; [vm_compute; reflexivity|].
  refine (X12_offer_after_join env0 env0 1%nat 2%nat (join_room "ABCD1234") an_offer
            hosted "ABCD1234" (mkRoom 1%nat [] 1700000000000)
            (mkBinding host_role "ABCD1234" None) _ _ _ _ _ _ _ _ _ _ _ _ _).
  - reflexivity.
  - reflexivity.
  - discriminate.
  - vm_compute. reflexivity.
  - simpl. lia.
  - vm_compute. reflexivity.
  - reflexivity.
  - reflexivity.
  - discriminate.
  - vm_compute. reflexivity.
  - reflexivity.
  - reflexivity.
  - intros w bw []%elem_of_nil.
Defined.

(** ** What the sweep keeps, and what it leaves behind *)

Lemma sweep_survivor now entries st rid room :
  Map_get rid (rooms st) = Some room →
  (∀ room', (rid, room') ∈ entries → room' = room) →
  is_open st (host room) = true → is_stale now room = false →
  (∀ r' room', (r', room') ∈ entries → is_stale now room' = true →
               host room' ≠ host room) →
  Map_get rid (rooms (sweep now entries st).1) = Some room
  ∧ is_open (sweep now entries st).1 (host room) = true.
Proof.
  revert st. induction entries as [|[r0 room0] rest IH];
    intros st Hroom Hsnap Hopen Hfresh Hhosts; [done|].
  assert (Hsnap' : ∀ room', (rid, room') ∈ rest → room' = room)
    by (intros room' Hin; apply Hsnap; by apply list_elem_of_further).
  assert (Hhosts' : ∀ r' room', (r', room') ∈ rest → is_stale now room' = true →
                                host room' ≠ host room)
    by (intros r' room' Hin; apply (Hhosts r'); by apply list_elem_of_further).
  assert (Hhead : r0 = rid → room0 = room)
    by (intros ->; apply Hsnap, list_elem_of_here).
  sweep_step now r0 room0 rest st.
  - assert (Hh : host room0 ≠ host room)
      by (apply (Hhosts r0); [apply list_elem_of_here | done]).
    assert (Hr : r0 ≠ rid) by (intros Heq; rewrite (Hhead Heq) in *; congruence).
    apply IH; try done.
    + unfold after_expiry. simpl. by rewrite Map_get_delete_ne.
    + rewrite is_open_after_expiry_other; [done | congruence].
  - by apply IH.
  - assert (Hr : r0 ≠ rid) by (intros Heq; rewrite (Hhead Heq) in *; congruence).
    apply IH; try done. simpl. by rewrite Map_get_delete_ne.
Qed.

(** X13.  The sweep keeps a room as it is when the host of the room is open,
    the room is not past the threshold, and the host is not also the host of
    a room that is past the threshold; the host is still open after the
    sweep. *)
Theorem X13_sweep_keeps (now : Z) (st : SignalingServer) (rid : string) (room : Room)
    (Hwf : well_formed st)
    (Hroom : Map_get rid (rooms st) = Some room)
    (Hopen : is_open st (host room) = true)
    (Hfresh : ¬ stale now room)
    (Hhosts : ∀ r' room', Map_get r' (rooms st) = Some room' → stale now room' →
                          host room' ≠ host room) :
  Map_get rid (rooms (cleanupStaleRooms now st).1) = Some room
  ∧ is_open (cleanupStaleRooms now st).1 (host room) = true.
Proof.
  destruct Hwf as [Hkeys _]. unfold cleanupStaleRooms.
  apply sweep_survivor; try done.
  - intros room' Hin. apply (Map_get_unique _ _ _ Hkeys) in Hin. congruence.
  - rewrite stale_is_stale in Hfresh. by destruct (is_stale now room).
  - intros r' room' Hin Hstale. apply (Hhosts r' room').
    + by apply Map_get_unique.
    + by apply stale_is_stale.
Qed.

Lemma X13_sweep_keeps_witness :
  well_formed joined
  ∧ Map_get "ABCD1234" (rooms (cleanupStaleRooms 1700000000001 joined).1)
    = Some (mkRoom 1%nat [2%nat] 1700000000000).
Proof.
  assert (Hwf : well_formed joined)
    by (eapply reachable_well_formed, reachable_joined).
  split; [exact Hwf|].
  refine (proj1 (X13_sweep_keeps 1700000000001 joined "ABCD1234"
            (mkRoom 1%nat [2%nat] 1700000000000) Hwf _ _ _ _)).
  - vm_compute. reflexivity.
  - vm_compute. reflexivity.
  - intros [_ Hlt]. vm_compute in Hlt. discriminate.
  - intros r' room' Hget [_ Hlt].
    assert (r' = "ABCD1234" ∧ room' = mkRoom 1%nat [2%nat] 1700000000000) as [-> ->].
    { change (rooms joined) with [("ABCD1234", mkRoom 1%nat [2%nat] 1700000000000)] in Hget.
      simpl in Hget. destruct (decide ("ABCD1234" = r')) as [<-|]; [|done].
      by injection Hget as <-. }
    vm_compute in Hlt. discriminate.
Defined.

(** X14.  A sweep over a table in which every host is open and no room is
    past the threshold changes nothing and closes nothing. *)
Theorem X14_sweep_idle (now : Z) (st : SignalingServer)
    (Hall : ∀ r room, (r, room) ∈ rooms st →
              is_open st (host room) = true ∧ ¬ stale now room) :
  cleanupStaleRooms now st = (st, []).
Proof.
  unfold cleanupStaleRooms. revert Hall. generalize (rooms st) at 1 2.
  intros entries. induction entries as [|[rid room] rest IH]; intros Hall; [done|].
  destruct (Hall rid room (list_elem_of_here _ _)) as [Hopen Hfresh].
  rewrite stale_is_stale in Hfresh.
  rewrite sweep_kept; [|done | by destruct (is_stale now room)].
  apply IH. intros r' room' Hin. apply (Hall r'). by apply list_elem_of_further.
Qed.

Lemma X14_sweep_idle_witness :
  is_open joined 1%nat = true
  ∧ cleanupStaleRooms 1700000000001 joined = (joined, []).
Proof.
  split; [vm_compute; reflexivity|].
  refine (X14_sweep_idle 1700000000001 joined _).
  intros r room Hin.
  change (rooms joined) with [("ABCD1234", mkRoom 1%nat [2%nat] 1700000000000)] in Hin.
  apply list_elem_of_singleton in Hin. injection Hin as -> ->.
  split; [vm_compute; reflexivity|].
  intros [_ Hlt]. vm_compute in Hlt. discriminate.
Defined.

(** X15.  A room that the sweep removes is removed in silence.  The sweep
    sends no message, and a socket bound to a room whose host is not open or
    which is past the threshold keeps its binding through the sweep; when it
    disconnects afterwards nothing is sent and nothing changes, so the
    binding stays in the Binding Table. *)
Theorem X15_swept_bindings_stay (now : Z) (ws : conn) (b : Binding) (room : Room)
    (st : SignalingServer)
    (Hb : connections st !! ws = Some b)
    (Hroom : Map_get (roomId b) (rooms st) = Some room)
    (Hswept : is_open st (host room) = false ∨ stale now room) :
  (∀ to msg, Send to msg ∉ (cleanupStaleRooms now st).2)
  ∧ connections (cleanupStaleRooms now st).1 !! ws = Some b
  ∧ handleDisconnection ws (cleanupStaleRooms now st).1
    = ((cleanupStaleRooms now st).1, []).
Proof.
  assert (Hgone : Map_get (roomId b) (rooms (cleanupStaleRooms now st).1) = None).
  { apply Map_get_elem in Hroom. unfold cleanupStaleRooms.
    destruct Hswept as [Hdead|Hstale%stale_is_stale].
    - by eapply sweep_dead.
    - by eapply sweep_stale. }
  assert (Hkept : connections (cleanupStaleRooms now st).1 !! ws = Some b)
    by (unfold cleanupStaleRooms; by rewrite sweep_connections).
  split_and!; [|done|].
  - intros to msg Hin. apply sweep_events in Hin as [c [=]].
  - unfold handleDisconnection. by rewrite Hkept, Hgone.
Qed.

Lemma X15_swept_bindings_stay_witness :
  connections joined !! 2%nat
    = Some (mkBinding viewer_role "ABCD1234" (Some "viewer_k3x9a2bq"))
  ∧ connections (cleanupStaleRooms expiry_time joined).1 !! 2%nat
    = Some (mkBinding viewer_role "ABCD1234" (Some "viewer_k3x9a2bq")).
Proof.
  split; [vm_compute; reflexivity|].
  refine (proj1 (proj2 (X15_swept_bindings_stay expiry_time 2%nat
            (mkBinding viewer_role "ABCD1234" (Some "viewer_k3x9a2bq"))
            (mkRoom 1%nat [2%nat] 1700000000000) joined _ _ _))).
  - vm_compute. reflexivity.
  - vm_compute. reflexivity.
  - right. split; [discriminate | reflexivity].
Defined.

(** * The connection registry *)

Lemma length_Set_delete_in {A} `{EqDecision A} (x : A) (s : list A) :
  NoDup s → x ∈ s → length s = S (length (Set_delete x s)).
Proof.
  induction 1 as [|y s Hy Hs IH]; [by intros ?%elem_of_nil|].
  simpl. destruct (decide (y = x)) as [->|Hne].
  - intros _. by rewrite Set_delete_absent.
  - intros [?|Hin]%elem_of_cons; [congruence|]. simpl. by rewrite IH.
Qed.

Lemma length_Set_add_new {A} `{EqDecision A} (x : A) (s : list A) :
  x ∉ s → length (Set_add x s) = S (length s).
Proof.
  intros Hnew. unfold Set_add, Set_has.
  rewrite bool_decide_eq_false_2, length_app by done. simpl. lia.
Qed.

Lemma Set_has_true {A} `{EqDecision A} (x : A) (s : list A) :
  Set_has x s = true ↔ x ∈ s.
Proof. unfold Set_has. apply bool_decide_eq_true. Qed.

Lemma Set_has_false {A} `{EqDecision A} (x : A) (s : list A) :
  Set_has x s = false ↔ x ∉ s.
Proof. unfold Set_has. apply bool_decide_eq_false. Qed.

Lemma heartbeat_clients_frame cs reg :
  clients (heartbeat_clients cs reg).1 = clients reg
  ∧ listening (heartbeat_clients cs reg).1 = listening reg
  ∧ connectionCount (heartbeat_clients cs reg).1 = connectionCount reg
  ∧ maxConnections (heartbeat_clients cs reg).1 = maxConnections reg
  ∧ same_tables (signaling reg) (signaling (heartbeat_clients cs reg).1).
Proof.
  unfold same_tables.
  revert reg. induction cs as [|ws cs IH]; intros reg; [by repeat split|].
  simpl. destruct (negb (default false (isAlive reg !! ws))); cbn [fst].
  - destruct (IH (with_signaling (ws_terminate ws (signaling reg)) reg))
      as (H1 & H2 & H3 & H4 & H5 & H6).
    rewrite H1, H2, H3, H4, H5, H6. simpl.
    unfold ws_terminate. by destruct (readyState (signaling reg) ws).
  - destruct (IH (with_isAlive (<[ws := false]> (isAlive reg)) reg))
      as (H1 & H2 & H3 & H4 & H5 & H6).
    by rewrite H1, H2, H3, H4, H5, H6.
Qed.

Lemma registry_step_ok reg reg' :
  registry_step reg reg' → registry_ok reg → registry_ok reg'.
Proof.
  intros Hstep (Hclients & Hlistening & Hsub & Hcount). destruct Hstep.
  - unfold wss_connection, registry_ok.
    destruct (maxConnections reg <=? connectionCount reg);
      cbn [fst clients listening connectionCount].
    + split_and!; try done; [by apply NoDup_Set_add|].
      intros w Hw. apply elem_of_Set_add. right. by apply Hsub.
    + assert (Hnew : ws ∉ listening reg) by (intros Hin; by apply Hsub in Hin).
      split_and!; try (by apply NoDup_Set_add).
      * intros w [->|Hw]%elem_of_Set_add; apply elem_of_Set_add; [by left|].
        right. by apply Hsub.
      * rewrite length_Set_add_new by done. lia.
  - unfold ws_message. by destruct (Set_has ws (listening reg)).
  - unfold ws_pong. by destruct (Set_has ws (listening reg)).
  - unfold ws_error. by destruct (Set_has ws (listening reg)).
  - unfold ws_closed, registry_ok.
    destruct (Set_has ws (listening reg)) eqn:Hl;
      cbn [fst clients listening connectionCount].
    + apply Set_has_true in Hl.
      split_and!; try (by apply NoDup_Set_delete).
      * intros w [Hne Hw]%elem_of_Set_delete. apply elem_of_Set_delete.
        split; [done | by apply Hsub].
      * rewrite (length_Set_delete_in ws (listening reg)) in Hcount by done. lia.
    + apply Set_has_false in Hl.
      split_and!; try done; [by apply NoDup_Set_delete|].
      intros w Hw. apply elem_of_Set_delete. split; [congruence | by apply Hsub].
  - unfold heartbeat, registry_ok.
    by destruct (heartbeat_clients_frame (clients reg) reg) as (-> & -> & -> & _).
  - done.
Qed.

Lemma registry_step_limit reg reg' :
  registry_step reg reg' →
  connectionCount reg ≤ Z.max 0 (maxConnections reg) →
  connectionCount reg' ≤ Z.max 0 (maxConnections reg')
  ∧ maxConnections reg' = maxConnections reg.
Proof.
  intros Hstep Hle. destruct Hstep.
  - unfold wss_connection.
    destruct (maxConnections reg <=? connectionCount reg) eqn:Hfull;
      cbn [fst]; simpl; [done|].
    apply Z.leb_gt in Hfull. lia.
  - unfold ws_message. by destruct (Set_has ws (listening reg)).
  - unfold ws_pong. by destruct (Set_has ws (listening reg)).
  - unfold ws_error. by destruct (Set_has ws (listening reg)).
  - unfold ws_closed. destruct (Set_has ws (listening reg)); cbn [fst]; simpl;
      [|done]. lia.
  - unfold heartbeat.
    by destruct (heartbeat_clients_frame (clients reg) reg) as (_ & _ & -> & -> & _).
  - done.
Qed.

Lemma registry_reachable_ok maxc maxr reg :
  registry_reachable maxc maxr reg →
  registry_ok reg
  ∧ connectionCount reg ≤ Z.max 0 (maxConnections reg)
  ∧ maxConnections reg = maxc.
Proof.
  induction 1 as [|reg reg' _ (IHok & IHle & IHmax) Hstep].
  - split_and!; [|simpl; lia | done].
    split_and!; [constructor | constructor | by intros ws ?%elem_of_nil | done].
  - destruct (registry_step_limit reg reg' Hstep IHle) as [Hle Hmax].
    split_and!; [by eapply registry_step_ok | done | congruence].
Qed.

(** X16.  Through every run of the server [connectionCount] is the number
    of sockets that were let in and have not closed, and it never exceeds
    [maxConnections] (it stays 0 when that is negative). *)
Theorem X16_connection_limit (maxc maxr : Z) (reg : Registry)
    (Hrun : registry_reachable maxc maxr reg) :
  connectionCount reg = Z.of_nat (length (listening reg))
  ∧ connectionCount reg ≤ Z.max 0 maxc.
Proof.
  destruct (registry_reachable_ok maxc maxr reg Hrun)
    as ((_ & _ & _ & Hcount) & Hle & Hmax).
  split; [done | by rewrite <- Hmax].
Qed.

Lemma registry_reachable_one_seat_taken : registry_reachable 1 100 one_seat_taken.
Proof.
  eapply registry_next; [eapply registry_next; [apply registry_new|]|].
  - apply rstep_connection. apply not_elem_of_nil.
  - apply rstep_connection. vm_compute. intros [[=]|[]%elem_of_nil]%elem_of_cons.
Qed.

Lemma X16_connection_limit_witness :
  registry_reachable 1 100 one_seat_taken
  ∧ connectionCount one_seat_taken = 1
  ∧ connectionCount one_seat_taken ≤ Z.max 0 1.
Proof.
  split; [apply registry_reachable_one_seat_taken|].
  split; [vm_compute; reflexivity|].
  apply (X16_connection_limit 1 100 one_seat_taken registry_reachable_one_seat_taken).
Defined.

(** X17.  A socket that connects when [connectionCount] has reached
    [maxConnections] is closed with 1013 and gets no listener: the count,
    the rooms and the bindings stay as they were, and a frame that the
    socket sends afterwards is not handled at all. *)
Theorem X17_connection_refused (env : Env) (ws : conn) (data : Frame)
    (reg : Registry)
    (Hfull : maxConnections reg ≤ connectionCount reg)
    (Hnew : ws ∉ listening reg) :
  (wss_connection ws reg).2 = [OnSocket (Close ws 1013 "Server overloaded")]
  ∧ connectionCount (wss_connection ws reg).1 = connectionCount reg
  ∧ same_tables (signaling reg) (signaling (wss_connection ws reg).1)
  ∧ ws_message env ws data (wss_connection ws reg).1 = ((wss_connection ws reg).1, []).
Proof.
  unfold wss_connection. rewrite (proj2 (Z.leb_le _ _) Hfull). cbn [fst snd].
  split_and!; try done.
  - unfold ws_close. simpl. unfold same_tables. simpl.
    by destruct (is_open (on_connection ws (signaling reg)) ws).
  - unfold ws_message. simpl. by rewrite (proj2 (Set_has_false _ _) Hnew).
Qed.

Lemma X17_connection_refused_witness :
  maxConnections one_seat ≤ connectionCount one_seat
  ∧ (wss_connection 2%nat one_seat).2 = [OnSocket (Close 2%nat 1013 "Server overloaded")].
Proof.
  split; [vm_compute; discriminate|].
  refine (proj1 (X17_connection_refused env0 2%nat (mkFrame 1 None) one_seat _ _)).
  - vm_compute. discriminate.
  - vm_compute. intros [[=]|[]%elem_of_nil]%elem_of_cons.
Defined.

(** ** The heartbeat *)

Lemma is_open_ws_terminate_mono ws st c :
  is_open (ws_terminate ws st) c = true → is_open st c = true.
Proof.
  unfold ws_terminate. destruct (readyState st ws) eqn:Hws; try done;
    unfold is_open, readyState; simpl;
    (destruct (decide (c = ws)) as [->|Hne];
     [rewrite lookup_insert_eq; simpl; by rewrite bool_decide_eq_true
     |by rewrite lookup_insert_ne]).
Qed.

Lemma is_open_ws_terminate ws st : is_open (ws_terminate ws st) ws = false.
Proof.
  unfold ws_terminate. destruct (readyState st ws) eqn:Hws;
    [..|by unfold is_open; rewrite Hws];
    unfold is_open, readyState; simpl; by rewrite lookup_insert_eq.
Qed.

Lemma readyState_ws_terminate_other ws st c :
  c ≠ ws → readyState (ws_terminate ws st) c = readyState st c.
Proof.
  intros Hne. unfold ws_terminate. destruct (readyState st ws); try done;
    unfold readyState; simpl; by rewrite lookup_insert_ne.
Qed.

Lemma alive_cleared ws w reg :
  alive (with_isAlive (<[ws := false]> (isAlive reg)) reg) w
  = if decide (w = ws) then false else alive reg w.
Proof.
  unfold alive. simpl. destruct (decide (w = ws)) as [->|Hne].
  - by rewrite lookup_insert_eq.
  - by rewrite lookup_insert_ne.
Qed.

(** One socket of the heartbeat, by cases. *)
Lemma heartbeat_terminates ws rest reg :
  alive reg ws = false →
  heartbeat_clients (ws :: rest) reg =
    ((heartbeat_clients rest (with_signaling (ws_terminate ws (signaling reg)) reg)).1,
     Terminate ws
     :: (heartbeat_clients rest (with_signaling (ws_terminate ws (signaling reg)) reg)).2).
Proof. unfold alive. intros Ha. simpl. by rewrite Ha. Qed.

Lemma heartbeat_pings ws rest reg :
  alive reg ws = true →
  heartbeat_clients (ws :: rest) reg =
    ((heartbeat_clients rest (with_isAlive (<[ws := false]> (isAlive reg)) reg)).1,
     Ping ws
     :: (heartbeat_clients rest (with_isAlive (<[ws := false]> (isAlive reg)) reg)).2).
Proof. unfold alive. intros Ha. simpl. by rewrite Ha. Qed.

Ltac heartbeat_step ws rest reg :=
  let Ha := fresh "Halive" in
  destruct (alive reg ws) eqn:Ha;
    [ rewrite (heartbeat_pings ws rest reg Ha)
    | rewrite (heartbeat_terminates ws rest reg Ha) ];
    cbn [fst snd].

Lemma heartbeat_stays_cleared cs reg w :
  alive reg w = false → alive (heartbeat_clients cs reg).1 w = false.
Proof.
  revert reg. induction cs as [|ws cs IH]; intros reg Hw; [done|].
  heartbeat_step ws cs reg; apply IH; [|done].
  rewrite alive_cleared. by destruct (decide (w = ws)).
Qed.

Lemma heartbeat_clears cs reg w :
  w ∈ cs → alive (heartbeat_clients cs reg).1 w = false.
Proof.
  revert reg. induction cs as [|ws cs IH]; intros reg Hin;
    [by apply elem_of_nil in Hin|].
  apply elem_of_cons in Hin as [->|Hin].
  - heartbeat_step ws cs reg; apply heartbeat_stays_cleared; [|done].
    rewrite alive_cleared. by rewrite decide_True.
  - heartbeat_step ws cs reg; by apply IH.
Qed.

Lemma heartbeat_open_mono cs reg w :
  is_open (signaling (heartbeat_clients cs reg).1) w = true →
  is_open (signaling reg) w = true.
Proof.
  revert reg. induction cs as [|ws cs IH]; intros reg; [done|].
  heartbeat_step ws cs reg; intros H%IH; [exact H|].
  eapply is_open_ws_terminate_mono. exact H.
Qed.

Lemma heartbeat_reaps cs reg w :
  w ∈ cs → alive reg w = false →
  is_open (signaling (heartbeat_clients cs reg).1) w = false
  ∧ Terminate w ∈ (heartbeat_clients cs reg).2.
Proof.
  revert reg. induction cs as [|ws cs IH]; intros reg Hin Hw;
    [by apply elem_of_nil in Hin|].
  apply elem_of_cons in Hin as [->|Hin].
  - rewrite (heartbeat_terminates ws cs reg Hw). cbn [fst snd].
    split; [|apply list_elem_of_here].
    destruct (is_open (signaling (heartbeat_clients cs _).1) ws) eqn:Ho; [|done].
    apply heartbeat_open_mono in Ho. simpl in Ho.
    by rewrite is_open_ws_terminate in Ho.
  - heartbeat_step ws cs reg.
    + destruct (IH (with_isAlive (<[ws := false]> (isAlive reg)) reg) Hin) as [Ho Ht].
      { rewrite alive_cleared. by destruct (decide (w = ws)). }
      split; [done | by apply list_elem_of_further].
    + destruct (IH (with_signaling (ws_terminate ws (signaling reg)) reg) Hin Hw)
        as [Ho Ht].
      split; [done | by apply list_elem_of_further].
Qed.

Lemma heartbeat_skips cs reg w :
  w ∉ cs →
  (Terminate w ∉ (heartbeat_clients cs reg).2)
  ∧ readyState (signaling (heartbeat_clients cs reg).1) w = readyState (signaling reg) w.
Proof.
  revert reg. induction cs as [|ws cs IH]; intros reg Hnotin;
    [split; [apply not_elem_of_nil | done]|].
  apply not_elem_of_cons in Hnotin as [Hne Hnotin].
  heartbeat_step ws cs reg.
  - destruct (IH (with_isAlive (<[ws := false]> (isAlive reg)) reg) Hnotin) as [Ht Hr].
    split; [|done]. intros [[=]|?]%elem_of_cons. done.
  - destruct (IH (with_signaling (ws_terminate ws (signaling reg)) reg) Hnotin)
      as [Ht Hr].
    split.
    + intros [[= ?]|?]%elem_of_cons; done.
    + rewrite Hr. simpl. by apply readyState_ws_terminate_other.
Qed.

Lemma heartbeat_spares cs reg w :
  NoDup cs → w ∈ cs → alive reg w = true →
  Ping w ∈ (heartbeat_clients cs reg).2
  ∧ (Terminate w ∉ (heartbeat_clients cs reg).2)
  ∧ readyState (signaling (heartbeat_clients cs reg).1) w = readyState (signaling reg) w.
Proof.
  intros Hnd. revert reg. induction Hnd as [|ws cs Hws Hnd IH]; intros reg Hin Hw;
    [by apply elem_of_nil in Hin|].
  apply elem_of_cons in Hin as [->|Hin].
  - rewrite (heartbeat_pings ws cs reg Hw). cbn [fst snd].
    destruct (heartbeat_skips cs (with_isAlive (<[ws := false]> (isAlive reg)) reg)
                ws Hws) as [Ht Hr].
    split_and!; [apply list_elem_of_here | | done].
    intros [[=]|?]%elem_of_cons. done.
  - assert (Hne : w ≠ ws) by congruence.
    heartbeat_step ws cs reg.
    + destruct (IH (with_isAlive (<[ws := false]> (isAlive reg)) reg) Hin)
        as (Hp & Ht & Hr).
      { rewrite alive_cleared. by rewrite decide_False. }
      split_and!; [by apply list_elem_of_further | | done].
      intros [[=]|?]%elem_of_cons. done.
    + destruct (IH (with_signaling (ws_terminate ws (signaling reg)) reg) Hin Hw)
        as (Hp & Ht & Hr).
      split_and!; [by apply list_elem_of_further | |].
      * intros [[= ?]|?]%elem_of_cons; done.
      * rewrite Hr. simpl. by apply readyState_ws_terminate_other.
Qed.

(** X18.  Two heartbeats with nothing in between leave no socket of
    [wss.clients] open: a socket whose flag the first one cleared and that
    has not answered with a pong is terminated by the second one at the
    latest.  The heartbeat changes no room and no binding. *)
Theorem X18_two_heartbeats (reg : Registry) (ws : conn)
    (Hclient : ws ∈ clients reg) :
  is_open (signaling (heartbeat (heartbeat reg).1).1) ws = false
  ∧ (Terminate ws ∈ (heartbeat reg).2 ∨ Terminate ws ∈ (heartbeat (heartbeat reg).1).2)
  ∧ same_tables (signaling reg) (signaling (heartbeat (heartbeat reg).1).1).
Proof.
  unfold heartbeat.
  destruct (heartbeat_clients_frame (clients reg) reg) as (Hc & _ & _ & _ & Ht1).
  destruct (heartbeat_clients_frame (clients (heartbeat_clients (clients reg) reg).1)
              (heartbeat_clients (clients reg) reg).1) as (_ & _ & _ & _ & Ht2).
  rewrite Hc in *.
  destruct (heartbeat_reaps (clients reg) (heartbeat_clients (clients reg) reg).1 ws)
    as [Ho Ht]; [done | by apply heartbeat_clears |].
  split_and!; [done | by right |].
  destruct Ht1 as [Hr1 Hb1], Ht2 as [Hr2 Hb2]. split; congruence.
Qed.

Lemma X18_two_heartbeats_witness :
  1%nat ∈ clients seated
  ∧ is_open (signaling seated) 1%nat = true
  ∧ is_open (signaling (heartbeat (heartbeat seated).1).1) 1%nat = false.
Proof.
  assert (H : 1%nat ∈ clients seated) by (vm_compute; apply list_elem_of_here).
  split; [exact H|]. split; [vm_compute; reflexivity|].
  apply (X18_two_heartbeats seated 1%nat H).
Defined.

(** X19.  A socket that has answered with a pong since the last heartbeat
    is spared by the next one: it is pinged, it is not terminated and its
    state is what it was. *)
Theorem X19_pong_spares (reg : Registry) (ws : conn)
    (Hok : registry_ok reg) (Hlistening : ws ∈ listening reg) :
  Ping ws ∈ (heartbeat (ws_pong ws reg)).2
  ∧ (Terminate ws ∉ (heartbeat (ws_pong ws reg)).2)
  ∧ readyState (signaling (heartbeat (ws_pong ws reg)).1) ws
    = readyState (signaling reg) ws.
Proof.
  destruct Hok as (Hclients & _ & Hsub & _).
  unfold heartbeat, ws_pong. rewrite (proj2 (Set_has_true _ _) Hlistening).
  apply (heartbeat_spares (clients reg)
           (with_isAlive (<[ws := true]> (isAlive reg)) reg) ws);
    [done | by apply Hsub |].
  unfold alive. simpl. by rewrite lookup_insert_eq.
Qed.

Lemma X19_pong_spares_witness :
  1%nat ∈ listening (heartbeat seated).1
  ∧ readyState (signaling (heartbeat (ws_pong 1%nat (heartbeat seated).1)).1) 1%nat
    = OPEN.
Proof.
  assert (Hl : 1%nat ∈ listening (heartbeat seated).1)
    by (vm_compute; apply list_elem_of_here).
  split; [exact Hl|].
  refine (eq_trans (proj2 (proj2 (X19_pong_spares (heartbeat seated).1 1%nat _ Hl))) _).
  - repeat split; try (vm_compute; apply NoDup_singleton).
    intros ws Hin. vm_compute in Hin. vm_compute. exact Hin.
  - vm_compute. reflexivity.
Defined.

(** * [log] *)

(** X20.  What [log] prints under a [LOG_LEVEL].  Debug messages are
    printed under [debug] and under no other setting.  The setting [error]
    does not restrict the output to errors: it prints what [info] prints,
    warnings and info messages included.  And errors and warnings are
    printed under every setting that is not a name of [Object.prototype]. *)
Theorem X20_log_levels :
  (∀ logLevel, log_prints logLevel debug = true ↔ logLevel = "debug")
  ∧ (∀ level, log_prints "error" level = log_prints "info" level)
  ∧ (∀ logLevel, logLevel ∉ Object_prototype →
       log_prints logLevel error = true ∧ log_prints logLevel warn = true)
  ∧ (∀ level, log_prints "warn" level = true ↔ level = error ∨ level = warn).
Proof.
  split_and!.
  - intros logLevel. unfold log_prints, currentLevel, levels.
    repeat case_bool_decide; subst; simpl; split; try done; congruence.
  - by intros [].
  - intros logLevel Hname. unfold log_prints, currentLevel, levels.
    by repeat case_bool_decide.
  - intros []; vm_compute; split; try done; try (by left); try (by right);
      intros [?|?]; done.
Qed.

(** * The two servers *)

(** ** The Room Table of the HTTPS server under plain keys *)

Lemma plain_Map_get r m :
  Map_get (Plain.KString r) (plain_entry <$> m) = plain_room <$> Map_get r m.
Proof.
  induction m as [|[k v] m IH]; [done|]. simpl.
  destruct (decide (k = r)) as [->|Hne].
  - by rewrite decide_True.
  - rewrite decide_False by congruence. apply IH.
Qed.

Lemma plain_Map_get_other k m :
  (∀ s, k ≠ Plain.KString s) → Map_get k (plain_entry <$> m) = None.
Proof.
  intros Hk. induction m as [|[k' v] m IH]; [done|]. simpl.
  rewrite decide_False; [apply IH|]. intros Heq. by apply (Hk k').
Qed.

Lemma plain_Map_has r m : Map_has (Plain.KString r) (plain_entry <$> m) = Map_has r m.
Proof. unfold Map_has. rewrite plain_Map_get. by destruct (Map_get r m). Qed.

Lemma plain_Map_set r v m :
  Map_set (Plain.KString r) (plain_room v) (plain_entry <$> m)
  = plain_entry <$> Map_set r v m.
Proof.
  induction m as [|[k v'] m IH]; [done|].
  rewrite fmap_cons. cbn [Map_set plain_entry fst snd].
  destruct (decide (k = r)) as [->|Hne].
  - by rewrite decide_True.
  - rewrite decide_False by congruence. by rewrite fmap_cons, IH.
Qed.

Lemma plain_Map_delete r m :
  Map_delete (Plain.KString r) (plain_entry <$> m) = plain_entry <$> Map_delete r m.
Proof.
  induction m as [|[k v'] m IH]; [done|].
  rewrite fmap_cons. cbn [Map_delete plain_entry fst snd].
  destruct (decide (k = r)) as [->|Hne].
  - by rewrite decide_True.
  - rewrite decide_False by congruence. by rewrite fmap_cons, IH.
Qed.

Lemma plain_lookup st ws :
  Plain.connections (plain_server st) !! ws = plain_binding <$> connections st !! ws.
Proof. unfold plain_server. simpl. apply lookup_fmap. Qed.

Lemma plain_is_open st c : Plain.is_open (plain_server st) c = is_open st c.
Proof. done. Qed.

(** The server after a handler has written a room and a binding, or taken
    them away, seen as a plain server. *)
Lemma plain_server_set st ws b r room :
  plain_server (with_connections (<[ws := b]> (connections st))
                  (with_rooms (Map_set r room (rooms st)) st))
  = Plain.with_connections (<[ws := plain_binding b]> (Plain.connections (plain_server st)))
      (Plain.with_rooms
         (Map_set (Plain.KString r) (plain_room room) (Plain.rooms (plain_server st)))
         (plain_server st)).
Proof.
  unfold plain_server, Plain.with_connections, Plain.with_rooms. simpl.
  by rewrite fmap_insert, plain_Map_set.
Qed.

Lemma plain_server_remove_viewer st ws r room :
  plain_server (with_connections (delete ws (connections st))
                  (with_rooms (Map_set r room (rooms st)) st))
  = Plain.with_connections (delete ws (Plain.connections (plain_server st)))
      (Plain.with_rooms
         (Map_set (Plain.KString r) (plain_room room) (Plain.rooms (plain_server st)))
         (plain_server st)).
Proof.
  unfold plain_server, Plain.with_connections, Plain.with_rooms. simpl.
  by rewrite fmap_delete, plain_Map_set.
Qed.

Lemma plain_server_remove_room st ws r :
  plain_server (with_connections (delete ws (connections st))
                  (with_rooms (Map_delete r (rooms st)) st))
  = Plain.with_connections (delete ws (Plain.connections (plain_server st)))
      (Plain.with_rooms (Map_delete (Plain.KString r) (Plain.rooms (plain_server st)))
         (plain_server st)).
Proof.
  unfold plain_server, Plain.with_connections, Plain.with_rooms. simpl.
  by rewrite fmap_delete, plain_Map_delete.
Qed.

Lemma plain_server_unbind st ws :
  plain_server (with_connections (delete ws (connections st)) st)
  = Plain.with_connections (delete ws (Plain.connections (plain_server st)))
      (plain_server st).
Proof.
  unfold plain_server, Plain.with_connections. simpl. by rewrite fmap_delete.
Qed.

Lemma plain_notify_viewers st vs :
  Plain.notify_viewers (plain_server st) vs = plain_trace (notify_viewers st vs).
Proof.
  induction vs as [|v vs IH]; [done|].
  cbn [Plain.notify_viewers notify_viewers].
  rewrite plain_is_open, IH. unfold plain_trace. rewrite omap_app.
  by destruct (is_open st v).
Qed.

Lemma plain_forward_to_viewer st wanted msg vs :
  (∀ v, v ∈ vs → is_open st v = true) →
  Plain.forward_to_viewer (plain_server st) wanted (plain_outbound msg) vs
  = plain_trace (forward_to_viewer st wanted msg vs).
Proof.
  induction vs as [|v vs IH]; intros Hopen; [done|].
  cbn [Plain.forward_to_viewer forward_to_viewer]. rewrite plain_lookup.
  assert (Hrest : ∀ w, w ∈ vs → is_open st w = true)
    by (intros w Hw; apply Hopen; by apply list_elem_of_further).
  destruct (connections st !! v) as [bv|]; simpl; [|by apply IH].
  destruct (strict_eq (viewerId bv) wanted); [|by apply IH].
  by rewrite (Hopen v (list_elem_of_here _ _)).
Qed.

(** The handlers of a departure, side by side. *)
Lemma refine_departures (ws : conn) (message : Json) (st : SignalingServer) :
  Plain.handleLeaveRoom ws message (plain_server st)
  = (plain_server (handleLeaveRoom ws message st).1,
     plain_trace (handleLeaveRoom ws message st).2)
  ∧ Plain.handleDisconnection ws (plain_server st)
    = (plain_server (handleDisconnection ws st).1,
       plain_trace (handleDisconnection ws st).2).
Proof.
  split.
  - unfold Plain.handleLeaveRoom, handleLeaveRoom. rewrite plain_lookup.
    destruct (connections st !! ws) as [b|]; [|done]. simpl.
    rewrite plain_Map_get.
    destruct (Map_get (roomId b) (rooms st)) as [room|]; [|done]. simpl.
    destruct (type b); simpl.
    + by rewrite plain_server_unbind.
    + rewrite (plain_server_remove_viewer st ws (roomId b)
                 (mkRoom (host room) (Set_delete ws (viewers room)) (createdAt room))).
      f_equal. unfold Plain.is_open, Plain.readyState, is_open, readyState. simpl.
      by destruct (bool_decide _).
  - unfold Plain.handleDisconnection, handleDisconnection. rewrite plain_lookup.
    destruct (connections st !! ws) as [b|]; [|done]. simpl.
    rewrite plain_Map_get.
    destruct (Map_get (roomId b) (rooms st)) as [room|]; [|done]. simpl.
    destruct (type b); simpl.
    + rewrite plain_server_remove_room. f_equal. apply plain_notify_viewers.
    + rewrite (plain_server_remove_viewer st ws (roomId b)
                 (mkRoom (host room) (Set_delete ws (viewers room)) (createdAt room))).
      f_equal. unfold Plain.is_open, Plain.readyState, is_open, readyState. simpl.
      by destruct (bool_decide _).
Qed.

(** Under the identifiers of the HTTPS server the log lines of the plain
    [handleDisconnection] can be written. *)
Lemma plain_disconnection_returns (ws : conn) (st : SignalingServer) :
  Plain.handleDisconnection_throws ws (plain_server st) = false.
Proof.
  unfold Plain.handleDisconnection_throws. rewrite plain_lookup.
  destruct (connections st !! ws) as [b|]; [|done]. simpl.
  by destruct (Map_get _ _).
Qed.

(** X22.  Leaving and disconnecting are the same in both servers: on the
    HTTPS server seen as a plain server, the plain [handleLeaveRoom] and
    [handleDisconnection] end in the server, and send the messages, that
    the HTTPS handlers end in and send. *)
Theorem X22_same_departures (ws : conn) (message : Json) (st : SignalingServer) :
  Plain.handleLeaveRoom ws message (plain_server st)
  = (plain_server (handleLeaveRoom ws message st).1,
     plain_trace (handleLeaveRoom ws message st).2)
  ∧ Plain.handleDisconnection ws (plain_server st)
    = (plain_server (handleDisconnection ws st).1,
       plain_trace (handleDisconnection ws st).2).
Proof. apply refine_departures. Qed.

(** ** Messages within the checks of the HTTPS server *)

Lemma refine_create env penv ws message st rid :
  Z.of_nat (Map_size (rooms st)) < maxRooms st →
  prop "roomId" message = Some (JString rid) →
  rid ≠ "" → (String.length rid ≤ 20)%nat →
  Plain.handleCreateRoom penv ws message (plain_server st)
  = (plain_server (handleCreateRoom env ws message st).1,
     plain_trace (handleCreateRoom env ws message st).2).
Proof.
  intros Hcap Hrid Hne Hlen. unfold Plain.handleCreateRoom, handleCreateRoom.
  rewrite Hrid, valid_roomId by done. cbn [Plain.key_of].
  rewrite (proj2 (Z.leb_gt _ _)) by lia.
  change (Plain.rooms (plain_server st)) with (plain_entry <$> rooms st).
  rewrite plain_Map_has.
  destruct (Map_has rid (rooms st)); [done|]. cbn [fst snd Plain.key_printable].
  by rewrite (plain_server_set st ws (mkBinding host_role rid None) rid
                (mkRoom ws [] (now env))).
Qed.

Lemma refine_join env penv ws message st :
  Plain.random penv = random env →
  Map_get "" (rooms st) = None →
  (∀ rid room, prop "roomId" message = Some (JString rid) →
               Map_get rid (rooms st) = Some room →
               (Set_size (viewers room) < 50)%nat) →
  Plain.handleJoinRoom penv ws message (plain_server st)
  = (plain_server (handleJoinRoom env ws message st).1,
     plain_trace (handleJoinRoom env ws message st).2).
Proof.
  intros Hrandom Hempty Hcap. unfold Plain.handleJoinRoom, handleJoinRoom.
  change (Plain.rooms (plain_server st)) with (plain_entry <$> rooms st).
  destruct (prop "roomId" message) as [[| | |rid| |]|] eqn:Hrid;
    cbn [Plain.key_of]; try (by rewrite plain_Map_get_other).
  rewrite plain_Map_get. case_bool_decide as Hne; [subst rid; by rewrite Hempty|].
  destruct (Map_get rid (rooms st)) as [room|] eqn:Hroom; [|done].
  rewrite (proj2 (Nat.leb_gt _ _)) by (by apply (Hcap rid)).
  cbn [fmap option_fmap option_map fst snd Plain.key_printable]. rewrite Hrandom.
  rewrite (plain_server_set st ws
             (mkBinding viewer_role rid (Some (generateViewerId (random env)))) rid
             (mkRoom (host room) (Set_add ws (viewers room)) (createdAt room))).
  f_equal. unfold Plain.is_open, Plain.readyState, is_open, readyState. simpl.
  by destruct (bool_decide _).
Qed.

Lemma refine_relay ws message st :
  (∀ b room, connections st !! ws = Some b →
             Map_get (roomId b) (rooms st) = Some room → room_open st room) →
  Plain.handleOffer ws message (plain_server st)
  = (plain_server (handleOffer ws message st).1,
     plain_trace (handleOffer ws message st).2)
  ∧ Plain.handleAnswer ws message (plain_server st)
    = (plain_server (handleAnswer ws message st).1,
       plain_trace (handleAnswer ws message st).2)
  ∧ Plain.handleIceCandidate ws message (plain_server st)
    = (plain_server (handleIceCandidate ws message st).1,
       plain_trace (handleIceCandidate ws message st).2).
Proof.
  intros Hopen.
  unfold Plain.handleOffer, handleOffer, Plain.handleAnswer, handleAnswer,
    Plain.handleIceCandidate, handleIceCandidate.
  rewrite plain_lookup.
  destruct (connections st !! ws) as [b|] eqn:Hb; [|done].
  cbn [fmap option_fmap option_map plain_binding Plain.type Plain.roomId
       Plain.viewerId].
  change (Plain.rooms (plain_server st)) with (plain_entry <$> rooms st).
  rewrite plain_Map_get.
  destruct (Map_get (roomId b) (rooms st)) as [room|] eqn:Hroom;
    [|by destruct (type b)].
  destruct (Hopen b room eq_refl Hroom) as [Hhost Hviewers].
  cbn [fmap option_fmap option_map plain_room Plain.host Plain.viewers].
  rewrite plain_is_open, Hhost.
  destruct (type b); split_and!; try done; cbn [fst snd]; f_equal.
  - by apply (plain_forward_to_viewer st _ (offer_msg _)).
  - by apply (plain_forward_to_viewer st _ (ice_candidate_msg _ _)).
Qed.

(** X21.  On a message within its own checks the HTTPS server does what
    the plain server does: seen as a plain server it ends in the same
    server and has sent the same messages.  The checks are: no room is
    kept under the empty string, a create-room names a string of 1 to 20
    while the Room Table is below [maxRooms], a join-room does not go to a
    room of 50 viewers, and the sockets of the sender's room are open. *)
Theorem X21_https_as_plain (env : Env) (penv : Plain.Env) (ws : conn)
    (message : Json) (st : SignalingServer)
    (Hrandom : Plain.random penv = random env)
    (Hchecks : within_checks st ws message) :
  Plain.handleMessage penv ws message (plain_server st)
  = (plain_server (handleMessage env ws message st).1,
     plain_trace (handleMessage env ws message st).2).
Proof.
  destruct Hchecks as (Hempty & Hcreate & Hjoin & Hopen).
  unfold Plain.handleMessage, handleMessage.
  destruct (prop "type" message) as [[| | |kind| |]|] eqn:Hkind;
    try by destruct (negb (truthy _)).
  destruct (negb (truthy (Some (JString kind)))) eqn:Htruthy.
  { simpl in Htruthy. apply negb_true_iff, negb_false_iff in Htruthy.
    apply bool_decide_eq_true in Htruthy as ->. done. }
  destruct (refine_relay ws message st Hopen) as (Hoffer & Hanswer & Hice).
  repeat case_bool_decide; subst; try done.
  - destruct (Hcreate eq_refl) as (Hcap & rid & Hrid & Hne & Hlen).
    by apply (refine_create env penv ws message st rid).
  - apply refine_join; [done | done |]. by apply Hjoin.
  - apply refine_departures.
Qed.

Lemma X21_https_as_plain_witness :
  within_checks joined 1%nat an_offer
  ∧ Plain.handleMessage (Plain.mkEnv 0 "k3x9a2bq") 1%nat an_offer (plain_server joined)
    = (plain_server joined,
       [Plain.Send 2%nat (Plain.offer_msg (prop "offer" an_offer))]).
Proof.
  assert (H : within_checks joined 1%nat an_offer).
  { split_and!; try done.
    intros b room Hb Hroom. vm_compute in Hb. injection Hb as <-.
    vm_compute in Hroom. injection Hroom as <-.
    split; [vm_compute; reflexivity|].
    intros v ->%list_elem_of_singleton. vm_compute. reflexivity. }
  split; [exact H|].
  refine (eq_trans (X21_https_as_plain env0 (Plain.mkEnv 0 "k3x9a2bq") 1%nat an_offer
                      joined _ H) _).
  - reflexivity.
  - vm_compute. reflexivity.
Defined.

(** ** The plain server takes any key *)

Lemma plain_handleMessage_create penv ws message st :
  prop "type" message = Some (JString "create-room") →
  Plain.handleMessage penv ws message st = Plain.handleCreateRoom penv ws message st.
Proof. intros Hk. unfold Plain.handleMessage. by rewrite Hk. Qed.

Lemma plain_handleMessage_join penv ws message st :
  prop "type" message = Some (JString "join-room") →
  Plain.handleMessage penv ws message st = Plain.handleJoinRoom penv ws message st.
Proof. intros Hk. unfold Plain.handleMessage. by rewrite Hk. Qed.

Lemma key_printable_key_of penv v :
  Plain.key_printable (Plain.key_of penv v) = Plain.printable v.
Proof. by destruct v as [[]|]. Qed.

Lemma key_of_by_value penv penv' v :
  Plain.by_value v = true → Plain.key_of penv' v = Plain.key_of penv v.
Proof. by destruct v as [[]|]. Qed.

Lemma by_value_printable v : Plain.by_value v = true → Plain.printable v = true.
Proof. by destruct v as [[]|]. Qed.

(** X23.  The plain server checks nothing about [roomId].  Whatever a
    create-room carries there, a missing field included, the room is made
    under that value and the sender bound as its host, if no room has the
    value yet; room-created is sent back when the log line can write the
    value, and nothing is sent when it cannot (an object with a [toString]
    field of its own, or an array that holds one).  A join-room that then
    carries the same value, where that is a value compared as a value
    (anything but an object or an array) or likewise none, joins that room,
    gets room-joined, and the host, if open, viewer-joined. *)
Theorem X23_plain_takes_any_key (env env' : Plain.Env) (h ws : conn)
    (create join : Json) (st : Plain.SignalingServer)
    (Hcreate : prop "type" create = Some (JString "create-room"))
    (Hjoin : prop "type" join = Some (JString "join-room"))
    (Hfree : Map_get (Plain.key_of env (prop "roomId" create)) (Plain.rooms st) = None) :
  Map_get (Plain.key_of env (prop "roomId" create))
    (Plain.rooms (Plain.handleMessage env h create st).1)
  = Some (Plain.mkRoom h [])
  ∧ Plain.connections (Plain.handleMessage env h create st).1 !! h
    = Some (Plain.mkBinding host_role (Plain.key_of env (prop "roomId" create)) None)
  ∧ (Plain.handleMessage env h create st).2
    = (if Plain.printable (prop "roomId" create)
       then [Plain.Send h (Plain.room_created (prop "roomId" create))] else [])
  ∧ (Plain.by_value (prop "roomId" create) = true →
     prop "roomId" join = prop "roomId" create →
     Map_get (Plain.key_of env (prop "roomId" create))
       (Plain.rooms
          (Plain.handleMessage env' ws join (Plain.handleMessage env h create st).1).1)
     = Some (Plain.mkRoom h [ws])
     ∧ Plain.connections
         (Plain.handleMessage env' ws join (Plain.handleMessage env h create st).1).1
       !! ws
       = Some (Plain.mkBinding viewer_role (Plain.key_of env (prop "roomId" create))
                 (Some (generateViewerId (Plain.random env'))))
     ∧ (Plain.handleMessage env' ws join (Plain.handleMessage env h create st).1).2
       = Plain.Send ws (Plain.room_joined (prop "roomId" create)
                          (generateViewerId (Plain.random env')))
         :: (if Plain.is_open st h
             then [Plain.Send h (Plain.viewer_joined
                                   (generateViewerId (Plain.random env')))]
             else [])).
Proof.
  rewrite (plain_handleMessage_create _ _ _ _ Hcreate).
  unfold Plain.handleCreateRoom. rewrite (proj2 (Map_has_false _ _) Hfree).
  rewrite key_printable_key_of.
  cbn [fst snd Plain.rooms Plain.connections Plain.with_connections Plain.with_rooms].
  split_and!; [by rewrite Map_get_set_eq | by rewrite lookup_insert_eq | done |].
  intros Hvalue Hsame.
  rewrite (plain_handleMessage_join _ _ _ _ Hjoin).
  unfold Plain.handleJoinRoom.
  rewrite Hsame, (key_of_by_value env env' _ Hvalue), key_printable_key_of,
    (by_value_printable _ Hvalue).
  cbn [Plain.rooms Plain.with_connections Plain.with_rooms].
  rewrite Map_get_set_eq. cbn [fst snd Plain.rooms Plain.connections
    Plain.with_connections Plain.with_rooms Plain.host Plain.viewers].
  split_and!; [by rewrite Map_get_set_eq | by rewrite lookup_insert_eq | done].
Qed.

Lemma X23_plain_takes_any_key_witness :
  (Map_get (Plain.KRef 0 false) (Plain.rooms plain_new) = None
   ∧ Map_get (Plain.KRef 0 false)
       (Plain.rooms
          (Plain.handleMessage (Plain.mkEnv 0 "k3x9a2bq") 1%nat create_unprintable
             plain_new).1)
     = Some (Plain.mkRoom 1%nat [])
   ∧ (Plain.handleMessage (Plain.mkEnv 0 "k3x9a2bq") 1%nat create_unprintable
        plain_new).2
     = [])
  ∧ (Plain.handleMessage (Plain.mkEnv 0 "k3x9a2bq") 1%nat create_nameless plain_new).2
    = [Plain.Send 1%nat (Plain.room_created None)]
  ∧ (Plain.handleMessage (Plain.mkEnv 1 "k3x9a2bq") 2%nat join_nameless
       (Plain.handleMessage (Plain.mkEnv 0 "k3x9a2bq") 1%nat create_nameless
          plain_new).1).2
    = [Plain.Send 2%nat (Plain.room_joined None "viewer_k3x9a2bq")].
Proof.
  pose proof (X23_plain_takes_any_key (Plain.mkEnv 0 "k3x9a2bq")
                (Plain.mkEnv 1 "k3x9a2bq") 1%nat 2%nat create_unprintable join_nameless
                plain_new eq_refl eq_refl eq_refl) as (Hroom & _ & Hsent & _).
  pose proof (X23_plain_takes_any_key (Plain.mkEnv 0 "k3x9a2bq")
                (Plain.mkEnv 1 "k3x9a2bq") 1%nat 2%nat create_nameless join_nameless
                plain_new eq_refl eq_refl eq_refl) as (_ & _ & Hcreated & Hjoined).
  destruct (Hjoined eq_refl eq_refl) as (_ & _ & Hsent').
  split_and!; [reflexivity | exact Hroom | exact Hsent | exact Hcreated | exact Hsent'].
Defined.

(** * A host that stops answering *)

Lemma handleDisconnection_sockets ws st :
  sockets (handleDisconnection ws st).1 = sockets st.
Proof. unfold handleDisconnection. by repeat case_match. Qed.

Lemma handleDisconnection_hosted_by ws st rid h :
  hosted_by_or_gone st rid h → hosted_by_or_gone (handleDisconnection ws st).1 rid h.
Proof.
  intros Hh. unfold handleDisconnection.
  destruct (connections st !! ws) as [b|]; [|done].
  destruct (Map_get (roomId b) (rooms st)) as [room|] eqn:Hroom; [|done].
  destruct (type b); intros room'; cbn [fst rooms with_connections with_rooms].
  - destruct (Map_get_delete (roomId b) rid (rooms st)) as [Hnone|Hsame].
    + by rewrite Hnone.
    + rewrite Hsame. apply Hh.
  - destruct (decide (roomId b = rid)) as [Heq|Hne].
    + rewrite Heq, Map_get_set_eq. intros [= <-]. cbn [host].
      apply Hh. by rewrite <- Heq.
    + rewrite Map_get_set_ne by done. apply Hh.
Qed.

(** After its [close] a socket is not open, and hosts what it hosted. *)
Lemma ws_closed_host ws reg rid :
  hosted_by_or_gone (signaling reg) rid ws →
  is_open (signaling (ws_closed ws reg).1) ws = false
  ∧ hosted_by_or_gone (signaling (ws_closed ws reg).1) rid ws.
Proof.
  intros Hh. unfold ws_closed.
  destruct (Set_has ws (listening reg)); cbn [fst signaling].
  - unfold on_close. split.
    + unfold is_open, readyState. rewrite handleDisconnection_sockets. simpl.
      by rewrite lookup_insert_eq.
    + by apply handleDisconnection_hosted_by.
  - split; [|done]. unfold is_open, readyState. simpl. by rewrite lookup_insert_eq.
Qed.

Lemma heartbeat_host reg rid h :
  is_open (signaling reg) h = false → hosted_by_or_gone (signaling reg) rid h →
  is_open (signaling (heartbeat reg).1) h = false
  ∧ hosted_by_or_gone (signaling (heartbeat reg).1) rid h.
Proof.
  intros Hdead Hh. unfold heartbeat.
  destruct (heartbeat_clients_frame (clients reg) reg) as (_ & _ & _ & _ & Hr & _).
  split.
  - destruct (is_open (signaling (heartbeat_clients (clients reg) reg).1) h) eqn:Ho;
      [|done].
    apply heartbeat_open_mono in Ho. congruence.
  - unfold hosted_by_or_gone. by rewrite Hr.
Qed.

(** The sweep takes out the room of a host that is not open. *)
Lemma janitor_dead_host now reg rid h :
  is_open (signaling reg) h = false → hosted_by_or_gone (signaling reg) rid h →
  Map_get rid (rooms (signaling (janitor now reg).1)) = None.
Proof.
  intros Hdead Hh. unfold janitor, cleanupStaleRooms. cbn [fst signaling with_signaling].
  destruct (Map_get rid (rooms (signaling reg))) as [room|] eqn:Hroom.
  - eapply sweep_dead; [by apply Map_get_elem|]. by rewrite (Hh room Hroom).
  - by apply sweep_gone.
Qed.

(** X24.  A room whose host has stopped answering the heartbeat does not
    stay.  After two heartbeats without a pong from the host and one sweep
    the room is out of the Room Table and a join-room for it is answered
    room-not-found, whether the [close] of the host's socket has come
    between the two heartbeats, between the second heartbeat and the sweep,
    or not yet. *)
Theorem X24_silent_host (now : Z) (env : Env) (ws : conn) (reg : Registry)
    (rid : string) (room : Room) (closing : Closing)
    (Hroom : Map_get rid (rooms (signaling reg)) = Some room)
    (Hclient : host room ∈ clients reg) :
  Map_get rid
    (rooms (signaling (janitor now (unanswered closing (host room) reg)).1)) = None
  ∧ handleMessage env ws (join_room rid)
      (signaling (janitor now (unanswered closing (host room) reg)).1)
    = (signaling (janitor now (unanswered closing (host room) reg)).1,
       [Send ws room_not_found]).
Proof.
  assert (Hgone :
    Map_get rid
      (rooms (signaling (janitor now (unanswered closing (host room) reg)).1)) = None).
  { assert (Hh : hosted_by_or_gone (signaling reg) rid (host room))
      by (intros room' Hroom'; congruence).
    destruct (heartbeat_clients_frame (clients reg) reg) as (Hc & _ & _ & _ & Hr1 & _).
    assert (Hh1 : hosted_by_or_gone (signaling (heartbeat reg).1) rid (host room))
      by (unfold hosted_by_or_gone, heartbeat; by rewrite Hr1).
    assert (Hsilent : alive (heartbeat reg).1 (host room) = false)
      by (by apply heartbeat_clears).
    assert (Hreaped :
      is_open (signaling (heartbeat (heartbeat reg).1).1) (host room) = false
      ∧ hosted_by_or_gone (signaling (heartbeat (heartbeat reg).1).1) rid (host room)).
    { split.
      - unfold heartbeat at 1.
        apply heartbeat_reaps; [|done]. unfold heartbeat. by rewrite Hc.
      - destruct (heartbeat_clients_frame (clients (heartbeat reg).1) (heartbeat reg).1)
          as (_ & _ & _ & _ & Hr2 & _).
        unfold hosted_by_or_gone, heartbeat at 1. by rewrite Hr2. }
    destruct closing; unfold unanswered.
    - destruct (ws_closed_host (host room) (heartbeat reg).1 rid Hh1) as [Hd Hh2].
      destruct (heartbeat_host _ rid (host room) Hd Hh2) as [Hd' Hh'].
      by apply (janitor_dead_host now _ rid (host room)).
    - destruct Hreaped as [_ Hh2].
      destruct (ws_closed_host (host room) (heartbeat (heartbeat reg).1).1 rid Hh2)
        as [Hd' Hh'].
      by apply (janitor_dead_host now _ rid (host room)).
    - destruct Hreaped as [Hd' Hh'].
      by apply (janitor_dead_host now _ rid (host room)). }
  split; [done|].
  rewrite (handleMessage_join env ws (join_room rid) _ eq_refl).
  unfold handleJoinRoom.
  change (prop "roomId" (join_room rid)) with (Some (JString rid)). cbv iota beta.
  case_bool_decide; [done|]. by rewrite Hgone.
Qed.

Lemma X24_silent_host_witness :
  1%nat ∈ clients (with_signaling hosted seated)
  ∧ Map_get "ABCD1234"
      (rooms (signaling (janitor 1700000000001
                (unanswered before_sweep 1%nat (with_signaling hosted seated))).1))
    = None.
Proof.
  assert (H : 1%nat ∈ clients (with_signaling hosted seated))
    by (vm_compute; apply list_elem_of_here).
  split; [exact H|].
  refine (proj1 (X24_silent_host 1700000000001 env0 2%nat (with_signaling hosted seated)
                   "ABCD1234" (mkRoom 1%nat [] 1700000000000) before_sweep _ H)).
  vm_compute. reflexivity.
Defined.
